(** * react-intl, [src/format.js]: the formatting functions

    A shallow embedding of the module [src/format.js] and the proofs of the
    properties its specification states about it.

    The module is glue over the host's internationalisation objects. Its
    functions read properties of the objects they are given, build a fresh
    object of options or of escaped values, and call a formatter that the
    [state] argument supplies. The embedding keeps that shape:

    - a JavaScript value is a primitive or a reference into a store of
      objects; an object is its own data properties, and a Date also has its
      time value;
    - a computation of the module threads the store and a trace (the lines
      written with [console.error] and the calls made into [state]) and ends
      with a value or with a thrown exception;
    - the formatter constructors of [state] and the formatters they return
      belong to the host: they are arbitrary functions of the store and of
      their arguments that return a value or throw.

    Boundary of the model: objects hold data properties only. The properties
    an object inherits from the built-in prototypes, function-valued
    properties, and the index and length properties of a string primitive are
    not modelled; a method call such as [obj.hasOwnProperty(name)] is the
    built-in method. *)

From Stdlib Require Import ZArith Ascii String List.
From Stdlib Require Import Floats.SpecFloat.
From stdpp Require Import base option list gmap strings fin_maps.

Local Open Scope string_scope.
Local Open Scope list_scope.
Local Open Scope stdpp_scope.

(** * The model

    ** Values and the store *)

Abbreviation loc := nat.

(** A number is an IEEE-754 datum: a signed zero, an infinity, NaN, or
    [(-1)^s * m * 2^e]. The module does no arithmetic on numbers. *)
Definition number := spec_float.

Inductive val :=
| VUndefined
| VNull
| VBool (b : bool)
| VNum (n : number)
| VStr (s : string)
| VRef (l : loc).

(** The time value of a Date: an integral number of milliseconds, or NaN
    ([None]) for an invalid Date. *)
Definition time := option Z.

Record object := Object {
  props : gmap string val;
  date_value : option time
}.

Definition plain (p : gmap string val) : object :=
  {| props := p; date_value := None |}.

Definition date_object (t : time) : object :=
  {| props := ∅; date_value := Some t |}.

Inductive exn :=
| TypeError
| InvariantViolation (msg : string)
| HostError (e : string).

(** The methods of [state] (and [format] of a formatter it returned). *)
Inductive method :=
| GetDateTimeFormat
| GetRelativeFormat
| GetNumberFormat
| GetPluralFormat
| GetMessageFormat
| Format
| Now.

Inductive event :=
| ConsoleError (msg : string)
| Call (m : method) (args : list val).

Abbreviation heap := (list object).

Record world := World {
  objects : heap;
  trace : list event
}.

(** ** The monad of the module's computations *)

Definition M (A : Type) : Type := world → (exn + A) * world.

#[global] Instance M_ret : MRet M := λ A (a : A) w, (inr a, w).

#[global] Instance M_bind : MBind M := λ A B (k : A → M B) (m : M A) w,
  match m w with
  | (inr a, w') => k a w'
  | (inl e, w') => (inl e, w')
  end.

Definition ret {A} (a : A) : M A := mret a.

Definition throw {A} (e : exn) : M A := λ w, (inl e, w).

(** [try { m } catch (e) { h e }] *)
Definition try_catch {A} (m : M A) (h : exn → M A) : M A :=
  λ w, match m w with
       | (inr a, w') => (inr a, w')
       | (inl e, w') => h e w'
       end.

Definition get_heap : M heap := λ w, (inr (objects w), w).

Definition emit (e : event) : M unit :=
  λ w, (inr tt, {| objects := objects w; trace := trace w ++ [e] |}).

(** [{}] and object literals: a fresh object at the end of the store. *)
Definition alloc (o : object) : M val :=
  λ w, (inr (VRef (List.length (objects w))),
        {| objects := objects w ++ [o]; trace := trace w |}).

Definition store (l : loc) (o : object) : M unit :=
  λ w, (inr tt, {| objects := <[l := o]> (objects w); trace := trace w |}).

(** ** The host: what the module imports or finds in its environment *)

Class Host := {
  (** [Object.keys] of the four prop-type tables of [./types]. *)
  DATE_TIME_FORMAT_OPTIONS : list string;
  NUMBER_FORMAT_OPTIONS : list string;
  RELATIVE_FORMAT_OPTIONS : list string;
  PLURAL_FORMAT_OPTIONS : list string;
  (** [escape] of [./utils]. *)
  escape : string → string;
  (** The conversions of the language that depend on number printing and
      parsing, on date parsing and on the Unicode tables. *)
  Number_toString : number → string;
  String_toNumber : string → number;
  Date_toString : time → string;
  Date_parse : string → time;
  String_toLowerCase : string → string
}.

(** The formatters and the cache of formatter constructors. The store is
    passed so that the host can read the objects it is given. *)
Definition formatter := heap → list val → string + val.

Record State := {
  getDateTimeFormat : heap → val → val → string + formatter;
  getRelativeFormat : heap → val → val → string + formatter;
  getNumberFormat : heap → val → val → string + formatter;
  getPluralFormat : heap → val → val → string + formatter;
  getMessageFormat : heap → val → val → val → string + formatter;
  now : heap → string + val
}.

(** ** The language's operations on values *)

(** The object at a location. The module allocates at the end of the store;
    a location past the end reads as an object without properties, and the
    properties below ask that the arguments of a call be allocated. *)
Definition object_at (h : heap) (l : loc) : object :=
  default (plain ∅) (h !! l).

(** ToBoolean *)
Definition truthy (v : val) : bool :=
  match v with
  | VUndefined | VNull => false
  | VBool b => b
  | VNum (S754_zero _) | VNum S754_nan => false
  | VNum _ => true
  | VStr s => negb (String.eqb s "")
  | VRef _ => true
  end.

(** [a || b] and [a && b] on values already computed. *)
Definition js_or (a b : val) : val := if truthy a then a else b.
Definition js_and (a b : val) : val := if truthy a then b else a.

(** [v[k]] *)
Definition get (v : val) (k : string) : M val :=
  match v with
  | VUndefined | VNull => throw TypeError
  | VRef l =>
      h ← get_heap;
      ret (default VUndefined (props (object_at h l) !! k))
  | _ => ret VUndefined
  end.

(** [v.hasOwnProperty(k)] *)
Definition hasOwnProperty (v : val) (k : string) : M bool :=
  match v with
  | VUndefined | VNull => throw TypeError
  | VRef l =>
      h ← get_heap;
      ret (bool_decide (is_Some (props (object_at h l) !! k)))
  | _ => ret false
  end.

(** [v[k] = x]; the module is strict code, where the assignment to a
    property of a primitive throws. *)
Definition set (v : val) (k : string) (x : val) : M unit :=
  match v with
  | VRef l =>
      h ← get_heap;
      let o := object_at h l in
      store l {| props := <[k := x]> (props o); date_value := date_value o |}
  | _ => throw TypeError
  end.

(** [Object.keys(v)] *)
Definition keys (v : val) : M (list string) :=
  match v with
  | VUndefined | VNull => throw TypeError
  | VRef l =>
      h ← get_heap;
      ret (map fst (map_to_list (props (object_at h l))))
  | _ => ret []
  end.

(** ToString, as a template literal and a computed property name apply it. *)
Definition to_string `{Host} (h : heap) (v : val) : string :=
  match v with
  | VUndefined => "undefined"
  | VNull => "null"
  | VBool true => "true"
  | VBool false => "false"
  | VNum n => Number_toString n
  | VStr s => s
  | VRef l =>
      match date_value (object_at h l) with
      | Some t => Date_toString t
      | None => "[object Object]"
      end
  end.

Definition ToString `{Host} (v : val) : M string :=
  h ← get_heap; ret (to_string h v).

Definition time_to_number (t : time) : number :=
  match t with
  | None => S754_nan
  | Some Z0 => S754_zero false
  | Some (Zpos p) => S754_finite false p 0
  | Some (Zneg p) => S754_finite true p 0
  end.

(** ToNumber *)
Definition to_number `{Host} (h : heap) (v : val) : number :=
  match v with
  | VUndefined => S754_nan
  | VNull => S754_zero false
  | VBool true => S754_finite false 1 0
  | VBool false => S754_zero false
  | VNum n => n
  | VStr s => String_toNumber s
  | VRef l =>
      match date_value (object_at h l) with
      | Some t => time_to_number t
      | None => S754_nan
      end
  end.

Definition is_finite (n : number) : bool :=
  match n with
  | S754_nan | S754_infinity _ => false
  | _ => true
  end.

(** The global [isFinite]. *)
Definition isFinite `{Host} (v : val) : M bool :=
  h ← get_heap; ret (is_finite (to_number h v)).

(** TimeClip: a time value is an integer of magnitude at most 8.64e15. *)
Definition max_time : Z := 8640000000000000.

Definition TimeClip (n : number) : time :=
  match n with
  | S754_nan | S754_infinity _ => None
  | S754_zero _ => Some 0%Z
  | S754_finite s m e =>
      let too_big :=
        if (0 <=? e)%Z then (max_time <? Z.pos m * 2 ^ e)%Z
        else (max_time * 2 ^ (- e) <? Z.pos m)%Z in
      if too_big then None
      else let z := Z.shiftl (Z.pos m) e in Some (if s then (- z)%Z else z)
  end.

(** The time value of [new Date(v)]: that of [v] when [v] is a Date, the
    parse of a string, the clipped number otherwise. *)
Definition time_of `{Host} (h : heap) (v : val) : time :=
  match v with
  | VRef l =>
      match date_value (object_at h l) with
      | Some t => t
      | None => Date_parse "[object Object]"
      end
  | VStr s => Date_parse s
  | _ => TimeClip (to_number h v)
  end.

(** [new Date(v)] *)
Definition Date_new `{Host} (v : val) : M val :=
  h ← get_heap; alloc (date_object (time_of h v)).

(** [s.toLowerCase()] *)
Definition toLowerCase `{Host} (v : val) : M string :=
  match v with
  | VStr s => ret (String_toLowerCase s)
  | _ => throw TypeError
  end.

(** A parameter with the default [= {}]. *)
Definition default_param (v : val) : M val :=
  match v with
  | VUndefined => alloc (plain ∅)
  | _ => ret v
  end.

(** [l.reduce(f, a)] *)
Fixpoint reduce {A B} (f : A → B → M A) (l : list B) (a : A) : M A :=
  match l with
  | [] => ret a
  | x :: l' => a' ← f a x; reduce f l' a'
  end.

Definition console_error (msg : string) : M unit := emit (ConsoleError msg).

(** A call into [state] or into a formatter it returned. *)
Definition host_call {A} (m : method) (args : list val)
    (f : heap → string + A) : M A :=
  emit (Call m args);;
  h ← get_heap;
  match f h with
  | inl e => throw (HostError e)
  | inr a => ret a
  end.

(** [invariant(condition, message)] of the package [invariant]. *)
Definition invariant (condition : val) (msg : string) : M unit :=
  if truthy condition then ret tt else throw (InvariantViolation msg).

Definition exn_toString (e : exn) : string :=
  match e with
  | TypeError => "TypeError"
  | InvariantViolation msg => "Invariant Violation: " +:+ msg
  | HostError s => s
  end.

Definition dq : string := String (Ascii.ascii_of_nat 34) EmptyString.
Definition nl : string := String (Ascii.ascii_of_nat 10) EmptyString.

(** A template literal: its text and its substitutions, in order. *)
Inductive part :=
| Lit (s : string)
| Sub (v : val).

Fixpoint render `{Host} (h : heap) (parts : list part) : string :=
  match parts with
  | [] => ""
  | Lit s :: rest => s +:+ render h rest
  | Sub v :: rest => to_string h v +:+ render h rest
  end.

Definition template `{Host} (parts : list part) : M string :=
  h ← get_heap; ret (render h parts).

(** ** The module [src/format.js] *)

Section Format.
Context `{Host}.

(** [process.env.NODE_ENV === 'production'] *)
Variable production : bool.

Definition filterFormatOptions (whitelist : list string) (obj defaults : val)
    : M val :=
  defaults ← default_param defaults;
  init ← alloc (plain ∅);
  reduce (λ (opts : val) (name : string),
      own ← hasOwnProperty obj name;
      if (own : bool) then
        v ← get obj name; set opts name v;; ret opts
      else
        own' ← hasOwnProperty defaults name;
        if (own' : bool) then
          v ← get defaults name; set opts name v;; ret opts
        else ret opts)
    whitelist init.

Definition getNamedFormat (formats : val) (type : string) (name : val)
    : M val :=
  format ← (if truthy formats then
              of_type ← get formats type;
              if truthy of_type then
                of_type ← get formats type;
                key ← ToString name;
                get of_type key
              else ret of_type
            else ret formats);
  if truthy format then ret format
  else
    (if negb production then
       msg ← template [Lit "[React Intl] No "; Lit type;
                       Lit " format named: "; Sub name];
       console_error msg
     else ret tt);;
    ret VUndefined.

Definition formatDate (config : val) (state : State) (value options : val)
    : M val :=
  options ← default_param options;
  locale ← get config "locale";
  formats ← get config "formats";
  format ← get options "format";
  date ← Date_new value;
  defaults ← (if truthy format then getNamedFormat formats "date" format
              else ret format);
  filteredOptions ←
    filterFormatOptions DATE_TIME_FORMAT_OPTIONS options defaults;
  dtf ← host_call GetDateTimeFormat [locale; filteredOptions]
          (λ h, getDateTimeFormat state h locale filteredOptions);
  host_call Format [date] (λ h, dtf h [date]).

Definition formatTime (config : val) (state : State) (value options : val)
    : M val :=
  options ← default_param options;
  locale ← get config "locale";
  formats ← get config "formats";
  format ← get options "format";
  date ← Date_new value;
  defaults ← (if truthy format then getNamedFormat formats "time" format
              else ret format);
  filteredOptions ←
    filterFormatOptions DATE_TIME_FORMAT_OPTIONS options defaults;
  dtf ← host_call GetDateTimeFormat [locale; filteredOptions]
          (λ h, getDateTimeFormat state h locale filteredOptions);
  host_call Format [date] (λ h, dtf h [date]).

Definition formatRelative (config : val) (state : State)
    (value options : val) : M val :=
  options ← default_param options;
  locale ← get config "locale";
  formats ← get config "formats";
  format ← get options "format";
  date ← Date_new value;
  options_now ← get options "now";
  now_date ← Date_new options_now;
  defaults ← (if truthy format then getNamedFormat formats "relative" format
              else ret format);
  filteredOptions ←
    filterFormatOptions RELATIVE_FORMAT_OPTIONS options defaults;
  rf ← host_call GetRelativeFormat [locale; filteredOptions]
         (λ h, getRelativeFormat state h locale filteredOptions);
  finite ← isFinite now_date;
  reference ← (if (finite : bool) then ret now_date
               else host_call Now [] (λ h, now state h));
  arg ← alloc (plain {["now" := reference]});
  host_call Format [date; arg] (λ h, rf h [date; arg]).

Definition formatNumber (config : val) (state : State)
    (value options : val) : M val :=
  options ← default_param options;
  locale ← get config "locale";
  formats ← get config "formats";
  format ← get options "format";
  defaults ← (if truthy format then getNamedFormat formats "number" format
              else ret format);
  filteredOptions ←
    filterFormatOptions NUMBER_FORMAT_OPTIONS options defaults;
  nf ← host_call GetNumberFormat [locale; filteredOptions]
         (λ h, getNumberFormat state h locale filteredOptions);
  host_call Format [value] (λ h, nf h [value]).

Definition formatPlural (config : val) (state : State)
    (value options : val) : M val :=
  options ← default_param options;
  locale ← get config "locale";
  filteredOptions ←
    filterFormatOptions PLURAL_FORMAT_OPTIONS options VUndefined;
  pf ← host_call GetPluralFormat [locale; filteredOptions]
         (λ h, getPluralFormat state h locale filteredOptions);
  host_call Format [value] (λ h, pf h [value]).

Definition using_default (defaultMessage : val) : string :=
  if truthy defaultMessage then ", using default message as fallback." else "".

Definition formatMessage (config : val) (state : State)
    (messageDescriptor values : val) : M val :=
  messageDescriptor ← default_param messageDescriptor;
  values ← default_param values;
  locale ← get config "locale";
  formats ← get config "formats";
  messages ← get config "messages";
  defaultLocale ← get config "defaultLocale";
  defaultFormats ← get config "defaultFormats";
  id ← get messageDescriptor "id";
  defaultMessage ← get messageDescriptor "defaultMessage";
  invariant id "[React Intl] An `id` must be provided to format a message.";;
  message ← (if truthy messages then key ← ToString id; get messages key
             else ret messages);
  names ← keys values;
  let hasValues := bool_decide (0 < List.length names) in
  if negb hasValues && production then
    ret (js_or (js_or message defaultMessage) id)
  else
    formattedMessage ←
      (if truthy message then
         try_catch
           (mf ← host_call GetMessageFormat [message; locale; formats]
                   (λ h, getMessageFormat state h message locale formats);
            host_call Format [values] (λ h, mf h [values]))
           (λ e,
              (if negb production then
                 msg ← template
                   [Lit "[React Intl] Error formatting message: ";
                    Lit dq; Sub id; Lit dq; Lit " for locale: ";
                    Lit dq; Sub locale; Lit dq;
                    Lit (using_default defaultMessage);
                    Lit nl; Lit (exn_toString e)];
                 console_error msg
               else ret tt);;
              ret VUndefined)
       else
         (if negb production then
            missing ← (if negb (truthy defaultMessage) then ret true
                       else if truthy locale then
                         l ← toLowerCase locale;
                         d ← toLowerCase defaultLocale;
                         ret (negb (String.eqb l d))
                       else ret false);
            if (missing : bool) then
              msg ← template
                [Lit "[React Intl] Missing message: ";
                 Lit dq; Sub id; Lit dq; Lit " for locale: ";
                 Lit dq; Sub locale; Lit dq;
                 Lit (using_default defaultMessage)];
              console_error msg
            else ret tt
          else ret tt);;
         ret VUndefined);
    formattedMessage ←
      (if negb (truthy formattedMessage) && truthy defaultMessage then
         try_catch
           (mf ← host_call GetMessageFormat
                   [defaultMessage; defaultLocale; defaultFormats]
                   (λ h, getMessageFormat state h
                           defaultMessage defaultLocale defaultFormats);
            host_call Format [values] (λ h, mf h [values]))
           (λ e,
              (if negb production then
                 msg ← template
                   [Lit "[React Intl] Error formatting the default message for: ";
                    Lit dq; Sub id; Lit dq; Lit nl; Lit (exn_toString e)];
                 console_error msg
               else ret tt);;
              ret formattedMessage)
       else ret formattedMessage);
    (if negb (truthy formattedMessage) then
       if negb production then
         msg ← template
           [Lit "[React Intl] Cannot format message: ";
            Lit dq; Sub id; Lit dq; Lit ", using message ";
            Lit (if truthy (js_or message defaultMessage) then "source"
                 else "id");
            Lit " as fallback."];
         console_error msg
       else ret tt
     else ret tt);;
    ret (js_or (js_or (js_or formattedMessage message) defaultMessage) id).

Definition formatHTMLMessage (config : val) (state : State)
    (messageDescriptor rawValues : val) : M val :=
  rawValues ← default_param rawValues;
  names ← keys rawValues;
  init ← alloc (plain ∅);
  escapedValues ←
    reduce (λ (escaped : val) (name : string),
        value ← get rawValues name;
        set escaped name (match value with
                          | VStr s => VStr (escape s)
                          | _ => value
                          end);;
        ret escaped)
      names init;
  formatMessage config state messageDescriptor escapedValues.

End Format.

(** * What the properties are stated with *)

(** ** Reading the store *)

(** The own properties of a value, and the value of [v[k]] where [v] is
    neither [undefined] nor [null]. *)
Definition own (h : heap) (v : val) : gmap string val :=
  match v with
  | VRef l => props (object_at h l)
  | _ => ∅
  end.

Definition read (h : heap) (v : val) (k : string) : val :=
  default VUndefined (own h v !! k).

Definition nullish (v : val) : bool :=
  match v with
  | VUndefined | VNull => true
  | _ => false
  end.

(** A reference points into the store. *)
Definition allocated (h : heap) (v : val) : Prop :=
  match v with
  | VRef l => l < List.length h
  | _ => True
  end.

(** An argument that is an object of the store, or is omitted. *)
Definition object_or_omitted (h : heap) (v : val) : Prop :=
  match v with
  | VUndefined => True
  | VRef l => l < List.length h
  | _ => False
  end.

Definition is_string (v : val) : Prop :=
  match v with
  | VStr _ => True
  | _ => False
  end.

Definition string_or_undefined (v : val) : Prop :=
  match v with
  | VStr _ | VUndefined => True
  | _ => False
  end.

(** Every reference held by an object of the store points into the store. *)
Definition closed (h : heap) : Prop :=
  Forall (λ o, map_Forall (λ _ v, allocated h v) (props o)) h.

#[global] Instance allocated_dec h v : Decision (allocated h v).
Proof. destruct v; cbn; apply _. Defined.

#[global] Instance closed_dec h : Decision (closed h).
Proof. unfold closed. apply _. Defined.

(** ** Default parameters *)

(** The object that a parameter with the default [= {}] adds to the store,
    and the value the parameter then has. *)
Definition default_pad (v : val) : list object :=
  match v with
  | VUndefined => [plain ∅]
  | _ => []
  end.

Definition defaulted (h : heap) (v : val) : val :=
  match v with
  | VUndefined => VRef (List.length h)
  | _ => v
  end.

(** ** Options and named formats *)

(** The merge of [options] over [defaults], filtered by the whitelist. *)
Definition filtered_merge (whitelist : list string)
    (options defaults : gmap string val) : gmap string val :=
  filter (λ kv, kv.1 ∈ whitelist) (options ∪ defaults).

(** One turn of the loop of [filterFormatOptions], on the properties. *)
Definition merge_step (options defaults acc : gmap string val)
    (name : string) : gmap string val :=
  match options !! name with
  | Some v => <[name := v]> acc
  | None =>
      match defaults !! name with
      | Some v => <[name := v]> acc
      | None => acc
      end
  end.

(** The option object [forwarded] holds the whitelisted keys of [options]
    and [defaults], with the value of [options] where both have the key. *)
Definition forwards (whitelist : list string)
    (options defaults forwarded : gmap string val) : Prop :=
  ∀ k,
    (is_Some (forwarded !! k) ↔
       k ∈ whitelist ∧ (is_Some (options !! k) ∨ is_Some (defaults !! k)))
    ∧ (∀ v, forwarded !! k = Some v →
         options !! k = Some v
         ∨ (options !! k = None ∧ defaults !! k = Some v)).

(** The format that [formats] holds under a type and a name, if any. *)
Definition named_format `{Host} (h : heap) (formats : val) (type : string)
    (name : val) : val :=
  let of_type := read h formats type in
  let found :=
    js_and (js_and formats of_type) (read h of_type (to_string h name)) in
  if truthy found then found else VUndefined.

(** The defaults of a call whose options name the format [format]. *)
Definition defaults_of `{Host} (h : heap) (formats : val) (type : string)
    (format : val) : val :=
  if truthy format then named_format h formats type format else format.

(** What looking a named format up writes to the console. *)
Definition named_format_log `{Host} (production : bool) (h : heap)
    (formats : val) (type : string) (name : val) : list event :=
  if truthy (named_format h formats type name) then []
  else if production then []
  else [ConsoleError (render h [Lit "[React Intl] No "; Lit type;
                                Lit " format named: "; Sub name])].

Definition defaults_log `{Host} (production : bool) (h : heap)
    (formats : val) (type : string) (format : val) : list event :=
  if truthy format then named_format_log production h formats type format
  else [].

(** ** Delegation *)

Definition formatter_result (r : string + val) : exn + val :=
  match r with
  | inl e => inl (HostError e)
  | inr v => inr v
  end.

(** What a formatter obtained from a constructor answers, or the error of
    the first of the two that throws. *)
Definition delegate (constructed : string + formatter) (h : heap)
    (args : list val) : exn + val :=
  match constructed with
  | inl e => inl (HostError e)
  | inr f => formatter_result (f h args)
  end.

(** The outcome of a call that delegates to the formatter constructor
    [construct]: what the formatter constructed for the locale and a fresh
    object [merged] answers for an argument that satisfies [argument]. *)
Definition delegates (construct : heap → val → val → string + formatter)
    (h : heap) (locale : val) (merged : object)
    (argument : heap → val → Prop) (outcome : exn + val) : Prop :=
  ∃ h' filtered arg,
    h `prefix_of` h' ∧ (List.length h ≤ filtered)%nat
    ∧ h' !! filtered = Some merged
    ∧ argument h' arg
    ∧ outcome = delegate (construct h' locale (VRef filtered)) h' [arg].

(** The argument is the Date that [new Date(value)] makes. *)
Definition date_of `{Host} (h : heap) (value : val) (h' : heap) (arg : val)
    : Prop :=
  ∃ date, arg = VRef date ∧ h' !! date = Some (date_object (time_of h value)).

(** What the formatter constructor [getter] is given by the call [run]: the
    locale, and an object that forwards the whitelisted options. *)
Definition constructed_with (getter : method) (whitelist : list string)
    (locale : val) (options defaults : gmap string val)
    (run : (exn + val) * world) : Prop :=
  ∃ filtered forwarded,
    Call getter [locale; VRef filtered] ∈ trace (snd run)
    ∧ objects (snd run) !! filtered = Some (plain forwarded)
    ∧ forwards whitelist options defaults forwarded.

(** ** The reference time of a relative time *)

(** [isFinite(now) ? now : state.now()], for the time value [t] of [now]. *)
Definition reference_time (state : State) (h : heap) (now_date : val)
    (t : time) : string + val :=
  match t with
  | Some _ => inr now_date
  | None => now state h
  end.

(** How a call of [formatRelative] passes its reference time [t], the time
    value of [new Date(options.now)]. *)
Definition passes_reference (state : State) (h : heap) (locale : val)
    (value_time t : time) (before : world) (run : (exn + val) * world)
    : Prop :=
  ∃ h2 filtered date now_date,
    h `prefix_of` h2
    ∧ h2 !! date = Some (date_object value_time)
    ∧ h2 !! now_date = Some (date_object t)
    ∧ match getRelativeFormat state h2 locale (VRef filtered) with
      | inl e => fst run = inl (HostError e)
      | inr rf =>
          match t with
          | Some _ =>
              fst run
              = formatter_result
                  (rf (h2 ++ [plain {["now" := VRef now_date]}])
                     [VRef date; VRef (List.length h2)])
              ∧ ∃ events, trace (snd run) = trace before ++ events
                          ∧ Call Now [] ∉ events
          | None =>
              match now state h2 with
              | inl e => fst run = inl (HostError e)
              | inr reference =>
                  fst run
                  = formatter_result
                      (rf (h2 ++ [plain {["now" := reference]}])
                         [VRef date; VRef (List.length h2)])
              end
          end
      end.

(** ** Messages *)

(** The store and the values of a call of [formatMessage], once the
    parameters omitted have their default. *)
Definition message_heap (h : heap) (descriptor values : val) : heap :=
  (h ++ default_pad descriptor) ++ default_pad values.

Definition message_values (h : heap) (descriptor values : val) : val :=
  defaulted (h ++ default_pad descriptor) values.

(** [messages && messages[id]] *)
Definition catalog_message `{Host} (h : heap) (config id : val) : val :=
  let messages := read h config "messages" in
  js_and messages (read h messages (to_string h id)).

(** The message formatted, or [undefined] where constructing the formatter
    or formatting throws. *)
Definition attempt (state : State) (h : heap)
    (source locale formats values : val) : val :=
  match delegate (getMessageFormat state h source locale formats) h [values]
  with
  | inr v => v
  | inl _ => VUndefined
  end.

(** A production build and no values: nothing is formatted. *)
Definition fast_path (production : bool) (h : heap) (values : val) : bool :=
  production && bool_decide (own h values = ∅).

(** The first candidate that is truthy, and [last] when none is. *)
Fixpoint first_truthy (candidates : list val) (last : val) : val :=
  match candidates with
  | [] => last
  | v :: rest => if truthy v then v else first_truthy rest last
  end.

(** The first candidate that is not [undefined], and [last] when none is. *)
Fixpoint first_defined (candidates : list val) (last : val) : val :=
  match candidates with
  | [] => last
  | VUndefined :: rest => first_defined rest last
  | v :: _ => v
  end.

(** The candidates of the fallback chain of [formatMessage], before the id:
    the catalog message formatted, the default message formatted, the
    catalog message, the default message. *)
Definition message_candidates `{Host} (production : bool) (state : State)
    (h : heap) (config descriptor values : val) : list val :=
  let id := read h descriptor "id" in
  let defaultMessage := read h descriptor "defaultMessage" in
  let message := catalog_message h config id in
  let hm := message_heap h descriptor values in
  let vs := message_values h descriptor values in
  let formatted_message :=
    if fast_path production h values then VUndefined
    else if truthy message then
      attempt state hm message (read h config "locale")
        (read h config "formats") vs
    else VUndefined in
  let formatted_default :=
    if fast_path production h values then VUndefined
    else if truthy defaultMessage then
      attempt state hm defaultMessage (read h config "defaultLocale")
        (read h config "defaultFormats") vs
    else VUndefined in
  [formatted_message; formatted_default; message; defaultMessage].

(** The fallback chain of [formatMessage]. *)
Definition message_fallback `{Host} (production : bool) (state : State)
    (h : heap) (config descriptor values : val) : val :=
  first_truthy (message_candidates production state h config descriptor values)
    (read h descriptor "id").

(** What the handlers of the two [try] blocks do: they log, or not. *)
Definition logs (log : M unit) : Prop :=
  ∀ w, ∃ w', log w = (inr tt, w') ∧ objects w' = objects w.

Definition is_console_error (e : event) : Prop :=
  match e with
  | ConsoleError _ => True
  | Call _ _ => False
  end.

(** The escaping of one value of [rawValues], and one turn of the loop of
    [formatHTMLMessage], on the properties. *)
Definition escape_value `{Host} (v : val) : val :=
  match v with
  | VStr s => VStr (escape s)
  | _ => v
  end.

Definition escape_step `{Host} (h : heap) (rawValues : val)
    (acc : gmap string val) (name : string) : gmap string val :=
  <[name := escape_value (read h rawValues name)]> acc.

(** ** The exports of the module *)

(** An export: its name, the formatter constructor of [state] that is its
    own, and the function. *)
Record export := Export {
  export_name : string;
  constructor : method;
  export_run : bool → val → State → val → val → M val
}.

Definition exports `{Host} : list export := [
  Export "formatDate" GetDateTimeFormat formatDate;
  Export "formatTime" GetDateTimeFormat formatTime;
  Export "formatRelative" GetRelativeFormat formatRelative;
  Export "formatNumber" GetNumberFormat formatNumber;
  Export "formatPlural" GetPluralFormat (λ _, formatPlural);
  Export "formatMessage" GetMessageFormat formatMessage;
  Export "formatHTMLMessage" GetMessageFormat formatHTMLMessage
].

(** The events of a function that only logs and calls the formatter
    constructor [c], the formatter, and [state.now] for a relative time. *)
Definition from_formatter (c : method) (e : event) : Prop :=
  match e with
  | ConsoleError _ => True
  | Call m _ => m = c ∨ m = Format ∨ (m = Now ∧ c = GetRelativeFormat)
  end.

(** A call obtains its formatter from [state] and delegates to it: it calls
    the constructor [getter] of [state], at a store [h'] that extends the
    store before the call, with the locale and an object [filtered] that it
    has allocated. Where the constructor throws, the call throws that error.
    Where it returns a formatter, the call calls the formatter and returns
    what the formatter answers or throws; a relative time asks [state.now]
    first, and throws what that throws. *)
Definition obtains_formatter
    (construct : heap → val → val → string + formatter) (getter : method)
    (clock : heap → string + val) (locale : val) (before : world)
    (run : (exn + val) * world) : Prop :=
  ∃ h' filtered events,
    trace (snd run) = trace before ++ events
    ∧ objects before `prefix_of` h'
    ∧ h' `prefix_of` objects (snd run)
    ∧ (List.length (objects before) ≤ filtered < List.length h')%nat
    ∧ Call getter [locale; VRef filtered] ∈ events
    ∧ match construct h' locale (VRef filtered) with
      | inl e => fst run = inl (HostError e)
      | inr f =>
          (∃ args, Call Format args ∈ events
                   ∧ fst run = formatter_result (f (objects (snd run)) args))
          ∨ (getter = GetRelativeFormat
             ∧ ∃ e, clock h' = inl e ∧ fst run = inl (HostError e))
      end.

(** ** Disciplines *)

(** A discipline that a computation may keep at every step: an invariant of
    the world, a relation between the worlds before and after, the references
    that may be written, and the events that may be emitted. *)
Record Discipline := {
  inv : world → Prop;
  rel : world → world → Prop;
  writable : val → Prop;
  allowed : event → Prop
}.

Class Sound (D : Discipline) : Prop := {
  rel_refl : ∀ w, rel D w w;
  rel_trans : ∀ w1 w2 w3, rel D w1 w2 → rel D w2 w3 → rel D w1 w3;
  alloc_ok : ∀ w o, inv D w →
    let w' := {| objects := objects w ++ [o]; trace := trace w |} in
    inv D w' ∧ rel D w w' ∧ writable D (VRef (List.length (objects w)));
  store_ok : ∀ w l o, inv D w → writable D (VRef l) →
    let w' := {| objects := <[l := o]> (objects w); trace := trace w |} in
    inv D w' ∧ rel D w w';
  emit_ok : ∀ w e, inv D w → allowed D e →
    let w' := {| objects := objects w; trace := trace w ++ [e] |} in
    inv D w' ∧ rel D w w'
}.

(** Nothing allocated before the call changes: the first [n] objects stay,
    and only objects allocated since are written. *)
Definition frame_discipline (n : nat) : Discipline := {|
  inv w := (n ≤ List.length (objects w))%nat;
  rel w w' := take n (objects w') = take n (objects w);
  writable v := ∃ l, v = VRef l ∧ (n ≤ l)%nat;
  allowed _ := True
|}.

(** Only events in [P] are added to the trace. *)
Definition trace_discipline (P : event → Prop) : Discipline := {|
  inv _ := True;
  rel w w' := ∃ events, trace w' = trace w ++ events ∧ Forall P events;
  writable _ := True;
  allowed := P
|}.

(** [m] keeps the discipline, throws only exceptions in [E] and returns only
    values in [Q]. *)
Definition keeps {A} (D : Discipline) (E : exn → Prop) (m : M A)
    (Q : A → Prop) : Prop :=
  ∀ w, inv D w →
    inv D (snd (m w)) ∧ rel D w (snd (m w)) ∧
    match fst (m w) with
    | inr a => Q a
    | inl e => E e
    end.

(** ** Arguments and log lines

    An argument that is an object of the store. *)
Definition is_object (h : heap) (v : val) : Prop :=
  match v with
  | VRef l => l < List.length h
  | _ => False
  end.

(** The line that [getNamedFormat] logs for a format it does not find. *)
Definition no_format_parts (type : string) (name : val) : list part :=
  [Lit "[React Intl] No "; Lit type; Lit " format named: "; Sub name].

(** ** What [formatMessage] logs *)

(** The lines of [formatMessage], as the source has them. *)
Definition error_parts (id locale defaultMessage : val) (e : exn)
    : list part :=
  [Lit "[React Intl] Error formatting message: ";
   Lit dq; Sub id; Lit dq; Lit " for locale: ";
   Lit dq; Sub locale; Lit dq;
   Lit (using_default defaultMessage);
   Lit nl; Lit (exn_toString e)].

Definition default_error_parts (id : val) (e : exn) : list part :=
  [Lit "[React Intl] Error formatting the default message for: ";
   Lit dq; Sub id; Lit dq; Lit nl; Lit (exn_toString e)].

Definition missing_parts (id locale defaultMessage : val) : list part :=
  [Lit "[React Intl] Missing message: ";
   Lit dq; Sub id; Lit dq; Lit " for locale: ";
   Lit dq; Sub locale; Lit dq;
   Lit (using_default defaultMessage)].

Definition cannot_parts (id message defaultMessage : val) : list part :=
  [Lit "[React Intl] Cannot format message: ";
   Lit dq; Sub id; Lit dq; Lit ", using message ";
   Lit (if truthy (js_or message defaultMessage) then "source" else "id");
   Lit " as fallback."].

(** What a build that is not a production build logs. *)
Definition console_log `{Host} (production : bool) (h : heap)
    (parts : list part) : list event :=
  if production then [] else [ConsoleError (render h parts)].

(** The events of one attempt at formatting [source]: the call of the
    constructor, the call of the formatter it returned, and the line logged
    where one of the two throws. *)
Definition attempt_log `{Host} (production : bool) (state : State) (h : heap)
    (source locale formats values : val) (parts : exn → list part)
    : list event :=
  Call GetMessageFormat [source; locale; formats]
  :: match getMessageFormat state h source locale formats with
     | inl e => console_log production h (parts (HostError e))
     | inr mf =>
         Call Format [values]
         :: match mf h [values] with
            | inl e => console_log production h (parts (HostError e))
            | inr _ => []
            end
     end.

(** [s.toLowerCase()], for the values on which the comparison is made. *)
Definition lower `{Host} (v : val) : string :=
  match v with
  | VStr s => String_toLowerCase s
  | _ => ""
  end.

(** The line logged for a message that the catalog does not have: none
    where there is a default message and the locale is the default one. *)
Definition missing_log `{Host} (production : bool) (h : heap)
    (id locale defaultLocale defaultMessage : val) : list event :=
  if negb (truthy defaultMessage)
     || truthy locale && negb (String.eqb (lower locale) (lower defaultLocale))
  then console_log production h (missing_parts id locale defaultMessage)
  else [].

(** The locale and the default locale are compared, in a build that is not
    a production build, where the catalog has no message, there is a default
    message and the locale is truthy; the comparison asks that both be
    strings. *)
Definition comparable (production : bool)
    (message defaultMessage locale defaultLocale : val) : Prop :=
  production = false → truthy message = false →
  truthy defaultMessage = true → truthy locale = true →
  is_string locale ∧ is_string defaultLocale.

(** The events of a call of [formatMessage] that is past the invariant. *)
Definition message_log `{Host} (production : bool) (state : State)
    (h : heap) (config descriptor values : val) : list event :=
  let id := read h descriptor "id" in
  let defaultMessage := read h descriptor "defaultMessage" in
  let message := catalog_message h config id in
  let locale := read h config "locale" in
  let defaultLocale := read h config "defaultLocale" in
  let hm := message_heap h descriptor values in
  let vs := message_values h descriptor values in
  if fast_path production h values then []
  else
    let first :=
      if truthy message then
        attempt state hm message locale (read h config "formats") vs
      else VUndefined in
    let second :=
      if negb (truthy first) && truthy defaultMessage then
        match delegate (getMessageFormat state hm defaultMessage
                          defaultLocale (read h config "defaultFormats"))
                hm [vs] with
        | inr v => v
        | inl _ => first
        end
      else first in
    (if truthy message then
       attempt_log production state hm message locale
         (read h config "formats") vs (error_parts id locale defaultMessage)
     else missing_log production hm id locale defaultLocale defaultMessage)
    ++ (if negb (truthy first) && truthy defaultMessage then
          attempt_log production state hm defaultMessage defaultLocale
            (read h config "defaultFormats") vs (default_error_parts id)
        else [])
    ++ (if truthy second then []
        else console_log production hm
               (cannot_parts id message defaultMessage)).

(** ** Calls that go on without a named format *)

(** What a call that finds no named format does: it logs [log], then calls
    the constructor [getter] with the locale and a fresh object holding the
    whitelisted keys of the options alone, and logs nothing after that. *)
Definition goes_on_alone (getter : method) (whitelist : list string)
    (locale : val) (options : gmap string val) (log : list event)
    (before : world) (run : (exn + val) * world) : Prop :=
  ∃ filtered rest,
    trace (snd run)
    = trace before ++ log ++ Call getter [locale; VRef filtered] :: rest
    ∧ Forall (λ e, ¬ is_console_error e) rest
    ∧ objects (snd run) !! filtered
      = Some (plain (filter (λ kv, kv.1 ∈ whitelist) options)).

(** The line logged for a format name, where one is given. *)
Definition no_format_log `{Host} (production : bool) (h : heap)
    (type : string) (format : val) : list event :=
  if truthy format then console_log production h (no_format_parts type format)
  else [].


(** ** An example host, state and store *)

Definition escape_char (c : ascii) : string :=
  if Ascii.eqb c "&"%char then "&amp;"
  else if Ascii.eqb c "<"%char then "&lt;"
  else if Ascii.eqb c ">"%char then "&gt;"
  else String c "".

Fixpoint escape_html (s : string) : string :=
  match s with
  | EmptyString => ""
  | String c rest => escape_char c +:+ escape_html rest
  end.

(** The whitelists are those of the library's prop types; the conversions
    are stand-ins, which no example depends on. *)
Definition example_host : Host := {|
  DATE_TIME_FORMAT_OPTIONS :=
    ["localeMatcher"; "formatMatcher"; "timeZone"; "hour12"; "weekday";
     "era"; "year"; "month"; "day"; "hour"; "minute"; "second";
     "timeZoneName"];
  NUMBER_FORMAT_OPTIONS :=
    ["localeMatcher"; "style"; "currency"; "currencyDisplay"; "useGrouping";
     "minimumIntegerDigits"; "minimumFractionDigits";
     "maximumFractionDigits"; "minimumSignificantDigits";
     "maximumSignificantDigits"];
  RELATIVE_FORMAT_OPTIONS := ["style"; "units"];
  PLURAL_FORMAT_OPTIONS := ["style"];
  escape := escape_html;
  Number_toString := λ _, "0";
  String_toNumber := λ _, S754_nan;
  Date_toString := λ _, "Invalid Date";
  Date_parse := λ _, None;
  String_toLowerCase := λ s, s
|}.

(** A number formatter that answers with the [style] it was constructed
    with, and a message formatter that answers with the source of its
    message. *)
Definition style_formatter (options : val) : formatter :=
  λ h _, inr (read h options "style").

Definition source_formatter (source : val) : formatter :=
  λ _ _, inr source.

Definition example_state : State := {|
  getDateTimeFormat := λ _ _ _, inr (λ _ _, inr (VStr "1/2/2015"));
  getRelativeFormat := λ _ _ _, inr (λ _ _, inr (VStr "1 hour ago"));
  getNumberFormat := λ _ _ options, inr (style_formatter options);
  getPluralFormat := λ _ _ _, inr (λ _ _, inr (VStr "other"));
  getMessageFormat := λ _ source _ _, inr (source_formatter source);
  now := λ _, inr (VNum (S754_finite false 1420070400000 0))
|}.

(** A state none of whose constructors can build a formatter. *)
Definition failing_state : State := {|
  getDateTimeFormat := λ _ _ _, inl "RangeError";
  getRelativeFormat := λ _ _ _, inl "RangeError";
  getNumberFormat := λ _ _ _, inl "RangeError";
  getPluralFormat := λ _ _ _, inl "RangeError";
  getMessageFormat := λ _ _ _ _, inl "SyntaxError";
  now := λ _, inl "Error"
|}.

Definition example_objects : list object := [
  (* 0: config *)
  plain {["locale" := VStr "en-US"; "defaultLocale" := VStr "en";
          "messages" := VRef 1; "formats" := VRef 2;
          "defaultFormats" := VRef 2]};
  (* 1: config.messages *)
  plain {["greeting" := VStr "Hello, {name}!"]};
  (* 2: config.formats, and 3 to 5: its tables of named formats *)
  plain {["number" := VRef 3; "date" := VRef 4; "time" := VRef 4;
          "relative" := VRef 5]};
  plain {["percent" := VRef 6]};
  plain {["short" := VRef 7]};
  plain {["brief" := VRef 8]};
  (* 6: formats.number.percent *)
  plain {["style" := VStr "percent"; "useGrouping" := VBool false;
          "comment" := VStr "not an option"]};
  (* 7: formats.date.short and formats.time.short *)
  plain {["year" := VStr "numeric"; "month" := VStr "short"]};
  (* 8: formats.relative.brief *)
  plain {["units" := VStr "hour"]};
  (* 9: options of a number *)
  plain {["format" := VStr "percent"; "style" := VStr "decimal"]};
  (* 10: options of a date *)
  plain {["format" := VStr "short"; "year" := VStr "2-digit"]};
  (* 11: options of a relative time *)
  plain {["format" := VStr "brief";
          "now" := VNum (S754_finite false 1000 0)]};
  (* 12: a message descriptor *)
  plain {["id" := VStr "greeting"; "defaultMessage" := VStr "Hello!"]};
  (* 13: values *)
  plain {["name" := VStr "<b>Ann</b>"; "count" := VBool true]};
  (* 14: a descriptor with no catalog entry and an empty default message *)
  plain {["id" := VStr "app.title"; "defaultMessage" := VStr ""]};
  (* 15: a descriptor without id *)
  plain {["defaultMessage" := VStr "Hello!"]};
  (* 16: options whose format is null *)
  plain {["format" := VNull]}
].

Definition example_world : world :=
  {| objects := example_objects; trace := [] |}.

(** ** More examples *)

(** A state whose message formatter answers with the empty string. *)
Definition blank_state : State := {|
  getDateTimeFormat := getDateTimeFormat example_state;
  getRelativeFormat := getRelativeFormat example_state;
  getNumberFormat := getNumberFormat example_state;
  getPluralFormat := getPluralFormat example_state;
  getMessageFormat := λ _ _ _ _, inr (λ _ _, inr (VStr ""));
  now := now example_state
|}.

Definition more_objects : list object := example_objects ++ [
  (* 17: a descriptor with a default message and no catalog entry *)
  plain {["id" := VStr "app.title"; "defaultMessage" := VStr "Title"]};
  (* 18: a descriptor with neither *)
  plain {["id" := VStr "app.title"]};
  (* 19: a config without messages and without default locale *)
  plain {["locale" := VStr "en"]};
  (* 20: options that name a format that the config does not have *)
  plain {["format" := VStr "long"; "style" := VStr "decimal"]};
  (* 21: a descriptor with a catalog entry and no default message *)
  plain {["id" := VStr "greeting"]};
  (* 22: options of a plural *)
  plain {["style" := VStr "ordinal"; "format" := VStr "percent"]}
].

Definition more_world : world := {| objects := more_objects; trace := [] |}.

(** * Proofs

    ** Running the operations of the language *)

Ltac prefix_solve :=
  first [reflexivity | apply prefix_app_r; prefix_solve].

Section Operations.
Context `{Host}.

Lemma run_bind {A B} (m : M A) (k : A → M B) w :
  (m ≫= k) w = match m w with
               | (inr a, w') => k a w'
               | (inl e, w') => (inl e, w')
               end.
Proof. reflexivity. Qed.

Lemma get_run v k w :
  nullish v = false → get v k w = (inr (read (objects w) v k), w).
Proof. destruct v; try discriminate; reflexivity. Qed.

Lemma hasOwnProperty_run v k w :
  nullish v = false →
  hasOwnProperty v k w = (inr (bool_decide (is_Some (own (objects w) v !! k))), w).
Proof. destruct v; try discriminate; try reflexivity.
Qed.

Lemma object_at_ext (h h' : heap) l :
  h `prefix_of` h' → l < List.length h → object_at h' l = object_at h l.
Proof. intros [ext ->] ?. unfold object_at. by rewrite lookup_app_l. Qed.

Lemma own_ext (h h' : heap) v :
  h `prefix_of` h' → allocated h v → own h' v = own h v.
Proof. destruct v; simpl; try done. intros. by rewrite (object_at_ext h h'). Qed.

Lemma own_app (h : heap) ext v : allocated h v → own (h ++ ext) v = own h v.
Proof. apply own_ext. by apply prefix_app_r. Qed.

Lemma object_at_fresh (h : heap) o : object_at (h ++ [o]) (List.length h) = o.
Proof. unfold object_at. by rewrite list_lookup_middle. Qed.

Lemma insert_fresh (h : heap) o o' : <[List.length h := o']> (h ++ [o]) = h ++ [o'].
Proof.
  rewrite insert_app_r_alt by lia. by rewrite Nat.sub_diag.
Qed.

Lemma set_fresh (h : heap) acc tr k x :
  set (VRef (List.length h)) k x {| objects := h ++ [plain acc]; trace := tr |}
  = (inr tt, {| objects := h ++ [plain (<[k := x]> acc)]; trace := tr |}).
Proof.
  unfold set. rewrite run_bind. cbn. rewrite object_at_fresh.
  unfold store. cbn. by rewrite insert_fresh.
Qed.

Lemma read_ext (h h' : heap) v k :
  h `prefix_of` h' → allocated h v → read h' v k = read h v k.
Proof. intros. unfold read. by rewrite (own_ext h h'). Qed.

Lemma read_app (h : heap) ext v k : allocated h v → read (h ++ ext) v k = read h v k.
Proof. intros. unfold read. by rewrite own_app. Qed.

Lemma filter_loop whitelist obj defaults (h : heap) tr : ∀ acc,
  allocated h obj → allocated h defaults →
  nullish obj = false → nullish defaults = false →
  reduce (λ (opts : val) (name : string),
      own ← hasOwnProperty obj name;
      if (own : bool) then
        v ← get obj name; set opts name v;; ret opts
      else
        own' ← hasOwnProperty defaults name;
        if (own' : bool) then
          v ← get defaults name; set opts name v;; ret opts
        else ret opts)
    whitelist (VRef (List.length h))
    {| objects := h ++ [plain acc]; trace := tr |}
  = (inr (VRef (List.length h)),
     {| objects :=
          h ++ [plain (fold_left (merge_step (own h obj) (own h defaults))
                         whitelist acc)];
        trace := tr |}).
Proof.
  induction whitelist as [|name wl IH]; intros acc Ho Hd No Nd; [done|].
  cbn [reduce fold_left].
  rewrite run_bind, run_bind, hasOwnProperty_run by done. cbn [objects].
  rewrite (own_app _ _ _ Ho). unfold merge_step at 2.
  destruct (own h obj !! name) as [v|] eqn:E.
  - rewrite bool_decide_eq_true_2 by eauto.
    rewrite run_bind, get_run by done. cbn [objects].
    rewrite run_bind, set_fresh, read_app by done.
    unfold read. rewrite E. cbn [default]. by apply IH.
  - rewrite bool_decide_eq_false_2 by (by intros [? ?]).
    rewrite run_bind, hasOwnProperty_run by done. cbn [objects].
    rewrite (own_app _ _ _ Hd).
    destruct (own h defaults !! name) as [v|] eqn:E'.
    + rewrite bool_decide_eq_true_2 by eauto.
      rewrite run_bind, get_run by done. cbn [objects].
      rewrite run_bind, set_fresh, read_app by done.
      unfold read. rewrite E'. cbn [default]. by apply IH.
    + rewrite bool_decide_eq_false_2 by (by intros [? ?]).
      by apply IH.
Qed.

Lemma fold_merge_lookup po pd whitelist k : ∀ acc,
  fold_left (merge_step po pd) whitelist acc !! k
  = if decide (k ∈ whitelist)
    then match (po ∪ pd) !! k with Some v => Some v | None => acc !! k end
    else acc !! k.
Proof.
  induction whitelist as [|name wl IH]; intros acc; cbn [fold_left].
  - rewrite decide_False; [done | apply not_elem_of_nil].
  - rewrite IH. unfold merge_step.
    destruct (decide (k ∈ wl)) as [Hin|Hin].
    + rewrite decide_True by (by right). 
      destruct ((po ∪ pd) !! k) eqn:E; [done|].
      apply lookup_union_None in E as [E1 E2].
      destruct (po !! name) eqn:F1; [|destruct (pd !! name) eqn:F2]; try done;
        rewrite lookup_insert_ne; try done; congruence.
    + destruct (decide (k = name)) as [->|Hne].
      * rewrite decide_True by (by left).
        rewrite lookup_union.
        destruct (po !! name) eqn:F1; [by rewrite lookup_insert_eq; destruct (pd !! name)|].
        destruct (pd !! name) eqn:F2; [by rewrite lookup_insert_eq|].
        done.
      * rewrite decide_False by (by intros [->|?]%elem_of_cons).
        destruct (po !! name) eqn:F1; [|destruct (pd !! name) eqn:F2]; try done;
        by rewrite lookup_insert_ne.
Qed.

Lemma filtered_merge_lookup whitelist (po pd : gmap string val) k :
  filtered_merge whitelist po pd !! k
  = if decide (k ∈ whitelist) then (po ∪ pd) !! k else None.
Proof.
  unfold filtered_merge.
  destruct ((po ∪ pd) !! k) as [v|] eqn:E.
  - destruct (decide (k ∈ whitelist)).
    + by apply map_lookup_filter_Some.
    + apply map_lookup_filter_None. right. intros x ?. by simpl.
  - replace (if decide (k ∈ whitelist) then None else None) with (@None val) by (by case_decide).
    apply map_lookup_filter_None. by left.
Qed.

Lemma fold_merge whitelist po pd :
  fold_left (merge_step po pd) whitelist ∅ = filtered_merge whitelist po pd.
Proof.
  apply map_eq; intros k.
  rewrite fold_merge_lookup, filtered_merge_lookup, lookup_empty.
  case_decide; [|done]. by destruct ((po ∪ pd) !! k).
Qed.

Lemma default_param_run v w :
  default_param v w
  = (inr (defaulted (objects w) v),
     {| objects := objects w ++ default_pad v; trace := trace w |}).
Proof.
  destruct w as [h tr]; destruct v; cbn; by rewrite ?app_nil_r.
Qed.

Lemma own_defaulted (h : heap) v :
  allocated h v → own (h ++ default_pad v) (defaulted h v) = own h v.
Proof.
  destruct v; cbn; rewrite ?app_nil_r; try done.
  by rewrite object_at_fresh.
Qed.

Lemma allocated_app (h : heap) ext v : allocated h v → allocated (h ++ ext) v.
Proof. destruct v; cbn; try done. rewrite length_app. lia. Qed.

Lemma allocated_defaulted (h : heap) v :
  allocated h v → allocated (h ++ default_pad v) (defaulted h v).
Proof. destruct v; cbn; rewrite ?length_app; cbn; try done; lia. Qed.

Lemma nullish_defaulted (h : heap) v : v ≠ VNull → nullish (defaulted h v) = false.
Proof. by destruct v. Qed.

Lemma ToString_run v w : ToString v w = (inr (to_string (objects w) v), w).
Proof. reflexivity. Qed.

Lemma template_run parts w :
  template parts w = (inr (render (objects w) parts), w).
Proof. reflexivity. Qed.

Lemma host_call_run {A} m args (f : heap → string + A) w :
  host_call m args f w
  = (match f (objects w) with inl e => inl (HostError e) | inr a => inr a end,
     {| objects := objects w; trace := trace w ++ [Call m args] |}).
Proof.
  unfold host_call. rewrite run_bind. cbn. rewrite run_bind. cbn.
  by destruct (f (objects w)).
Qed.

Section NamedFormat.
Variable production : bool.

Lemma getNamedFormat_run formats type name w :
  getNamedFormat production formats type name w
  = (inr (named_format (objects w) formats type name),
     {| objects := objects w;
        trace := trace w ++ named_format_log production (objects w) formats type name |}).
Proof.
  destruct w as [h tr]. unfold getNamedFormat, named_format_log, named_format.
  rewrite run_bind. unfold js_and. cbn [objects trace].
  destruct (truthy formats) eqn:Tf.
  - assert (nullish formats = false) as Nf by (by destruct formats).
    rewrite run_bind, get_run by done. cbn [objects].
    destruct (truthy (read h formats type)) eqn:Tt.
    + assert (nullish (read h formats type) = false) as Nt
        by (by destruct (read h formats type)).
      rewrite run_bind, get_run by done.
      rewrite run_bind, ToString_run, get_run by done. cbn [objects].
      destruct (truthy (read h (read h formats type) (to_string h name))) eqn:Tn;
        rewrite ?Tn; cbn.
      * by rewrite app_nil_r.
      * destruct production; cbn; rewrite ?app_nil_r; reflexivity.
    + cbn. rewrite ?Tt. cbn. rewrite ?Tt.
      destruct production; cbn; rewrite ?app_nil_r; reflexivity.
  - cbn. rewrite ?Tf. cbn. rewrite ?Tf.
    destruct production; cbn; rewrite ?app_nil_r; reflexivity.
Qed.
End NamedFormat.
End Operations.

(** ** Running [filterFormatOptions] *)

Section Filtering.
Context `{Host}.
Variable production : bool.

Lemma closed_read (h : heap) v k : closed h → allocated h v → allocated h (read h v k).
Proof.
  intros Hc Hv. unfold read, own. destruct v as [| | | | |l]; try (rewrite lookup_empty; exact I).
  cbn in Hv. apply lookup_lt_is_Some in Hv as [o Ho].
  unfold object_at. rewrite Ho. cbn.
  destruct (props o !! k) as [x|] eqn:E; [|exact I].
  unfold closed in Hc. rewrite Forall_lookup in Hc.
  by apply (Hc _ _ Ho k x).
Qed.

Lemma filterFormatOptions_run whitelist obj defaults w :
  allocated (objects w) obj → allocated (objects w) defaults →
  nullish obj = false → defaults ≠ VNull →
  filterFormatOptions whitelist obj defaults w
  = (inr (VRef (List.length (objects w ++ default_pad defaults))),
     {| objects :=
          (objects w ++ default_pad defaults)
          ++ [plain (filtered_merge whitelist (own (objects w) obj)
                       (own (objects w) defaults))];
        trace := trace w |}).
Proof.
  destruct w as [h tr]. cbn [objects trace]. intros Ho Hd No Nd.
  unfold filterFormatOptions.
  rewrite run_bind, default_param_run. cbn [objects trace].
  rewrite run_bind. cbn [alloc objects trace].
  rewrite filter_loop;
    auto using allocated_app, allocated_defaulted, nullish_defaulted.
  by rewrite own_app, own_defaulted, fold_merge.
Qed.
End Filtering.

(** ** Running the functions that delegate to a formatter *)

Section Delegation.
Context `{Host}.
Variable production : bool.

Lemma to_string_ext (h h' : heap) v :
  h `prefix_of` h' → allocated h v → to_string h' v = to_string h v.
Proof. destruct v; cbn; try done. intros. by rewrite (object_at_ext h h'). Qed.

Lemma time_of_ext (h h' : heap) v :
  h `prefix_of` h' → allocated h v → time_of h' v = time_of h v.
Proof. destruct v; cbn; try done. intros. by rewrite (object_at_ext h h'). Qed.

Lemma named_format_ext (h h' : heap) formats type name :
  h `prefix_of` h' → closed h → allocated h formats → allocated h name →
  named_format h' formats type name = named_format h formats type name.
Proof.
  intros Hp Hc Hf Hn. unfold named_format.
  rewrite (read_ext h h' formats), (to_string_ext h h' name) by done.
  by rewrite (read_ext h h') by (done || by apply closed_read).
Qed.

Lemma defaults_of_ext (h h' : heap) formats type format :
  h `prefix_of` h' → closed h → allocated h formats → allocated h format →
  defaults_of h' formats type format = defaults_of h formats type format.
Proof. intros. unfold defaults_of. by rewrite (named_format_ext h h'). Qed.

Lemma defaults_log_ext (h h' : heap) formats type format :
  h `prefix_of` h' → closed h → allocated h formats → allocated h format →
  defaults_log production h' formats type format
  = defaults_log production h formats type format.
Proof.
  intros. unfold defaults_log, named_format_log.
  rewrite (named_format_ext h h') by done. cbn [render].
  by rewrite (to_string_ext h h').
Qed.

Lemma named_format_allocated (h : heap) formats type name :
  closed h → allocated h formats → allocated h (named_format h formats type name).
Proof.
  intros Hc Hf. unfold named_format, js_and.
  assert (allocated h (read h formats type)) by by apply closed_read.
  assert (allocated h (read h (read h formats type) (to_string h name)))
    by by apply closed_read.
  repeat case_match; done.
Qed.

Lemma defaults_of_allocated (h : heap) formats type format :
  closed h → allocated h formats → allocated h format →
  allocated h (defaults_of h formats type format).
Proof.
  intros. unfold defaults_of. case_match; [|done].
  by apply named_format_allocated.
Qed.

Lemma defaults_of_null (h : heap) formats type format :
  format ≠ VNull → defaults_of h formats type format ≠ VNull.
Proof.
  unfold defaults_of, named_format. intros Hn.
  destruct (truthy format); [|done].
  case_match eqn:E; [|done]. intros Heq. by rewrite Heq in E.
Qed.

Lemma closed_app (h : heap) ext :
  closed h → Forall (λ o, props o = ∅) ext → closed (h ++ ext).
Proof.
  unfold closed. intros Hc He. apply Forall_app. split.
  - eapply Forall_impl; [exact Hc|]. intros o Ho k v Hk.
    apply allocated_app. by apply (Ho k v).
  - eapply Forall_impl; [exact He|]. intros o Ho k v Hk.
    rewrite Ho in Hk. by rewrite lookup_empty in Hk.
Qed.

Lemma defaults_run formats type format w :
  (if truthy format then getNamedFormat production formats type format
   else ret format) w
  = (inr (defaults_of (objects w) formats type format),
     {| objects := objects w;
        trace := trace w
                 ++ defaults_log production (objects w) formats type format |}).
Proof.
  unfold defaults_of, defaults_log. destruct (truthy format).
  - apply getNamedFormat_run.
  - destruct w. cbn. by rewrite app_nil_r.
Qed.

Lemma read_defaulted (h : heap) v k :
  allocated h v → read (h ++ default_pad v) (defaulted h v) k = read h v k.
Proof. intros. unfold read. by rewrite own_defaulted. Qed.

Lemma closed_pad (h : heap) v : closed h → closed (h ++ default_pad v).
Proof.
  intros. apply closed_app; [done|]. destruct v; repeat constructor.
Qed.

Lemma named_options_run {A} type whitelist formats format options
    (k : val → M A) w :
  let h := objects w in
  let defaults := defaults_of h formats type format in
  closed h → allocated h formats → allocated h format →
  allocated h options → nullish options = false → format ≠ VNull →
  ((if truthy format then getNamedFormat production formats type format
    else ret format)
   ≫= λ defaults, filterFormatOptions whitelist options defaults ≫= k) w
  = k (VRef (List.length (h ++ default_pad defaults)))
      {| objects :=
           (h ++ default_pad defaults)
           ++ [plain (filtered_merge whitelist (own h options)
                        (own h defaults))];
         trace := trace w ++ defaults_log production h formats type format |}.
Proof.
  destruct w as [h tr]. cbn [objects trace]. intros Hc Hf Hfmt Ho No Nf.
  rewrite run_bind, defaults_run. cbn [objects trace].
  rewrite run_bind, filterFormatOptions_run;
    auto using defaults_of_allocated, defaults_of_null.
Qed.

Lemma formatNumber_run config state value options w :
  let h := objects w in
  let locale := read h config "locale" in
  let defaults :=
    defaults_of h (read h config "formats") "number"
      (read h options "format") in
  let h1 := (h ++ default_pad options) ++ default_pad defaults in
  let h' := h1 ++ [plain (filtered_merge NUMBER_FORMAT_OPTIONS
                            (own h options) (own h defaults))] in
  let constructed := getNumberFormat state h' locale (VRef (List.length h1)) in
  closed h → allocated h config → nullish config = false →
  object_or_omitted h options → read h options "format" ≠ VNull →
  formatNumber production config state value options w
  = (delegate constructed h' [value],
     {| objects := h';
        trace := trace w
                 ++ defaults_log production h (read h config "formats")
                      "number" (read h options "format")
                 ++ Call GetNumberFormat [locale; VRef (List.length h1)]
                    :: match constructed with
                       | inr _ => [Call Format [value]]
                       | inl _ => []
                       end |}).
Proof.
  destruct w as [h tr]. cbn [objects trace]. intros Hc Hcfg Ncfg Hopt Hfmt.
  assert (allocated h options ∧ options ≠ VNull) as [Ho No]
    by (by destruct options).
  unfold formatNumber.
  rewrite run_bind, default_param_run. cbn [objects trace].
  rewrite run_bind, get_run by done.
  rewrite run_bind, get_run by done.
  rewrite run_bind, get_run by (by apply nullish_defaulted).
  cbn [objects trace].
  rewrite !(read_app _ _ config) by done. rewrite read_defaulted by done.
  rewrite named_options_run; cbn [objects trace];
    auto using closed_pad, allocated_app, allocated_defaulted, nullish_defaulted,
      closed_read.
  rewrite own_defaulted by done.
  rewrite (defaults_of_ext h (_ ++ _)), (defaults_log_ext h (_ ++ _))
    by (prefix_solve || auto using closed_read).
  rewrite (own_ext h (_ ++ _) (defaults_of _ _ _ _))
    by (prefix_solve || auto using defaults_of_allocated, closed_read).
  rewrite run_bind, host_call_run. cbn [objects trace].
  unfold delegate.
  destruct (getNumberFormat _ _ _ _) as [e|nf]; [by rewrite <- !app_assoc|].
  rewrite host_call_run. cbn [objects trace].
  by rewrite <- !app_assoc.
Qed.

Lemma Date_new_run v w :
  Date_new v w
  = (inr (VRef (List.length (objects w))),
     {| objects := objects w ++ [date_object (time_of (objects w) v)];
        trace := trace w |}).
Proof. reflexivity. Qed.

Lemma closed_date (h : heap) t : closed h → closed (h ++ [date_object t]).
Proof. intros. apply closed_app; [done|]. repeat constructor. Qed.

Lemma formatPlural_run config state value options w :
  let h := objects w in
  let locale := read h config "locale" in
  let h1 := (h ++ default_pad options) ++ [plain ∅] in
  let h' := h1 ++ [plain (filtered_merge PLURAL_FORMAT_OPTIONS
                            (own h options) ∅)] in
  let constructed := getPluralFormat state h' locale (VRef (List.length h1)) in
  allocated h config → nullish config = false →
  object_or_omitted h options →
  formatPlural config state value options w
  = (delegate constructed h' [value],
     {| objects := h';
        trace := trace w
                 ++ Call GetPluralFormat [locale; VRef (List.length h1)]
                    :: match constructed with
                       | inr _ => [Call Format [value]]
                       | inl _ => []
                       end |}).
Proof.
  destruct w as [h tr]. cbn [objects trace]. intros Hcfg Ncfg Hopt.
  assert (allocated h options ∧ options ≠ VNull) as [Ho No]
    by (by destruct options).
  unfold formatPlural.
  rewrite run_bind, default_param_run. cbn [objects trace].
  rewrite run_bind, get_run by done.
  rewrite run_bind, filterFormatOptions_run; cbn [objects trace];
    auto using allocated_defaulted, nullish_defaulted; try done.
  rewrite (read_app _ _ config) by done. rewrite own_defaulted by done.
  change (own (h ++ default_pad options) VUndefined) with (∅ : gmap string val).
  change (default_pad VUndefined) with [plain ∅].
  rewrite run_bind, host_call_run. cbn [objects trace].
  unfold delegate.
  destruct (getPluralFormat _ _ _ _) as [e|pf]; [done|].
  rewrite host_call_run. cbn [objects trace].
  by rewrite <- !app_assoc.
Qed.

Lemma formatDate_run config state value options w :
  let h := objects w in
  let locale := read h config "locale" in
  let defaults :=
    defaults_of h (read h config "formats") "date"
      (read h options "format") in
  let h0 := h ++ default_pad options in
  let h1 := (h0 ++ [date_object (time_of h value)]) ++ default_pad defaults in
  let h' := h1 ++ [plain (filtered_merge DATE_TIME_FORMAT_OPTIONS
                            (own h options) (own h defaults))] in
  let date := VRef (List.length h0) in
  let constructed :=
    getDateTimeFormat state h' locale (VRef (List.length h1)) in
  closed h → allocated h config → nullish config = false →
  allocated h value →
  object_or_omitted h options → read h options "format" ≠ VNull →
  formatDate production config state value options w
  = (delegate constructed h' [date],
     {| objects := h';
        trace := trace w
                 ++ defaults_log production h (read h config "formats")
                      "date" (read h options "format")
                 ++ Call GetDateTimeFormat [locale; VRef (List.length h1)]
                    :: match constructed with
                       | inr _ => [Call Format [date]]
                       | inl _ => []
                       end |}).
Proof.
  destruct w as [h tr]. cbn [objects trace]. intros Hc Hcfg Ncfg Hv Hopt Hfmt.
  assert (allocated h options ∧ options ≠ VNull) as [Ho No]
    by (by destruct options).
  unfold formatDate.
  rewrite run_bind, default_param_run. cbn [objects trace].
  rewrite run_bind, get_run by done.
  rewrite run_bind, get_run by done.
  rewrite run_bind, get_run by (by apply nullish_defaulted).
  rewrite run_bind, Date_new_run.
  cbn [objects trace].
  rewrite !(read_app _ _ config) by done. rewrite read_defaulted by done.
  rewrite (time_of_ext h (_ ++ _) value) by (prefix_solve || done).
  rewrite named_options_run; cbn [objects trace];
    auto using closed_pad, closed_date, allocated_app, allocated_defaulted,
      nullish_defaulted, closed_read.
  rewrite (own_app (h ++ default_pad options)) by by apply allocated_defaulted.
  rewrite own_defaulted by done.
  rewrite (defaults_of_ext h (_ ++ _)), (defaults_log_ext h (_ ++ _))
    by (prefix_solve || auto using closed_read).
  rewrite (own_ext h (_ ++ _) (defaults_of _ _ _ _))
    by (prefix_solve || auto using defaults_of_allocated, closed_read).
  rewrite run_bind, host_call_run. cbn [objects trace].
  unfold delegate.
  destruct (getDateTimeFormat _ _ _ _) as [e|nf]; [by rewrite <- !app_assoc|].
  rewrite host_call_run. cbn [objects trace].
  by rewrite <- !app_assoc.
Qed.

Lemma formatTime_run config state value options w :
  let h := objects w in
  let locale := read h config "locale" in
  let defaults :=
    defaults_of h (read h config "formats") "time"
      (read h options "format") in
  let h0 := h ++ default_pad options in
  let h1 := (h0 ++ [date_object (time_of h value)]) ++ default_pad defaults in
  let h' := h1 ++ [plain (filtered_merge DATE_TIME_FORMAT_OPTIONS
                            (own h options) (own h defaults))] in
  let date := VRef (List.length h0) in
  let constructed :=
    getDateTimeFormat state h' locale (VRef (List.length h1)) in
  closed h → allocated h config → nullish config = false →
  allocated h value →
  object_or_omitted h options → read h options "format" ≠ VNull →
  formatTime production config state value options w
  = (delegate constructed h' [date],
     {| objects := h';
        trace := trace w
                 ++ defaults_log production h (read h config "formats")
                      "time" (read h options "format")
                 ++ Call GetDateTimeFormat [locale; VRef (List.length h1)]
                    :: match constructed with
                       | inr _ => [Call Format [date]]
                       | inl _ => []
                       end |}).
Proof.
  destruct w as [h tr]. cbn [objects trace]. intros Hc Hcfg Ncfg Hv Hopt Hfmt.
  assert (allocated h options ∧ options ≠ VNull) as [Ho No]
    by (by destruct options).
  unfold formatTime.
  rewrite run_bind, default_param_run. cbn [objects trace].
  rewrite run_bind, get_run by done.
  rewrite run_bind, get_run by done.
  rewrite run_bind, get_run by (by apply nullish_defaulted).
  rewrite run_bind, Date_new_run.
  cbn [objects trace].
  rewrite !(read_app _ _ config) by done. rewrite read_defaulted by done.
  rewrite (time_of_ext h (_ ++ _) value) by (prefix_solve || done).
  rewrite named_options_run; cbn [objects trace];
    auto using closed_pad, closed_date, allocated_app, allocated_defaulted,
      nullish_defaulted, closed_read.
  rewrite (own_app (h ++ default_pad options)) by by apply allocated_defaulted.
  rewrite own_defaulted by done.
  rewrite (defaults_of_ext h (_ ++ _)), (defaults_log_ext h (_ ++ _))
    by (prefix_solve || auto using closed_read).
  rewrite (own_ext h (_ ++ _) (defaults_of _ _ _ _))
    by (prefix_solve || auto using defaults_of_allocated, closed_read).
  rewrite run_bind, host_call_run. cbn [objects trace].
  unfold delegate.
  destruct (getDateTimeFormat _ _ _ _) as [e|nf]; [by rewrite <- !app_assoc|].
  rewrite host_call_run. cbn [objects trace].
  by rewrite <- !app_assoc.
Qed.

Lemma isFinite_date (h : heap) ext t w :
  objects w = (h ++ [date_object t]) ++ ext →
  isFinite (VRef (List.length h)) w = (inr (bool_decide (is_Some t)), w).
Proof.
  intros Hw. unfold isFinite. rewrite run_bind. cbn. rewrite Hw.
  rewrite (object_at_ext (h ++ [date_object t]))
    by (prefix_solve || (rewrite length_app; cbn; lia)).
  rewrite object_at_fresh. cbn.
  by destruct t as [[| |]|].
Qed.

Lemma formatRelative_run config state value options w :
  let h := objects w in
  let locale := read h config "locale" in
  let defaults :=
    defaults_of h (read h config "formats") "relative"
      (read h options "format") in
  let t := time_of h (read h options "now") in
  let h0 := h ++ default_pad options in
  let hd := h0 ++ [date_object (time_of h value)] in
  let h1 := (hd ++ [date_object t]) ++ default_pad defaults in
  let h2 := h1 ++ [plain (filtered_merge RELATIVE_FORMAT_OPTIONS
                            (own h options) (own h defaults))] in
  let date := VRef (List.length h0) in
  let now_date := VRef (List.length hd) in
  let arg := VRef (List.length h2) in
  let get_event := Call GetRelativeFormat [locale; VRef (List.length h1)] in
  let log := defaults_log production h (read h config "formats")
               "relative" (read h options "format") in
  closed h → allocated h config → nullish config = false →
  allocated h value →
  object_or_omitted h options → read h options "format" ≠ VNull →
  formatRelative production config state value options w
  = match getRelativeFormat state h2 locale (VRef (List.length h1)) with
    | inl e =>
        (inl (HostError e),
         {| objects := h2; trace := trace w ++ log ++ [get_event] |})
    | inr rf =>
        let now_events := if t is Some _ then [] else [Call Now []] in
        match reference_time state h2 now_date t with
        | inl e =>
            (inl (HostError e),
             {| objects := h2;
                trace := trace w ++ log ++ get_event :: now_events |})
        | inr reference =>
            let h' := h2 ++ [plain {["now" := reference]}] in
            (match rf h' [date; arg] with
             | inl e => inl (HostError e)
             | inr v => inr v
             end,
             {| objects := h';
                trace := trace w ++ log ++ get_event :: now_events
                         ++ [Call Format [date; arg]] |})
        end
    end.
Proof.
  destruct w as [h tr]. cbn [objects trace]. intros Hc Hcfg Ncfg Hv Hopt Hfmt.
  assert (allocated h options ∧ options ≠ VNull) as [Ho No]
    by (by destruct options).
  unfold formatRelative.
  rewrite run_bind, default_param_run. cbn [objects trace].
  rewrite run_bind, get_run by done.
  rewrite run_bind, get_run by done.
  rewrite run_bind, get_run by (by apply nullish_defaulted).
  rewrite run_bind, Date_new_run. cbn [objects trace].
  rewrite run_bind, get_run by (by apply nullish_defaulted).
  rewrite run_bind, Date_new_run. cbn [objects trace].
  rewrite !(read_app _ _ config) by done.
  rewrite (read_app (h ++ default_pad options)) by by apply allocated_defaulted.
  rewrite !read_defaulted by done.
  rewrite (time_of_ext h (_ ++ _) value) by (prefix_solve || done).
  rewrite (time_of_ext h (_ ++ _) (read h options _))
    by (prefix_solve || by apply closed_read).
  rewrite named_options_run; cbn [objects trace];
    auto using closed_pad, closed_date, allocated_app, allocated_defaulted,
      nullish_defaulted, closed_read.
  rewrite (own_ext (h ++ default_pad options) (_ ++ _))
    by (prefix_solve || by apply allocated_defaulted).
  rewrite own_defaulted by done.
  rewrite (defaults_of_ext h (_ ++ _)), (defaults_log_ext h (_ ++ _))
    by (prefix_solve || auto using closed_read).
  rewrite (own_ext h (_ ++ _) (defaults_of _ _ _ _))
    by (prefix_solve || auto using defaults_of_allocated, closed_read).
  rewrite run_bind, host_call_run. cbn [objects trace].
  destruct (getRelativeFormat _ _ _ _) as [e|rf]; [by rewrite <- !app_assoc|].
  rewrite run_bind.
  erewrite isFinite_date
    by (cbn [objects]; rewrite <- (app_assoc _ (default_pad _)); reflexivity).
  rewrite run_bind. unfold reference_time.
  destruct (time_of h (read h options "now")) as [z|] eqn:Et.
  - rewrite bool_decide_eq_true_2 by eauto. cbn [ret mret M_ret].
    rewrite run_bind. cbn [alloc objects trace].
    rewrite host_call_run. cbn [objects trace].
    by rewrite <- !app_assoc.
  - rewrite bool_decide_eq_false_2 by (by intros [? ?]).
    rewrite host_call_run. cbn [objects trace].
    destruct (now state _) as [e|reference]; [by rewrite <- !app_assoc|].
    rewrite run_bind. cbn [alloc objects trace].
    rewrite host_call_run. cbn [objects trace].
    by rewrite <- !app_assoc.
Qed.
End Delegation.


(** ** The rules of a discipline *)

Section Keeps.
Context `{Host}.
Context {D : Discipline} `{!Sound D}.

Lemma keeps_ret {A} E (a : A) (Q : A → Prop) : Q a → keeps D E (mret a) Q.
Proof. intros Ha w Hw. cbn. auto using rel_refl. Qed.

Lemma keeps_throw {A} (E : exn → Prop) e (Q : A → Prop) :
  E e → keeps D E (throw e) Q.
Proof. intros He w Hw. cbn. auto using rel_refl. Qed.

Lemma keeps_bind {A B} E (m : M A) (k : A → M B) Q Q' :
  keeps D E m Q → (∀ a, Q a → keeps D E (k a) Q') → keeps D E (m ≫= k) Q'.
Proof.
  intros Hm Hk w Hw. destruct (Hm w Hw) as (Hi & Hr & Hq).
  unfold mbind, M_bind. destruct (m w) as [[e|a] w1]; cbn in *; [done|].
  destruct (Hk a Hq w1 Hi) as (Hi' & Hr' & Hq').
  eauto using rel_trans.
Qed.

Lemma keeps_try {A} E (m : M A) (h : exn → M A) Q :
  keeps D (λ _, True) m Q → (∀ e, keeps D E (h e) Q) →
  keeps D E (try_catch m h) Q.
Proof.
  intros Hm Hh w Hw. destruct (Hm w Hw) as (Hi & Hr & Hq).
  unfold try_catch. destruct (m w) as [[e|a] w1]; cbn in *; [|done].
  destruct (Hh e w1 Hi) as (Hi' & Hr' & Hq').
  eauto using rel_trans.
Qed.

Lemma keeps_weaken {A} (E E' : exn → Prop) (m : M A) (Q Q' : A → Prop) :
  keeps D E m Q → (∀ e, E e → E' e) → (∀ a, Q a → Q' a) → keeps D E' m Q'.
Proof.
  intros Hm HE HQ w Hw. destruct (Hm w Hw) as (Hi & Hr & Hq).
  repeat split; try done. destruct (fst (m w)); auto.
Qed.

Lemma keeps_reduce {A B} E (f : A → B → M A) (l : list B) (Q : A → Prop) :
  (∀ a x, Q a → keeps D E (f a x) Q) →
  ∀ a, Q a → keeps D E (reduce f l a) Q.
Proof.
  intros Hf. induction l as [|x l IH]; intros a Ha; cbn [reduce].
  - by apply keeps_ret.
  - eapply keeps_bind; [by apply Hf|]. intros a' Ha'. by apply IH.
Qed.

(** The operations that only read the store. *)
Lemma keeps_reader {A} (E : exn → Prop) (m : M A) :
  (∀ w, snd (m w) = w) →
  (∀ w e, fst (m w) = inl e → E e) →
  keeps D E m (λ _, True).
Proof.
  intros Hs He w Hw. rewrite Hs. repeat split; auto using rel_refl.
  destruct (fst (m w)) eqn:Ef; eauto.
Qed.

Ltac reader_solve :=
  apply keeps_reader; intros w;
  [ repeat case_match; reflexivity
  | intros e; repeat case_match; cbn; intros Heq;
    try discriminate Heq; try (injection Heq as <-); assumption ].

Lemma keeps_get E v k : E TypeError → keeps D E (get v k) (λ _, True).
Proof.
  intros. unfold get, hasOwnProperty, keys, toLowerCase. reader_solve.
Qed.

Lemma keeps_hasOwnProperty E v k :
  E TypeError → keeps D E (hasOwnProperty v k) (λ _, True).
Proof.
  intros. unfold get, hasOwnProperty, keys, toLowerCase. reader_solve.
Qed.

Lemma keeps_keys E v : E TypeError → keeps D E (keys v) (λ _, True).
Proof.
  intros. unfold get, hasOwnProperty, keys, toLowerCase. reader_solve.
Qed.

Lemma keeps_toLowerCase E v :
  E TypeError → keeps D E (toLowerCase v) (λ _, True).
Proof.
  intros. unfold get, hasOwnProperty, keys, toLowerCase. reader_solve.
Qed.

Lemma keeps_ToString E v : keeps D E (ToString v) (λ _, True).
Proof. reader_solve. Qed.

Lemma keeps_template E parts : keeps D E (template parts) (λ _, True).
Proof. reader_solve. Qed.

Lemma keeps_isFinite E v : keeps D E (isFinite v) (λ _, True).
Proof. reader_solve. Qed.

Lemma keeps_invariant E c msg :
  E (InvariantViolation msg) → keeps D E (invariant c msg) (λ _, True).
Proof.
  intros. unfold invariant. reader_solve.
Qed.

Lemma keeps_alloc E o : keeps D E (alloc o) (writable D).
Proof. intros w Hw. cbn. by apply alloc_ok. Qed.

Lemma keeps_default_param E v :
  keeps D E (default_param v) (λ v', v' = v ∨ writable D v').
Proof.
  destruct v; cbn [default_param];
    try (apply keeps_ret; by left).
  eapply keeps_weaken; [apply keeps_alloc|done|by right].
Qed.

Lemma keeps_Date_new E v : keeps D E (Date_new v) (λ _, True).
Proof.
  intros w Hw. cbn. destruct (alloc_ok w (date_object (time_of (objects w) v)) Hw)
    as (? & ? & ?). done.
Qed.

Lemma keeps_set E v k x :
  E TypeError → writable D v → keeps D E (set v k x) (λ _, True).
Proof.
  intros He Hv w Hw. destruct v; cbn; auto using rel_refl.
  edestruct (store_ok w l) as (Hi & Hr); eauto.
  repeat split; [exact Hi | exact Hr].
Qed.

Lemma keeps_emit E e : allowed D e → keeps D E (emit e) (λ _, True).
Proof. intros He w Hw. cbn. edestruct (emit_ok w e) as (? & ?); eauto. Qed.

Lemma keeps_console_error E msg :
  allowed D (ConsoleError msg) → keeps D E (console_error msg) (λ _, True).
Proof. apply keeps_emit. Qed.

Lemma keeps_host_call {A} (E : exn → Prop) m args (f : heap → string + A) :
  allowed D (Call m args) → (∀ e, E (HostError e)) →
  keeps D E (host_call m args f) (λ _, True).
Proof.
  intros Ha He w Hw. rewrite host_call_run. cbn.
  edestruct (emit_ok w (Call m args)) as (? & ?); eauto.
  repeat split; try done. destruct (f (objects w)); auto.
Qed.
End Keeps.

Ltac keeps_leaf :=
  first
  [ apply keeps_ret
  | apply keeps_throw
  | apply keeps_get
  | apply keeps_hasOwnProperty
  | apply keeps_keys
  | apply keeps_toLowerCase
  | apply keeps_ToString
  | apply keeps_template
  | apply keeps_isFinite
  | apply keeps_invariant
  | apply keeps_Date_new
  | apply keeps_set
  | apply keeps_console_error
  | apply keeps_host_call ].

Ltac keeps_step :=
  lazymatch goal with
  | |- keeps _ _ (alloc _ ≫= _) _ =>
      eapply keeps_bind; [apply keeps_alloc | intros ? ?]
  | |- keeps _ _ (default_param _ ≫= _) _ =>
      eapply keeps_bind; [apply keeps_default_param | intros ? ?]
  | |- keeps _ _ (try_catch _ _ ≫= _) _ =>
      eapply keeps_bind with (Q := λ _, True);
      [apply keeps_try; [|intros ?] | intros ? _]
  | |- keeps _ _ (_ ≫= _) _ =>
      eapply keeps_bind with (Q := λ _, True); [|intros ? _]
  | |- keeps _ _ (try_catch _ _) _ => apply keeps_try; [|intros ?]
  | |- keeps _ _ (if ?b then _ else _) _ => destruct b
  | |- keeps _ _ (match ?v with _ => _ end) _ => destruct v
  | |- keeps _ _ _ _ => keeps_leaf
  end.

Ltac keeps_auto :=
  repeat (keeps_step; cbn beta);
  cbn [allowed writable trace_discipline frame_discipline]; auto.

(** ** The functions of the module keep a discipline *)

Section KeepsFunctions.
Context `{Host}.
Context {D : Discipline} `{!Sound D}.
Variable production : bool.
Variable E : exn → Prop.
Hypothesis type_error : E TypeError.
Hypothesis console_ok :
  production = false → ∀ msg, allowed D (ConsoleError msg).

Lemma keeps_filterFormatOptions whitelist obj defaults :
  keeps D E (filterFormatOptions whitelist obj defaults) (writable D).
Proof.
  unfold filterFormatOptions.
  eapply keeps_bind with (Q := λ _, True); [|intros defaults' _].
  { eapply keeps_weaken; [apply keeps_default_param|done..]. }
  eapply keeps_bind; [apply keeps_alloc|intros init Hinit].
  apply keeps_reduce; [|done].
  intros opts name Hopts. keeps_auto.
Qed.

Lemma keeps_getNamedFormat formats type name :
  keeps D E (getNamedFormat production formats type name) (λ _, True).
Proof.
  unfold getNamedFormat. destruct production; cbn [negb]; keeps_auto.
Qed.

Lemma keeps_formatMessage config state messageDescriptor values :
  (∀ msg, E (InvariantViolation msg)) →
  (∀ args, allowed D (Call GetMessageFormat args)) →
  (∀ args, allowed D (Call Format args)) →
  keeps D E (formatMessage production config state messageDescriptor values)
    (λ _, True).
Proof.
  intros. unfold formatMessage.
  destruct production; cbn [negb andb]; keeps_auto.
Qed.

Section Delegating.
Hypothesis host_error : ∀ e, E (HostError e).
Hypothesis format_ok : ∀ args, allowed D (Call Format args).

Ltac keeps_delegating :=
  repeat (first [ eapply keeps_bind with (Q := writable D);
                    [by apply keeps_filterFormatOptions|intros ? ?]
                | apply keeps_getNamedFormat
                | keeps_step ]; cbn beta); auto.

Lemma keeps_formatDate config state value options :
  (∀ args, allowed D (Call GetDateTimeFormat args)) →
  keeps D E (formatDate production config state value options) (λ _, True).
Proof. intros. unfold formatDate. keeps_delegating. Qed.

Lemma keeps_formatTime config state value options :
  (∀ args, allowed D (Call GetDateTimeFormat args)) →
  keeps D E (formatTime production config state value options) (λ _, True).
Proof. intros. unfold formatTime. keeps_delegating. Qed.

Lemma keeps_formatRelative config state value options :
  (∀ args, allowed D (Call GetRelativeFormat args)) →
  allowed D (Call Now []) →
  keeps D E (formatRelative production config state value options)
    (λ _, True).
Proof. intros. unfold formatRelative. keeps_delegating. Qed.

Lemma keeps_formatNumber config state value options :
  (∀ args, allowed D (Call GetNumberFormat args)) →
  keeps D E (formatNumber production config state value options) (λ _, True).
Proof. intros. unfold formatNumber. keeps_delegating. Qed.

Lemma keeps_formatPlural config state value options :
  (∀ args, allowed D (Call GetPluralFormat args)) →
  keeps D E (formatPlural config state value options) (λ _, True).
Proof. intros. unfold formatPlural. keeps_delegating. Qed.
End Delegating.

Lemma keeps_formatHTMLMessage config state messageDescriptor rawValues :
  (∀ msg, E (InvariantViolation msg)) →
  (∀ args, allowed D (Call GetMessageFormat args)) →
  (∀ args, allowed D (Call Format args)) →
  keeps D E
    (formatHTMLMessage production config state messageDescriptor rawValues)
    (λ _, True).
Proof.
  intros. unfold formatHTMLMessage.
  eapply keeps_bind with (Q := λ _, True); [|intros rawValues' _].
  { eapply keeps_weaken; [apply keeps_default_param|done..]. }
  eapply keeps_bind with (Q := λ _, True);
    [by apply keeps_keys|intros names _].
  eapply keeps_bind; [apply keeps_alloc|intros init Hinit].
  eapply keeps_bind with (Q := writable D).
  - apply keeps_reduce; [|done]. intros escaped name Hescaped. keeps_auto.
  - intros escaped _. by apply keeps_formatMessage.
Qed.
End KeepsFunctions.

#[global] Instance frame_sound n : Sound (frame_discipline n).
Proof.
  split; cbn.
  - done.
  - intros ??? H1 H2. by rewrite H2.
  - intros w o Hn. rewrite length_app. cbn. split; [lia|].
    split; [by rewrite take_app_le|by eexists].
  - intros w l o Hn (l' & [= <-] & Hl). rewrite length_insert. split; [done|].
    rewrite take_insert. case_decide; [lia|done].
  - done.
Qed.

#[global] Instance trace_sound P : Sound (trace_discipline P).
Proof.
  split; cbn; try done.
  - intros w. exists []. by rewrite app_nil_r.
  - intros w1 w2 w3 (e1 & -> & H1) (e2 & -> & H2).
    exists (e1 ++ e2). rewrite app_assoc. split; [done|by apply Forall_app].
  - intros w o _. repeat split; try done. exists []. by rewrite app_nil_r.
  - intros w l o _ _. repeat split; try done. exists []. by rewrite app_nil_r.
  - intros w e _ He. split; [done|]. exists [e]. by repeat constructor.
Qed.


(** ** Running [formatMessage] *)

Section Message.
Context `{Host}.

Lemma object_at_pad (h : heap) v l :
  object_at (h ++ default_pad v) l = object_at h l.
Proof.
  destruct v; cbn; rewrite ?app_nil_r; try done.
  unfold object_at. destruct (decide (l < List.length h)).
  - by rewrite lookup_app_l.
  - rewrite (lookup_ge_None_2 h) by lia.
    destruct (decide (l = List.length h)) as [->|].
    + by rewrite list_lookup_middle.
    + rewrite lookup_ge_None_2; [done|]. rewrite length_app. cbn. lia.
Qed.

Lemma own_pad (h : heap) v x : own (h ++ default_pad v) x = own h x.
Proof. destruct x; cbn; try done. by rewrite object_at_pad. Qed.

Lemma read_pad (h : heap) v x k : read (h ++ default_pad v) x k = read h x k.
Proof. unfold read. by rewrite own_pad. Qed.

Lemma to_string_pad (h : heap) v x :
  to_string (h ++ default_pad v) x = to_string h x.
Proof. destruct x; cbn; try done. by rewrite object_at_pad. Qed.

Lemma own_self_defaulted (h : heap) v : own h (defaulted h v) = own h v.
Proof.
  destruct v; cbn; try done. unfold object_at.
  by rewrite lookup_ge_None_2 by lia.
Qed.

Lemma read_self_defaulted (h : heap) v k : read h (defaulted h v) k = read h v k.
Proof. unfold read. by rewrite own_self_defaulted. Qed.

Lemma keys_run v w :
  nullish v = false →
  keys v w = (inr (map fst (map_to_list (own (objects w) v))), w).
Proof.
  destruct v; try discriminate; reflexivity.
Qed.

Lemma has_values (m : gmap string val) :
  negb (bool_decide (0 < List.length (map fst (map_to_list m))))
  = bool_decide (m = ∅).
Proof.
  rewrite length_map. destruct (decide (m = ∅)) as [->|Hne].
  - by rewrite map_to_list_empty.
  - rewrite (bool_decide_eq_false_2 (m = ∅)) by done.
    rewrite bool_decide_eq_true_2; [done|].
    destruct (map_to_list m) eqn:E; [|cbn; lia].
    by apply map_to_list_empty_iff in E.
Qed.

Section Fallback.
Variable production : bool.
Variable state : State.

Lemma logs_console parts :
  logs (if negb production then msg ← template parts; console_error msg
        else ret tt).
Proof.
  intros w. destruct production; cbn [negb]; [by eexists|].
  rewrite run_bind, template_run. by eexists.
Qed.

Lemma try_format_run source locale formats values (log : exn → M unit)
    fallback w :
  (∀ e, logs (log e)) →
  ∃ w',
    try_catch
      (mf ← host_call GetMessageFormat [source; locale; formats]
              (λ h, getMessageFormat state h source locale formats);
       host_call Format [values] (λ h, mf h [values]))
      (λ e, log e;; ret fallback) w
    = (inr match delegate (getMessageFormat state (objects w) source locale
                             formats) (objects w) [values] with
           | inr v => v
           | inl _ => fallback
           end, w')
    ∧ objects w' = objects w.
Proof.
  intros Hlog. unfold try_catch. rewrite run_bind, host_call_run.
  unfold delegate.
  destruct (getMessageFormat state (objects w) source locale formats)
    as [e|mf].
  - destruct (Hlog (HostError e)
                {| objects := objects w;
                   trace := trace w ++ [Call GetMessageFormat
                                          [source; locale; formats]] |})
      as (w' & Hrun & Hobj).
    rewrite run_bind, Hrun. by eexists.
  - rewrite host_call_run. cbn [objects trace].
    destruct (mf (objects w) [values]) as [e|v]; [|by eexists].
    rewrite run_bind.
    match goal with |- context [log _ ?w0] =>
      destruct (Hlog (HostError e) w0) as (w' & Hrun & Hobj) end.
    rewrite Hrun. by eexists.
Qed.

Lemma invariant_run c msg w :
  truthy c = true → invariant c msg w = (inr tt, w).
Proof. intros Hc. unfold invariant. by rewrite Hc. Qed.

Lemma catalog_message_run messages id w :
  (if truthy messages then key ← ToString id; get messages key
   else ret messages) w
  = (inr (js_and messages
            (read (objects w) messages (to_string (objects w) id))), w).
Proof.
  unfold js_and. destruct (truthy messages) eqn:Tm; [|done].
  rewrite run_bind, ToString_run, get_run; [done|by destruct messages].
Qed.

Lemma toLowerCase_run s w :
  toLowerCase (VStr s) w = (inr (String_toLowerCase s), w).
Proof. reflexivity. Qed.

Lemma first_truthy_or a b c d :
  js_or (js_or (js_or a b) c) d = first_truthy [a; b; c] d.
Proof.
  unfold js_or. cbn.
  destruct (truthy a) eqn:Ta; rewrite ?Ta; [done|].
  destruct (truthy b) eqn:Tb; rewrite ?Tb; [done|].
  by destruct (truthy c) eqn:Tc; rewrite ?Tc.
Qed.

Lemma first_truthy_or_2 a b c :
  js_or (js_or a b) c = first_truthy [a; b] c.
Proof.
  unfold js_or. cbn.
  destruct (truthy a) eqn:Ta; rewrite ?Ta; [done|].
  by destruct (truthy b) eqn:Tb; rewrite ?Tb.
Qed.

Lemma missing_run locale defaultLocale defaultMessage parts :
  is_string locale → is_string defaultLocale →
  logs ((if negb production then
           missing ← (if negb (truthy defaultMessage) then ret true
                      else if truthy locale then
                        l ← toLowerCase locale;
                        d ← toLowerCase defaultLocale;
                        ret (negb (String.eqb l d))
                      else ret false);
           if (missing : bool) then
             msg ← template parts; console_error msg
           else ret tt
         else ret tt)).
Proof.
  intros Sl Sd w0. destruct production; cbn [negb]; [by eexists|].
  destruct locale as [| | | |l|]; try done.
  destruct defaultLocale as [| | | |d|]; try done.
  rewrite run_bind.
  destruct (negb (truthy defaultMessage)).
  - cbn [ret mret M_ret]. rewrite run_bind, template_run. by eexists.
  - destruct (truthy (VStr l)).
    + rewrite run_bind, toLowerCase_run, run_bind, toLowerCase_run.
      cbn [ret mret M_ret]. destruct (negb _).
      * rewrite run_bind, template_run. by eexists.
      * by eexists.
    + by eexists.
Qed.

Lemma formatMessage_result config messageDescriptor values w :
  let h := objects w in
  nullish config = false → messageDescriptor ≠ VNull → values ≠ VNull →
  truthy (read h messageDescriptor "id") = true →
  is_string (read h config "locale") →
  is_string (read h config "defaultLocale") →
  ∃ w',
    formatMessage production config state messageDescriptor values w
    = (inr (message_fallback production state h config messageDescriptor
              values), w')
    ∧ objects w' = message_heap h messageDescriptor values.
Proof.
  destruct w as [h tr]. cbn [objects]. intros Ncfg Nmd Nvs Tid Sl Sd.
  unfold formatMessage, message_fallback, message_candidates.
  rewrite run_bind, default_param_run. cbn [objects trace].
  rewrite run_bind, default_param_run. cbn [objects trace].
  do 5 rewrite run_bind, get_run by done.
  do 2 rewrite run_bind, get_run by by apply nullish_defaulted.
  cbn [objects].
  rewrite !read_pad, !read_self_defaulted.
  rewrite run_bind, invariant_run by done.
  rewrite run_bind, catalog_message_run. cbn [objects].
  rewrite !read_pad, !to_string_pad.
  fold (catalog_message h config (read h messageDescriptor "id")).
  rewrite run_bind, keys_run by by apply nullish_defaulted.
  cbn [objects]. rewrite own_pad, own_self_defaulted, own_pad, has_values.
  fold (message_heap h messageDescriptor values).
  fold (message_values h messageDescriptor values).
  assert (objects {| objects := message_heap h messageDescriptor values;
                      trace := tr |}
          = message_heap h messageDescriptor values) as Hobj by done.
  revert Hobj.
  generalize {| objects := message_heap h messageDescriptor values;
                trace := tr |}.
  generalize (message_heap h messageDescriptor values) as hm.
  generalize (message_values h messageDescriptor values) as vs.
  generalize (catalog_message h config (read h messageDescriptor "id"))
    as message.
  unfold fast_path. rewrite (andb_comm production).
  generalize (bool_decide (own h values = ∅)) as no_values.
  revert Tid Sl Sd.
  generalize (read h messageDescriptor "id") as id.
  generalize (read h messageDescriptor "defaultMessage") as defaultMessage.
  generalize (read h config "locale") as locale.
  generalize (read h config "formats") as formats.
  generalize (read h config "defaultLocale") as defaultLocale.
  generalize (read h config "defaultFormats") as defaultFormats.
  clear. intros defaultFormats defaultLocale formats locale defaultMessage id
    Tid Sl Sd no_values message vs hm w0 Hobj.
  destruct (no_values && production) eqn:Fast.
  { eexists. split; [|done]. cbn [first_truthy truthy].
    by rewrite first_truthy_or_2. }
  (* the catalog message *)
  rewrite run_bind.
  assert (∃ w1,
    (if truthy message then
       try_catch
         (mf ← host_call GetMessageFormat [message; locale; formats]
                 (λ h, getMessageFormat state h message locale formats);
          host_call Format [vs] (λ h, mf h [vs]))
         (λ e,
            (if negb production then
               msg ← template
                 [Lit "[React Intl] Error formatting message: ";
                  Lit dq; Sub id; Lit dq; Lit " for locale: ";
                  Lit dq; Sub locale; Lit dq;
                  Lit (using_default defaultMessage);
                  Lit nl; Lit (exn_toString e)];
               console_error msg
             else ret tt);;
            ret VUndefined)
     else
       (if negb production then
          missing ← (if negb (truthy defaultMessage) then ret true
                     else if truthy locale then
                       l ← toLowerCase locale;
                       d ← toLowerCase defaultLocale;
                       ret (negb (String.eqb l d))
                     else ret false);
          if (missing : bool) then
            msg ← template
              [Lit "[React Intl] Missing message: ";
               Lit dq; Sub id; Lit dq; Lit " for locale: ";
               Lit dq; Sub locale; Lit dq;
               Lit (using_default defaultMessage)];
            console_error msg
          else ret tt
        else ret tt);;
       ret VUndefined) w0
    = (inr (if truthy message
            then attempt state hm message locale formats vs
            else VUndefined), w1)
    ∧ objects w1 = hm) as (w1 & -> & Hobj1).
  { destruct (truthy message).
    - edestruct (try_format_run message locale formats vs) as (w1 & Hrun & Ho);
        [|exists w1; rewrite Hrun, Hobj; split; [reflexivity|congruence]].
      intros e. apply logs_console.
    - edestruct (missing_run locale defaultLocale defaultMessage)
        as (w1 & Hrun & Ho); [done..|].
      rewrite run_bind, Hrun. exists w1. split; [done|congruence]. }
  generalize (if truthy message
              then attempt state hm message locale formats vs
              else VUndefined) as first.
  intros first.
  (* the default message *)
  rewrite run_bind.
  assert (∃ w2,
    (if negb (truthy first) && truthy defaultMessage then
       try_catch
         (mf ← host_call GetMessageFormat
                 [defaultMessage; defaultLocale; defaultFormats]
                 (λ h, getMessageFormat state h
                         defaultMessage defaultLocale defaultFormats);
          host_call Format [vs] (λ h, mf h [vs]))
         (λ e,
            (if negb production then
               msg ← template
                 [Lit "[React Intl] Error formatting the default message for: ";
                  Lit dq; Sub id; Lit dq; Lit nl; Lit (exn_toString e)];
               console_error msg
             else ret tt);;
            ret first)
     else ret first) w1
    = (inr (if negb (truthy first) && truthy defaultMessage
            then match delegate (getMessageFormat state hm defaultMessage
                                   defaultLocale defaultFormats) hm [vs] with
                 | inr v => v
                 | inl _ => first
                 end
            else first), w2)
    ∧ objects w2 = hm) as (w2 & -> & Hobj2).
  { destruct (negb (truthy first) && truthy defaultMessage).
    - edestruct (try_format_run defaultMessage defaultLocale defaultFormats vs)
        as (w2 & Hrun & Ho);
        [|exists w2; rewrite Hrun, Hobj1; split; [reflexivity|congruence]].
      intros e. apply logs_console.
    - by exists w1. }
  rewrite run_bind.
  match goal with |- context [(if negb (truthy ?f) then ?a else ?b) w2] =>
    assert (∃ w3, (if negb (truthy f) then a else b) w2 = (inr tt, w3)
                  ∧ objects w3 = hm) as (w3 & -> & Hobj3)
  end.
  { destruct (negb (truthy _)); [|by exists w2].
    edestruct logs_console as (w3 & Hrun & Ho).
    exists w3. rewrite Hrun. split; [done|congruence]. }
  exists w3. split; [|done]. unfold ret, mret, M_ret. do 2 f_equal.
  rewrite first_truthy_or. unfold attempt. cbn [first_truthy].
  destruct (truthy first) eqn:Tf; cbn [negb andb]; rewrite ?Tf; [done|].
  destruct (truthy defaultMessage) eqn:Td; rewrite ?Tf; [|done].
  destruct (delegate _ _ _) as [e|v]; rewrite ?Tf; [done|].
  cbn [truthy]. reflexivity.
Qed.
End Fallback.
End Message.


(** ** Running [formatHTMLMessage] *)

Section Escape.
Context `{Host}.

Lemma escape_loop names rawValues (h : heap) tr : ∀ acc,
  allocated h rawValues → nullish rawValues = false →
  reduce (λ (escaped : val) (name : string),
      value ← get rawValues name;
      set escaped name (match value with
                        | VStr s => VStr (escape s)
                        | _ => value
                        end);;
      ret escaped)
    names (VRef (List.length h))
    {| objects := h ++ [plain acc]; trace := tr |}
  = (inr (VRef (List.length h)),
     {| objects :=
          h ++ [plain (fold_left (escape_step h rawValues) names acc)];
        trace := tr |}).
Proof.
  induction names as [|name names IH]; intros acc Hr Nr; [done|].
  cbn [reduce fold_left].
  rewrite run_bind, run_bind, get_run by done. cbn [objects].
  rewrite run_bind, set_fresh, read_app by done.
  by apply IH.
Qed.

Lemma fold_escape_lookup (h : heap) rawValues names k : ∀ acc,
  fold_left (escape_step h rawValues) names acc !! k
  = if decide (k ∈ names) then Some (escape_value (read h rawValues k))
    else acc !! k.
Proof.
  induction names as [|name names IH]; intros acc; cbn [fold_left].
  - rewrite decide_False; [done|apply not_elem_of_nil].
  - rewrite IH. unfold escape_step.
    destruct (decide (k ∈ names)).
    + by rewrite decide_True by by right.
    + destruct (decide (k = name)) as [->|].
      * rewrite decide_True by by left. by rewrite lookup_insert_eq.
      * rewrite decide_False by (by intros [->|?]%elem_of_cons).
        by rewrite lookup_insert_ne.
Qed.

Lemma fold_escape (h : heap) rawValues :
  fold_left (escape_step h rawValues)
    (map fst (map_to_list (own h rawValues))) ∅
  = escape_value <$> own h rawValues.
Proof.
  apply map_eq; intros k.
  rewrite fold_escape_lookup, lookup_fmap, lookup_empty. unfold read.
  destruct (own h rawValues !! k) as [v|] eqn:E.
  - rewrite decide_True; [done|].
    apply list_elem_of_fmap. exists (k, v). split; [done|].
    by apply elem_of_map_to_list.
  - rewrite decide_False; [done|].
    intros [[k' v] [-> Hin%elem_of_map_to_list]]%list_elem_of_fmap.
    cbn in E. congruence.
Qed.

Lemma formatHTMLMessage_run production config state messageDescriptor
    rawValues w :
  let h := objects w in
  object_or_omitted h rawValues →
  formatHTMLMessage production config state messageDescriptor rawValues w
  = formatMessage production config state messageDescriptor
      (VRef (List.length (h ++ default_pad rawValues)))
      {| objects := (h ++ default_pad rawValues)
                    ++ [plain (escape_value <$> own h rawValues)];
         trace := trace w |}.
Proof.
  destruct w as [h tr]. cbn [objects trace]. intros Hraw.
  assert (allocated h rawValues ∧ rawValues ≠ VNull) as [Hr Nr]
    by (by destruct rawValues).
  unfold formatHTMLMessage.
  rewrite run_bind, default_param_run. cbn [objects trace].
  rewrite run_bind, keys_run by by apply nullish_defaulted.
  rewrite run_bind. cbn [alloc objects trace].
  rewrite run_bind, escape_loop
    by auto using allocated_defaulted, nullish_defaulted.
  cbn [objects]. by rewrite fold_escape, own_defaulted.
Qed.
End Escape.


(** ** The events of [formatMessage] *)

Section MessageLog.
Context `{Host}.
Variable production : bool.
Variable state : State.

Lemma console_log_run parts h tr :
  (if negb production then msg ← template parts; console_error msg
   else ret tt) {| objects := h; trace := tr |}
  = (inr tt, {| objects := h; trace := tr ++ console_log production h parts |}).
Proof.
  unfold console_log. destruct production; cbn [negb].
  - by rewrite app_nil_r.
  - by rewrite run_bind, template_run.
Qed.

Lemma try_format_trace source locale formats values (parts : exn → list part)
    fallback h tr :
  try_catch
    (mf ← host_call GetMessageFormat [source; locale; formats]
            (λ h, getMessageFormat state h source locale formats);
     host_call Format [values] (λ h, mf h [values]))
    (λ e,
       (if negb production then msg ← template (parts e); console_error msg
        else ret tt);;
       ret fallback) {| objects := h; trace := tr |}
  = (inr match delegate (getMessageFormat state h source locale formats)
                 h [values] with
         | inr v => v
         | inl _ => fallback
         end,
     {| objects := h;
        trace := tr ++ attempt_log production state h source locale formats
                         values parts |}).
Proof.
  unfold try_catch, attempt_log, delegate.
  rewrite run_bind, host_call_run. cbn [objects trace].
  destruct (getMessageFormat state h source locale formats) as [e|mf].
  - rewrite run_bind, console_log_run. cbn [ret mret M_ret].
    by rewrite <- !app_assoc.
  - rewrite host_call_run. cbn [objects trace].
    destruct (mf h [values]) as [e|v]; cbn [formatter_result].
    + rewrite run_bind, console_log_run. cbn [ret mret M_ret].
      by rewrite <- !app_assoc.
    + by rewrite <- !app_assoc.
Qed.

Lemma missing_trace id locale defaultLocale defaultMessage h tr :
  (production = false → truthy defaultMessage = true → truthy locale = true →
   is_string locale ∧ is_string defaultLocale) →
  (if negb production then
     missing ← (if negb (truthy defaultMessage) then ret true
                else if truthy locale then
                  l ← toLowerCase locale;
                  d ← toLowerCase defaultLocale;
                  ret (negb (String.eqb l d))
                else ret false);
     if (missing : bool) then
       msg ← template (missing_parts id locale defaultMessage);
       console_error msg
     else ret tt
   else ret tt) {| objects := h; trace := tr |}
  = (inr tt,
     {| objects := h;
        trace := tr ++ missing_log production h id locale defaultLocale
                         defaultMessage |}).
Proof.
  intros Hcmp. unfold missing_log, console_log.
  destruct production; cbn [negb].
  { case_match; by rewrite app_nil_r. }
  rewrite run_bind.
  destruct (truthy defaultMessage) eqn:Td; cbn [negb orb].
  - destruct (truthy locale) eqn:Tl; cbn [andb].
    + destruct Hcmp as [Sl Sd]; [done..|].
      destruct locale as [| | | |l|]; try done.
      destruct defaultLocale as [| | | |d|]; try done.
      rewrite run_bind, toLowerCase_run, run_bind, toLowerCase_run.
      cbn [ret mret M_ret lower]. destruct (negb _).
      * by rewrite run_bind, template_run.
      * by rewrite app_nil_r.
    + cbn [ret mret M_ret]. by rewrite app_nil_r.
  - cbn [ret mret M_ret]. by rewrite run_bind, template_run.
Qed.

Lemma formatMessage_run config messageDescriptor values w :
  let h := objects w in
  let id := read h messageDescriptor "id" in
  nullish config = false → messageDescriptor ≠ VNull → values ≠ VNull →
  truthy id = true →
  comparable production (catalog_message h config id)
    (read h messageDescriptor "defaultMessage")
    (read h config "locale") (read h config "defaultLocale") →
  formatMessage production config state messageDescriptor values w
  = (inr (message_fallback production state h config messageDescriptor
            values),
     {| objects := message_heap h messageDescriptor values;
        trace := trace w
                 ++ message_log production state h config messageDescriptor
                      values |}).
Proof.
  destruct w as [h tr]. cbn [objects trace]. intros Ncfg Nmd Nvs Tid Hcmp.
  unfold formatMessage, message_fallback, message_candidates, message_log.
  rewrite run_bind, default_param_run. cbn [objects trace].
  rewrite run_bind, default_param_run. cbn [objects trace].
  do 5 rewrite run_bind, get_run by done.
  do 2 rewrite run_bind, get_run by by apply nullish_defaulted.
  cbn [objects].
  rewrite !read_pad, !read_self_defaulted.
  rewrite run_bind, invariant_run by done.
  rewrite run_bind, catalog_message_run. cbn [objects].
  rewrite !read_pad, !to_string_pad.
  fold (catalog_message h config (read h messageDescriptor "id")).
  rewrite run_bind, keys_run by by apply nullish_defaulted.
  cbn [objects]. rewrite own_pad, own_self_defaulted, own_pad, has_values.
  fold (message_heap h messageDescriptor values).
  fold (message_values h messageDescriptor values).
  generalize (message_heap h messageDescriptor values) as hm.
  generalize (message_values h messageDescriptor values) as vs.
  revert Hcmp.
  generalize (catalog_message h config (read h messageDescriptor "id"))
    as message.
  unfold fast_path. rewrite (andb_comm production).
  generalize (bool_decide (own h values = ∅)) as no_values.
  revert Tid.
  generalize (read h messageDescriptor "id") as id.
  generalize (read h messageDescriptor "defaultMessage") as defaultMessage.
  generalize (read h config "locale") as locale.
  generalize (read h config "formats") as formats.
  generalize (read h config "defaultLocale") as defaultLocale.
  generalize (read h config "defaultFormats") as defaultFormats.
  clear. intros defaultFormats defaultLocale formats locale defaultMessage id
    Tid no_values message Hcmp vs hm.
  destruct (no_values && production) eqn:Fast.
  { cbn [first_truthy truthy]. by rewrite first_truthy_or_2, app_nil_r. }
  rewrite run_bind.
  (* the catalog message *)
  set (first := if truthy message
                then attempt state hm message locale formats vs
                else VUndefined).
  match goal with
  | |- context [(if truthy message then ?a else ?b)
                  {| objects := hm; trace := tr |}] =>
      assert ((if truthy message then a else b)
                {| objects := hm; trace := tr |}
              = (inr first,
                 {| objects := hm;
                    trace := tr ++
                      (if truthy message then
                         attempt_log production state hm message locale
                           formats vs (error_parts id locale defaultMessage)
                       else missing_log production hm id locale
                              defaultLocale defaultMessage) |})) as ->
  end.
  { subst first. destruct (truthy message) eqn:Tm.
    - apply (try_format_trace message locale formats vs
               (error_parts id locale defaultMessage) VUndefined).
    - rewrite run_bind.
      rewrite (missing_trace id locale defaultLocale defaultMessage)
        by (intros; by apply Hcmp).
      done. }
  generalize (if truthy message then
                attempt_log production state hm message locale formats vs
                  (error_parts id locale defaultMessage)
              else missing_log production hm id locale defaultLocale
                     defaultMessage) as log1.
  intros log1. clearbody first.
  (* the default message *)
  rewrite run_bind.
  match goal with
  | |- context [(if negb (truthy first) && truthy defaultMessage
                 then ?a else ?b) ?w1] =>
      assert ((if negb (truthy first) && truthy defaultMessage
               then a else b) w1
              = (inr (if negb (truthy first) && truthy defaultMessage then
                        match delegate (getMessageFormat state hm
                                          defaultMessage defaultLocale
                                          defaultFormats) hm [vs] with
                        | inr v => v
                        | inl _ => first
                        end
                      else first),
                 {| objects := hm;
                    trace := (tr ++ log1) ++
                      (if negb (truthy first) && truthy defaultMessage then
                         attempt_log production state hm defaultMessage
                           defaultLocale defaultFormats vs
                           (default_error_parts id)
                       else []) |})) as ->
  end.
  { destruct (negb (truthy first) && truthy defaultMessage).
    - apply (try_format_trace defaultMessage defaultLocale defaultFormats vs
               (default_error_parts id) first).
    - cbn [ret mret M_ret]. by rewrite app_nil_r. }
  set (second := if negb (truthy first) && truthy defaultMessage then _
                 else first).
  generalize (if negb (truthy first) && truthy defaultMessage then
                attempt_log production state hm defaultMessage defaultLocale
                  defaultFormats vs (default_error_parts id)
              else []) as log2.
  intros log2.
  rewrite run_bind.
  match goal with
  | |- context [(if negb (truthy second) then ?a else ?b) ?w2] =>
      assert ((if negb (truthy second) then a else b) w2
              = (inr tt,
                 {| objects := hm;
                    trace := ((tr ++ log1) ++ log2) ++
                      (if truthy second then []
                       else console_log production hm
                              (cannot_parts id message defaultMessage)) |}))
        as ->
  end.
  { destruct (truthy second); cbn [negb].
    - cbn [ret mret M_ret]. by rewrite app_nil_r.
    - apply (console_log_run (cannot_parts id message defaultMessage)). }
  unfold ret, mret, M_ret. rewrite <- !app_assoc. do 2 f_equal.
  rewrite first_truthy_or. unfold attempt. cbn [first_truthy].
  subst second.
  destruct (truthy first) eqn:Tf; cbn [negb andb]; rewrite ?Tf; [done|].
  destruct (truthy defaultMessage) eqn:Td; rewrite ?Tf; [|done].
  destruct (delegate _ _ _) as [e|v]; rewrite ?Tf; [done|].
  cbn [truthy]. reflexivity.
Qed.
End MessageLog.


(** * The properties of the specification *)

(** ** Lemmas that several properties share *)

Lemma example_closed : closed example_objects.
Proof. apply (bool_decide_unpack _). vm_compute. exact I. Qed.

Lemma lookup_last (h : heap) o : (h ++ [o]) !! List.length h = Some o.
Proof. by apply list_lookup_middle. Qed.

Lemma lookup_filtered (h : heap) o ext :
  ((h ++ [o]) ++ ext) !! List.length h = Some o.
Proof. rewrite <- app_assoc. by apply list_lookup_middle. Qed.

Lemma first_truthy_string candidates last :
  Forall string_or_undefined candidates → is_string last →
  ∃ s, first_truthy candidates last = VStr s.
Proof.
  intros Hc Hl. induction Hc as [|v rest Hv _ IH]; cbn [first_truthy].
  - destruct last; try done. by eexists.
  - destruct (truthy v) eqn:Tv; [|done].
    destruct v; try done. by eexists.
Qed.

Lemma forwards_filtered_merge whitelist (options defaults : gmap string val) :
  forwards whitelist options defaults
    (filtered_merge whitelist options defaults).
Proof.
  intros k. rewrite filtered_merge_lookup, lookup_union.
  destruct (decide (k ∈ whitelist)) as [Hin|Hout];
    destruct (options !! k) as [x|] eqn:Eo;
    destruct (defaults !! k) as [y|] eqn:Ed; cbn; split;
    try (split; [intros [? ?]|intros [? [[? ?]|[? ?]]]]);
    try (intros v ?); simplify_eq; eauto; try done.
Qed.

Lemma frame_of_keeps {A} (m : M A) w :
  keeps (frame_discipline (List.length (objects w))) (λ _, True) m
    (λ _, True) →
  take (List.length (objects w)) (objects (snd (m w))) = objects w.
Proof.
  intros Hk. destruct (Hk w) as (_ & Hr & _); [cbn; lia|].
  cbn in Hr. by rewrite Hr, firstn_all.
Qed.

Lemma events_of_keeps {A} P (m : M A) w :
  keeps (trace_discipline P) (λ _, True) m (λ _, True) →
  ∃ events, trace (snd (m w)) = trace w ++ events ∧ Forall P events.
Proof. intros Hk. by destruct (Hk w I) as (_ & Hr & _). Qed.

Section FallbackChain.
Context `{Host}.

Lemma formatMessage_value production config state messageDescriptor values w :
  let h := objects w in
  nullish config = false → messageDescriptor ≠ VNull → values ≠ VNull →
  truthy (read h messageDescriptor "id") = true →
  is_string (read h config "locale") →
  is_string (read h config "defaultLocale") →
  fst (formatMessage production config state messageDescriptor values w)
  = inr (message_fallback production state h config messageDescriptor values).
Proof.
  intros h Ncfg Nmd Nvs Tid Sl Sd.
  destruct (formatMessage_result production state config messageDescriptor
              values w Ncfg Nmd Nvs Tid Sl Sd) as (w' & -> & _).
  done.
Qed.

(** C1, as the code has it. For a descriptor with a truthy id, and a config
    whose locale and default locale are strings, the value returned is the
    first truthy one of: the formatted catalog message, the formatted default
    message, the catalog message, the default message; and the id when none
    is truthy. A message is formatted only outside the production fast path,
    and counts as [undefined] when it is falsy or when constructing the
    formatter or formatting throws; so where the catalog message is missing
    or cannot be formatted, the chain goes on from the default message. *)
Theorem formatMessage_fallback_chain production config state
    messageDescriptor values w :
  let h := objects w in
  let candidates :=
    message_candidates production state h config messageDescriptor values in
  nullish config = false → messageDescriptor ≠ VNull →
  object_or_omitted h values →
  truthy (read h messageDescriptor "id") = true →
  is_string (read h config "locale") →
  is_string (read h config "defaultLocale") →
  fst (formatMessage production config state messageDescriptor values w)
  = inr (first_truthy candidates (read h messageDescriptor "id"))
  ∧ (candidates !! 0 = Some VUndefined →
     fst (formatMessage production config state messageDescriptor values w)
     = inr (first_truthy (drop 1 candidates)
              (read h messageDescriptor "id"))).
Proof.
  intros h candidates Ncfg Nmd Hvs Tid Sl Sd.
  assert (values ≠ VNull) as Nvs by (by destruct values).
  rewrite formatMessage_value by done. fold h. unfold message_fallback.
  fold candidates. split; [done|].
  destruct candidates as [|first rest]; [done|].
  intros [= ->]. reflexivity.
Qed.
End FallbackChain.

Lemma formatMessage_fallback_chain_witness :
  fst (formatMessage (H := example_host) false (VRef 0) failing_state
         (VRef 12) (VRef 13) example_world)
  = inr (VStr "Hello, {name}!").
Proof.
  destruct (formatMessage_fallback_chain (H := example_host) false (VRef 0)
              failing_state (VRef 12) (VRef 13) example_world)
    as [Hchain _];
    [reflexivity | discriminate | vm_compute; lia | reflexivity
    | exact I | exact I | exact Hchain].
Defined.

(** C1, as it is stated, fails. A descriptor whose default message is the
    empty string, and for which the catalog has no message, gets its id in
    every build: the empty string is the first candidate that is defined,
    and it is passed over because it is falsy. *)
Lemma formatMessage_first_defined_counterexample :
  message_candidates (H := example_host) false example_state example_objects
    (VRef 0) (VRef 14) VUndefined
  = [VUndefined; VUndefined; VUndefined; VStr ""]
  ∧ fst (formatMessage (H := example_host) false (VRef 0) example_state
           (VRef 14) VUndefined example_world)
    = inr (VStr "app.title")
  ∧ fst (formatMessage (H := example_host) false (VRef 0) example_state
           (VRef 14) VUndefined example_world)
    ≠ inr (first_defined
             (message_candidates (H := example_host) false example_state
                example_objects (VRef 0) (VRef 14) VUndefined)
             (read example_objects (VRef 14) "id"))
  ∧ fst (formatMessage (H := example_host) true (VRef 0) example_state
           (VRef 14) VUndefined example_world)
    ≠ inr (first_defined
             (message_candidates (H := example_host) true example_state
                example_objects (VRef 0) (VRef 14) VUndefined)
             (read example_objects (VRef 14) "id")).
Proof. vm_compute. repeat split; discriminate. Qed.

Section MessageClaims.
Context `{Host}.

(** C2. An error thrown while a message formatter is constructed or while
    it formats never leaves [formatMessage], and a production build logs
    nothing. For a config and a descriptor that are well typed, the call
    returns the fallback: the first truthy one of the formatted catalog
    message, the formatted default message, the catalog message, the default
    message and the id, where a message whose formatter throws counts as
    [undefined]. So where formatting the catalog message throws, the chain
    goes on from the default message, and where formatting both throws, the
    value is [message || defaultMessage || id]. Where the id, the messages
    and what the formatters answer are strings, the value is a string. *)
Theorem formatMessage_absorbs_errors production config state
    messageDescriptor values w :
  let h := objects w in
  let id := read h messageDescriptor "id" in
  let defaultMessage := read h messageDescriptor "defaultMessage" in
  let message := catalog_message h config id in
  let locale := read h config "locale" in
  let defaultLocale := read h config "defaultLocale" in
  let hm := message_heap h messageDescriptor values in
  let vs := message_values h messageDescriptor values in
  let formatted :=
    delegate (getMessageFormat state hm message locale
                (read h config "formats")) hm [vs] in
  let formatted_default :=
    delegate (getMessageFormat state hm defaultMessage defaultLocale
                (read h config "defaultFormats")) hm [vs] in
  let candidates :=
    message_candidates production state h config messageDescriptor values in
  let run :=
    formatMessage production config state messageDescriptor values w in
  (∀ e, fst run ≠ inl (HostError e))
  ∧ (production = true →
     ∃ events, trace (snd run) = trace w ++ events
               ∧ Forall (λ e, ¬ is_console_error e) events)
  ∧ (nullish config = false → messageDescriptor ≠ VNull →
     object_or_omitted h values → truthy id = true →
     comparable production message defaultMessage locale defaultLocale →
     fst run = inr (first_truthy candidates id)
     ∧ (∀ e, formatted = inl e →
          fst run = inr (first_truthy (drop 1 candidates) id))
     ∧ (∀ e e', formatted = inl e → formatted_default = inl e' →
          fst run = inr (js_or (js_or message defaultMessage) id))
     ∧ (is_string id → string_or_undefined defaultMessage →
        string_or_undefined message →
        (∀ h' source locale formats formatter args v,
           getMessageFormat state h' source locale formats = inr formatter →
           formatter h' args = inr v → is_string v) →
        ∃ s, fst run = inr (VStr s))).
Proof.
  intros h id defaultMessage message locale defaultLocale hm vs formatted
    formatted_default candidates run.
  split; [|split].
  - intros e Heq.
    assert (keeps (trace_discipline (λ _, True))
              (λ e, ∀ s, e ≠ HostError s)
              (formatMessage production config state messageDescriptor values)
              (λ _, True)) as Hk
      by (apply keeps_formatMessage; done).
    destruct (Hk w I) as (_ & _ & Hr). fold run in Hr.
    rewrite Heq in Hr. by apply (Hr e).
  - intros ->.
    assert (keeps (trace_discipline (λ e, ¬ is_console_error e))
              (λ _, True)
              (formatMessage true config state messageDescriptor values)
              (λ _, True)) as Hk
      by (apply keeps_formatMessage; cbn; auto; done).
    by destruct (Hk w I) as (_ & Hr & _).
  - intros Ncfg Nmd Hvs Tid Hcmp.
    assert (values ≠ VNull) as Nvs by (by destruct values).
    assert (fst run = inr (first_truthy candidates id)) as Hrun.
    { unfold run. by rewrite formatMessage_run. }
    rewrite Hrun. subst candidates. unfold message_candidates.
    fold h id defaultMessage message locale defaultLocale hm vs.
    unfold attempt. fold formatted formatted_default.
    split; [done|]. split; [|split].
    + intros e He. rewrite He. by repeat case_match.
    + intros e e' He He'. rewrite He, He'. unfold js_or.
      destruct (fast_path production h values);
        destruct (truthy message) eqn:Tm;
        destruct (truthy defaultMessage) eqn:Td;
        cbn [first_truthy truthy]; by rewrite ?Tm, ?Td.
    + intros Sid Sdm Sm Hstate. subst formatted formatted_default.
      assert (∀ source locale formats,
                string_or_undefined
                  (match delegate (getMessageFormat state hm source locale
                                     formats) hm [vs] with
                   | inr v => v
                   | inl _ => VUndefined
                   end)) as Ha.
      { intros source loc fmts. unfold delegate.
        destruct (getMessageFormat state hm source loc fmts) as [|f] eqn:Ef;
          [exact I|].
        destruct (f _ _) as [|v] eqn:Ev; cbn [formatter_result]; [exact I|].
        specialize (Hstate _ _ _ _ _ _ _ Ef Ev). by destruct v. }
      match goal with
      | |- ∃ s, inr (first_truthy ?cs id) = _ =>
          destruct (first_truthy_string cs id) as [s Hs]; [|done|]
      end.
      * repeat constructor; repeat case_match; auto; try exact I;
          match goal with
          | Hd : delegate (getMessageFormat state hm ?s ?l ?f) hm [vs]
                 = inr ?v |- string_or_undefined ?v =>
              pose proof (Ha s l f) as Hv; by rewrite Hd in Hv
          end.
      * exists s. by rewrite Hs.
Qed.

(** C3. [formatMessage] requires the id of the descriptor: where the id is
    absent or falsy the call throws an invariant violation, and where it is
    truthy no invariant violation is thrown, whatever the default message
    is. *)
Theorem formatMessage_requires_id production config state messageDescriptor
    values w :
  nullish config = false → messageDescriptor ≠ VNull →
  let id := read (objects w) messageDescriptor "id" in
  (truthy id = false →
     ∃ msg w',
       formatMessage production config state messageDescriptor values w
       = (inl (InvariantViolation msg), w'))
  ∧ (truthy id = true →
     ∀ msg,
       fst (formatMessage production config state messageDescriptor values w)
       ≠ inl (InvariantViolation msg)).
Proof.
  destruct w as [h tr]. cbn [objects]. intros Ncfg Nmd.
  unfold formatMessage.
  rewrite run_bind, default_param_run. cbn [objects trace].
  rewrite run_bind, default_param_run. cbn [objects trace].
  do 5 rewrite run_bind, get_run by done.
  do 2 rewrite run_bind, get_run by by apply nullish_defaulted.
  cbn [objects].
  rewrite !read_pad, !read_self_defaulted.
  rewrite run_bind. unfold invariant at 1 2.
  split; intros Tid; rewrite Tid.
  - by eexists _, _.
  - cbn [ret mret M_ret]. intros msg.
    match goal with |- (?m ?w0).1 ≠ _ =>
      assert (keeps (trace_discipline (λ _, True))
                (λ e, ∀ msg, e ≠ InvariantViolation msg) m (λ _, True)) as Hk
    end.
    { destruct production; cbn [negb andb]; keeps_auto. }
    match goal with |- (?m ?w0).1 ≠ _ =>
      destruct (Hk w0 I) as (_ & _ & Hr) end.
    intros Heq. rewrite Heq in Hr. by apply (Hr msg).
Qed.

(** C4. [formatHTMLMessage] is [formatMessage] on the values escaped: it
    passes a fresh object that holds, for every entry of [rawValues], the
    escaped string where the entry is a string and the entry itself where it
    is not. *)
Theorem formatHTMLMessage_escapes production config state messageDescriptor
    rawValues w :
  let h := objects w in
  object_or_omitted h rawValues →
  formatHTMLMessage production config state messageDescriptor rawValues w
  = formatMessage production config state messageDescriptor
      (VRef (List.length (h ++ default_pad rawValues)))
      {| objects := (h ++ default_pad rawValues)
                    ++ [plain (escape_value <$> own h rawValues)];
         trace := trace w |}.
Proof. apply formatHTMLMessage_run. Qed.

(** C10. In a production build a call without values returns
    [message || defaultMessage || id] at once: nothing is logged and no
    method of [state] is called, so that no message is formatted. *)
Theorem formatMessage_fast_path config state messageDescriptor values w :
  let h := objects w in
  let id := read h messageDescriptor "id" in
  nullish config = false → messageDescriptor ≠ VNull →
  object_or_omitted h values → truthy id = true →
  own h values = ∅ →
  formatMessage true config state messageDescriptor values w
  = (inr (js_or (js_or (catalog_message h config id)
                   (read h messageDescriptor "defaultMessage")) id),
     {| objects := message_heap h messageDescriptor values;
        trace := trace w |}).
Proof.
  destruct w as [h tr]. cbn [objects trace]. intros Ncfg Nmd Hvs Tid Hempty.
  assert (values ≠ VNull) as Nvs by (by destruct values).
  unfold formatMessage.
  rewrite run_bind, default_param_run. cbn [objects trace].
  rewrite run_bind, default_param_run. cbn [objects trace].
  do 5 rewrite run_bind, get_run by done.
  do 2 rewrite run_bind, get_run by by apply nullish_defaulted.
  cbn [objects].
  rewrite !read_pad, !read_self_defaulted.
  rewrite run_bind, invariant_run by done.
  rewrite run_bind, catalog_message_run. cbn [objects].
  rewrite !read_pad, !to_string_pad.
  rewrite run_bind, keys_run by by apply nullish_defaulted.
  cbn [objects]. rewrite own_pad, own_self_defaulted, own_pad, has_values.
  by rewrite bool_decide_eq_true_2.
Qed.
End MessageClaims.

Lemma formatMessage_absorbs_errors_witness :
  let run :=
    formatMessage (H := example_host) false (VRef 0) failing_state (VRef 12)
      (VRef 13) example_world in
  (∀ e, fst run ≠ inl (HostError e))
  ∧ fst run = inr (VStr "Hello, {name}!")
  ∧ ∃ s, fst run = inr (VStr s).
Proof.
  intros run.
  destruct (formatMessage_absorbs_errors (H := example_host) false (VRef 0)
              failing_state (VRef 12) (VRef 13) example_world)
    as (Habsorbed & _ & Hfallback).
  split; [exact Habsorbed|].
  destruct Hfallback as (_ & _ & Hboth & Hstring);
    [reflexivity | discriminate | vm_compute; lia | reflexivity
    | intros _ _ _ _; split; exact I |].
  split.
  - apply (Hboth (HostError "SyntaxError") (HostError "SyntaxError"));
      reflexivity.
  - apply Hstring; try reflexivity; try discriminate; exact I.
Defined.

Lemma formatMessage_requires_id_witness :
  (∃ msg w',
     formatMessage (H := example_host) false (VRef 0) example_state (VRef 15)
       VUndefined example_world
     = (inl (InvariantViolation msg), w'))
  ∧ ∀ msg,
      fst (formatMessage (H := example_host) false (VRef 0) example_state
             (VRef 12) VUndefined example_world)
      ≠ inl (InvariantViolation msg).
Proof.
  split.
  - apply (formatMessage_requires_id (H := example_host) false (VRef 0)
             example_state (VRef 15) VUndefined example_world);
      [reflexivity | discriminate | reflexivity].
  - apply (formatMessage_requires_id (H := example_host) false (VRef 0)
             example_state (VRef 12) VUndefined example_world);
      [reflexivity | discriminate | reflexivity].
Defined.

Lemma formatHTMLMessage_escapes_witness :
  formatHTMLMessage (H := example_host) false (VRef 0) example_state
    (VRef 12) (VRef 13) example_world
  = formatMessage (H := example_host) false (VRef 0) example_state (VRef 12)
      (VRef 17)
      {| objects :=
           example_objects
           ++ [plain {["name" := VStr "&lt;b&gt;Ann&lt;/b&gt;";
                       "count" := VBool true]}];
         trace := [] |}.
Proof.
  apply (formatHTMLMessage_escapes (H := example_host) false (VRef 0)
           example_state (VRef 12) (VRef 13) example_world).
  vm_compute. lia.
Defined.

Lemma formatMessage_fast_path_witness :
  formatMessage (H := example_host) true (VRef 0) example_state (VRef 12)
    VUndefined example_world
  = (inr (VStr "Hello, {name}!"),
     {| objects := example_objects ++ [plain ∅]; trace := [] |}).
Proof.
  apply (formatMessage_fast_path (H := example_host) (VRef 0) example_state
           (VRef 12) VUndefined example_world);
    [reflexivity | discriminate | exact I | reflexivity | reflexivity].
Defined.

Section FormatterClaims.
Context `{Host}.
Variable production : bool.

(** C5, as the code has it. [formatNumber], [formatDate] and [formatTime]
    delegate: for a config and options that are objects of a closed store,
    and options whose [format] is not [null], the outcome of the call is the
    outcome of the formatter that the constructor of [state] returns for the
    locale of [config] and a fresh object holding the whitelist-filtered
    merge of the options over the defaults of the named format, applied to
    the value (to [new Date(value)] for a date or a time). *)
Theorem format_delegation config state value options w :
  let h := objects w in
  let locale := read h config "locale" in
  let merged whitelist type :=
    plain (filtered_merge whitelist (own h options)
             (own h (defaults_of h (read h config "formats") type
                       (read h options "format")))) in
  closed h → allocated h config → nullish config = false →
  allocated h value →
  object_or_omitted h options → read h options "format" ≠ VNull →
  delegates (getNumberFormat state) h locale
    (merged NUMBER_FORMAT_OPTIONS "number") (λ _ arg, arg = value)
    (fst (formatNumber production config state value options w))
  ∧ delegates (getDateTimeFormat state) h locale
      (merged DATE_TIME_FORMAT_OPTIONS "date") (date_of h value)
      (fst (formatDate production config state value options w))
  ∧ delegates (getDateTimeFormat state) h locale
      (merged DATE_TIME_FORMAT_OPTIONS "time") (date_of h value)
      (fst (formatTime production config state value options w)).
Proof.
  intros h locale merged Hc Hcfg Ncfg Hv Hopt Hfmt.
  subst merged locale h. unfold delegates, date_of.
  split; [|split].
  - rewrite formatNumber_run by done. cbn [fst].
    match goal with
    | |- context [delegate (getNumberFormat _ ?hh _ (VRef ?l)) _ _ = _] =>
        exists hh, l, value
    end.
    split; [prefix_solve|]. split; [rewrite !length_app; lia|].
    split; [apply lookup_last|done].
  - rewrite formatDate_run by done. cbn [fst].
    match goal with
    | |- context [delegate (getDateTimeFormat _ ?hh _ (VRef ?l)) _ [?d]
                  = _] =>
        exists hh, l, d
    end.
    split; [prefix_solve|]. split; [rewrite !length_app; lia|].
    split; [apply lookup_last|]. split; [|reflexivity].
    eexists. split; [reflexivity|].
    rewrite <- !app_assoc, (app_assoc (objects w) (default_pad options)).
    by apply list_lookup_middle.
  - rewrite formatTime_run by done. cbn [fst].
    match goal with
    | |- context [delegate (getDateTimeFormat _ ?hh _ (VRef ?l)) _ [?d]
                  = _] =>
        exists hh, l, d
    end.
    split; [prefix_solve|]. split; [rewrite !length_app; lia|].
    split; [apply lookup_last|]. split; [|reflexivity].
    eexists. split; [reflexivity|].
    rewrite <- !app_assoc, (app_assoc (objects w) (default_pad options)).
    by apply list_lookup_middle.
Qed.

(** C8. The options that [formatDate], [formatTime], [formatRelative] and
    [formatNumber] pass to the formatter constructor: a key is passed if and
    only if it is in the whitelist and is a key of the options or of the
    defaults of the named format; its value is that of the options where
    they have the key, and that of the defaults otherwise. *)
Theorem options_precedence config state value options w :
  let h := objects w in
  let locale := read h config "locale" in
  let defaults type :=
    own h (defaults_of h (read h config "formats") type
             (read h options "format")) in
  closed h → allocated h config → nullish config = false →
  allocated h value →
  object_or_omitted h options → read h options "format" ≠ VNull →
  constructed_with GetDateTimeFormat DATE_TIME_FORMAT_OPTIONS locale
    (own h options) (defaults "date")
    (formatDate production config state value options w)
  ∧ constructed_with GetDateTimeFormat DATE_TIME_FORMAT_OPTIONS locale
      (own h options) (defaults "time")
      (formatTime production config state value options w)
  ∧ constructed_with GetRelativeFormat RELATIVE_FORMAT_OPTIONS locale
      (own h options) (defaults "relative")
      (formatRelative production config state value options w)
  ∧ constructed_with GetNumberFormat NUMBER_FORMAT_OPTIONS locale
      (own h options) (defaults "number")
      (formatNumber production config state value options w).
Proof.
  intros h locale defaults Hc Hcfg Ncfg Hv Hopt Hfmt.
  subst defaults locale h. unfold constructed_with.
  split; [|split; [|split]].
  - rewrite formatDate_run by done. cbn [snd objects trace].
    eexists _, _. split; [|split; [apply lookup_last|]].
    + apply elem_of_app. right. apply elem_of_app. right. by left.
    + apply forwards_filtered_merge.
  - rewrite formatTime_run by done. cbn [snd objects trace].
    eexists _, _. split; [|split; [apply lookup_last|]].
    + apply elem_of_app. right. apply elem_of_app. right. by left.
    + apply forwards_filtered_merge.
  - rewrite formatRelative_run by done.
    destruct (getRelativeFormat _ _ _ _) as [e|rf];
      [|destruct (reference_time _ _ _ _) as [e|reference]];
      cbn [snd objects trace];
      (eexists _, _; split; [|split; [|apply forwards_filtered_merge]]);
      try apply lookup_last; try apply lookup_filtered;
      apply elem_of_app; right; apply elem_of_app; right; by left.
  - rewrite formatNumber_run by done. cbn [snd objects trace].
    eexists _, _. split; [|split; [apply lookup_last|]].
    + apply elem_of_app. right. apply elem_of_app. right. by left.
    + apply forwards_filtered_merge.
Qed.

(** C9. The reference time of [formatRelative]: where [new Date(options.now)]
    is a valid date, that date is passed as [now] to the relative formatter
    and [state.now] is not called; otherwise, and so where [options.now] is
    absent or [undefined], what [state.now()] returns is passed. *)
Theorem formatRelative_reference_time config state value options w :
  let h := objects w in
  let t := time_of h (read h options "now") in
  closed h → allocated h config → nullish config = false →
  allocated h value →
  object_or_omitted h options → read h options "format" ≠ VNull →
  (read h options "now" = VUndefined → t = None)
  ∧ passes_reference state h (read h config "locale") (time_of h value) t w
      (formatRelative production config state value options w).
Proof.
  intros h t Hc Hcfg Ncfg Hv Hopt Hfmt.
  split; [intros Hu; subst t; by rewrite Hu|].
  unfold passes_reference.
  rewrite formatRelative_run by done. fold h t.
  match goal with
  | |- context [getRelativeFormat state ?hh _ (VRef ?l)] =>
      exists hh, l
  end.
  exists (List.length (h ++ default_pad options)),
    (List.length ((h ++ default_pad options)
                  ++ [date_object (time_of h value)])).
  split; [prefix_solve|].
  split; [rewrite <- !app_assoc, (app_assoc h (default_pad options));
          by apply list_lookup_middle|].
  split.
  { rewrite <- (app_assoc _ (default_pad (defaults_of _ _ _ _)) [_]).
    apply lookup_filtered. }
  destruct (getRelativeFormat _ _ _ _) as [e|rf]; [done|].
  destruct t as [z|]; cbn [reference_time].
  - split; [done|]. cbn [snd trace]. eexists. split; [reflexivity|].
    rewrite app_nil_l. apply not_elem_of_app. split.
    + unfold defaults_log, named_format_log.
      repeat case_match; try apply not_elem_of_nil.
      by intros [=]%list_elem_of_singleton.
    + intros Hin. repeat (apply elem_of_cons in Hin as [[=]|Hin]).
      by apply not_elem_of_nil in Hin.
  - by destruct (now state _).
Qed.
End FormatterClaims.

Lemma format_delegation_witness :
  let h := example_objects in
  delegates (getNumberFormat example_state) h (VStr "en-US")
    (plain (filtered_merge (NUMBER_FORMAT_OPTIONS (Host := example_host))
              {["format" := VStr "percent"; "style" := VStr "decimal"]}
              {["style" := VStr "percent"; "useGrouping" := VBool false;
                "comment" := VStr "not an option"]}))
    (λ _ arg, arg = VNum (S754_finite false 1 (-1)))
    (fst (formatNumber (H := example_host) false (VRef 0) example_state
            (VNum (S754_finite false 1 (-1))) (VRef 9) example_world)).
Proof.
  apply (format_delegation (H := example_host) false (VRef 0) example_state
           (VNum (S754_finite false 1 (-1))) (VRef 9) example_world);
    [exact example_closed | vm_compute; lia | reflexivity | exact I
    | vm_compute; lia | discriminate ].
Defined.

(** C5, as it is stated, fails. Options whose [format] is [null] are passed
    on with [null] as the defaults, which the default [= {}] does not
    replace: [formatNumber] throws a [TypeError] and calls no method of
    [state], where the claim has it return what the number formatter
    answers. *)
Lemma format_delegation_null_format_counterexample :
  read example_objects (VRef 16) "format" = VNull
  ∧ fst (formatNumber (H := example_host) false (VRef 0) example_state
           (VNum (S754_finite false 1 (-1))) (VRef 16) example_world)
    = inl TypeError
  ∧ trace (snd (formatNumber (H := example_host) false (VRef 0)
                  example_state (VNum (S754_finite false 1 (-1))) (VRef 16)
                  example_world))
    = []
  ∧ ¬ delegates (getNumberFormat example_state) example_objects
        (VStr "en-US")
        (plain (filtered_merge (NUMBER_FORMAT_OPTIONS (Host := example_host))
                  (own example_objects (VRef 16)) ∅))
        (λ _ arg, arg = VNum (S754_finite false 1 (-1)))
        (fst (formatNumber (H := example_host) false (VRef 0) example_state
                (VNum (S754_finite false 1 (-1))) (VRef 16) example_world)).
Proof.
  split; [reflexivity|]. split; [reflexivity|]. split; [reflexivity|].
  intros (h' & filtered & arg & _ & _ & _ & _ & Heq).
  change (fst (formatNumber (H := example_host) false (VRef 0) example_state
                 (VNum (S754_finite false 1 (-1))) (VRef 16) example_world))
    with (@inl exn val TypeError) in Heq.
  discriminate Heq.
Qed.

Lemma options_precedence_witness :
  constructed_with GetNumberFormat
    (NUMBER_FORMAT_OPTIONS (Host := example_host)) (VStr "en-US")
    {["format" := VStr "percent"; "style" := VStr "decimal"]}
    {["style" := VStr "percent"; "useGrouping" := VBool false;
      "comment" := VStr "not an option"]}
    (formatNumber (H := example_host) false (VRef 0) example_state
       (VNum (S754_finite false 1 (-1))) (VRef 9) example_world).
Proof.
  apply (options_precedence (H := example_host) false (VRef 0) example_state
           (VNum (S754_finite false 1 (-1))) (VRef 9) example_world);
    [exact example_closed | vm_compute; lia | reflexivity | exact I
    | vm_compute; lia | discriminate ].
Defined.

Lemma formatRelative_reference_time_witness :
  passes_reference example_state example_objects (VStr "en-US")
    (Some 0%Z) (Some 1000%Z) example_world
    (formatRelative (H := example_host) false (VRef 0) example_state VNull
       (VRef 11) example_world).
Proof.
  apply (formatRelative_reference_time (H := example_host) false (VRef 0)
           example_state VNull (VRef 11) example_world);
    [exact example_closed | vm_compute; lia | reflexivity | exact I
    | vm_compute; lia | discriminate ].
Defined.

(** What the examples compute to. The options of object 9 name the format
    [percent] and set [style]: the style passed is that of the options, and
    [useGrouping] comes from the named format. With options whose [format]
    is [null], [null] is passed on as the defaults, and reading a property
    of it throws. *)
Example formatNumber_example :
  fst (formatNumber (H := example_host) false (VRef 0) example_state
         (VNum (S754_finite false 1 (-1))) (VRef 9) example_world)
  = inr (VStr "decimal")
  ∧ filtered_merge (NUMBER_FORMAT_OPTIONS (Host := example_host))
      {["format" := VStr "percent"; "style" := VStr "decimal"]}
      {["style" := VStr "percent"; "useGrouping" := VBool false;
        "comment" := VStr "not an option"]}
    = {["style" := VStr "decimal"; "useGrouping" := VBool false]}.
Proof. split; reflexivity. Qed.

Example formatNumber_null_format :
  fst (formatNumber (H := example_host) false (VRef 0) example_state
         (VNum (S754_finite false 1 (-1))) (VRef 16) example_world)
  = inl TypeError.
Proof. reflexivity. Qed.

Section ModuleClaims.
Context `{Host}.

Lemma elem_of_after (log : list event) (e : event) rest :
  e ∈ log ++ e :: rest.
Proof. apply elem_of_app. right. by left. Qed.

(** C6, as the code has it. The module exports seven formatting functions.
    Each of them logs and calls the one formatter constructor of [state]
    that is its own, the formatter, and for a relative time [state.now], and
    nothing else. Five of them, for a config that is an object and options
    that are an object or omitted, obtain the formatter from [state] and
    return what it answers: [formatPlural] always, the four that read a
    named format where the [format] of the options is not [null].
    [formatMessage], outside the production fast path, obtains from [state]
    the formatter of the catalog message, or that of the default message
    where the catalog has none, and returns what it answers where that is
    truthy. The seventh, [formatHTMLMessage], calls no method of [state]
    itself: it calls [formatMessage] on a fresh object of the escaped
    values. *)
Theorem exports_delegate :
  List.length exports = 7
  ∧ NoDup (export_name <$> exports)
  ∧ Forall (λ e, ∀ production config state a b w,
              ∃ events,
                trace (snd (export_run e production config state a b w))
                = trace w ++ events
                ∧ Forall (from_formatter (constructor e)) events) exports
  ∧ (∀ production config state value options w,
       let h := objects w in
       let locale := read h config "locale" in
       closed h → allocated h config → nullish config = false →
       allocated h value → object_or_omitted h options →
       obtains_formatter (getPluralFormat state) GetPluralFormat
         (now state) locale w
         (formatPlural config state value options w)
       ∧ (read h options "format" ≠ VNull →
          obtains_formatter (getDateTimeFormat state) GetDateTimeFormat
            (now state) locale w
            (formatDate production config state value options w)
          ∧ obtains_formatter (getDateTimeFormat state) GetDateTimeFormat
              (now state) locale w
              (formatTime production config state value options w)
          ∧ obtains_formatter (getRelativeFormat state) GetRelativeFormat
              (now state) locale w
              (formatRelative production config state value options w)
          ∧ obtains_formatter (getNumberFormat state) GetNumberFormat
              (now state) locale w
              (formatNumber production config state value options w)))
  ∧ (∀ production config state messageDescriptor values w mf v,
       let h := objects w in
       let id := read h messageDescriptor "id" in
       let message := catalog_message h config id in
       let locale := read h config "locale" in
       let formats := read h config "formats" in
       let hm := message_heap h messageDescriptor values in
       let vs := message_values h messageDescriptor values in
       let run :=
         formatMessage production config state messageDescriptor values w in
       nullish config = false → messageDescriptor ≠ VNull →
       object_or_omitted h values → truthy id = true →
       fast_path production h values = false → truthy message = true →
       ∃ events,
         trace (snd run)
         = trace w ++ Call GetMessageFormat [message; locale; formats]
                      :: events
         ∧ (getMessageFormat state hm message locale formats = inr mf →
            mf hm [vs] = inr v → truthy v = true →
            Call Format [vs] ∈ events ∧ fst run = inr v))
  ∧ (∀ production config state messageDescriptor values w mf v,
       let h := objects w in
       let id := read h messageDescriptor "id" in
       let defaultMessage := read h messageDescriptor "defaultMessage" in
       let message := catalog_message h config id in
       let locale := read h config "locale" in
       let defaultLocale := read h config "defaultLocale" in
       let defaultFormats := read h config "defaultFormats" in
       let hm := message_heap h messageDescriptor values in
       let vs := message_values h messageDescriptor values in
       let run :=
         formatMessage production config state messageDescriptor values w in
       nullish config = false → messageDescriptor ≠ VNull →
       object_or_omitted h values → truthy id = true →
       fast_path production h values = false →
       truthy message = false → truthy defaultMessage = true →
       comparable production message defaultMessage locale defaultLocale →
       ∃ log events,
         trace (snd run)
         = trace w ++ log
           ++ Call GetMessageFormat
                [defaultMessage; defaultLocale; defaultFormats]
              :: events
         ∧ Forall is_console_error log
         ∧ (getMessageFormat state hm defaultMessage defaultLocale
              defaultFormats = inr mf →
            mf hm [vs] = inr v → truthy v = true →
            Call Format [vs] ∈ events ∧ fst run = inr v))
  ∧ ∀ production config state messageDescriptor rawValues w,
      object_or_omitted (objects w) rawValues →
      ∃ escaped w',
        formatHTMLMessage production config state messageDescriptor
          rawValues w
        = formatMessage production config state messageDescriptor
            (VRef escaped) w'
        ∧ trace w' = trace w
        ∧ (List.length (objects w) ≤ escaped)%nat
        ∧ take (List.length (objects w)) (objects w') = objects w
        ∧ objects w' !! escaped
          = Some (plain (escape_value <$> own (objects w) rawValues)).
Proof.
  split; [reflexivity|]. split; [by apply (bool_decide_unpack _)|].
  split; [|split; [|split; [|split]]].
  - unfold exports. repeat constructor; cbn [export_run constructor]; intros;
      apply events_of_keeps.
    + apply keeps_formatDate; cbn; auto.
    + apply keeps_formatTime; cbn; auto.
    + apply keeps_formatRelative; cbn; auto.
    + apply keeps_formatNumber; cbn; auto.
    + apply keeps_formatPlural; cbn; auto.
    + apply keeps_formatMessage; cbn; auto.
    + apply keeps_formatHTMLMessage; cbn; auto.
  - intros production config state value options w h locale Hc Hcfg Ncfg Hv
      Hopt.
    subst locale. unfold obtains_formatter.
    split; [|intros Hfmt; split; [|split; [|split]]].
    + rewrite formatPlural_run by done. fold h.
      match goal with
      | |- context [delegate (getPluralFormat _ ?hh _ (VRef ?l)) _ _] =>
          exists hh, l
      end.
      cbn [fst snd objects trace]. eexists. split; [reflexivity|].
      split; [prefix_solve|]. split; [done|].
      split; [rewrite !length_app; cbn; lia|].
      split; [by left|]. unfold delegate.
      destruct (getPluralFormat _ _ _ _) as [e|f]; [done|]. left.
      eexists. split; [|reflexivity]. right. by left.
    + rewrite formatDate_run by done. fold h.
      match goal with
      | |- context [delegate (getDateTimeFormat _ ?hh _ (VRef ?l)) _ _] =>
          exists hh, l
      end.
      cbn [fst snd objects trace]. eexists. split; [reflexivity|].
      split; [prefix_solve|]. split; [done|].
      split; [rewrite !length_app; cbn; lia|].
      split; [apply elem_of_after|]. unfold delegate.
      destruct (getDateTimeFormat _ _ _ _) as [e|f]; [done|]. left.
      eexists. split; [|reflexivity].
      apply elem_of_app. right. right. by left.
    + rewrite formatTime_run by done. fold h.
      match goal with
      | |- context [delegate (getDateTimeFormat _ ?hh _ (VRef ?l)) _ _] =>
          exists hh, l
      end.
      cbn [fst snd objects trace]. eexists. split; [reflexivity|].
      split; [prefix_solve|]. split; [done|].
      split; [rewrite !length_app; cbn; lia|].
      split; [apply elem_of_after|]. unfold delegate.
      destruct (getDateTimeFormat _ _ _ _) as [e|f]; [done|]. left.
      eexists. split; [|reflexivity].
      apply elem_of_app. right. right. by left.
    + rewrite formatRelative_run by done. fold h.
      match goal with
      | |- context [getRelativeFormat state ?h2 _ (VRef ?l)] =>
          exists h2, l
      end.
      destruct (getRelativeFormat _ _ _ _) as [e|rf] eqn:Erf;
        [|destruct (reference_time _ _ _ _) as [e|reference] eqn:Eref];
        cbn [fst snd objects trace];
        (eexists; split; [reflexivity|]); (split; [prefix_solve|]).
      * split; [done|]. split; [rewrite !length_app; cbn; lia|].
        by split; [apply elem_of_after|].
      * split; [done|]. split; [rewrite !length_app; cbn; lia|].
        split; [apply elem_of_after|]. right.
        split; [done|]. exists e. split; [|done].
        revert Eref. unfold reference_time. by case_match.
      * split; [prefix_solve|]. split; [rewrite !length_app; cbn; lia|].
        split; [apply elem_of_after|]. left.
        eexists. split; [|reflexivity].
        apply elem_of_app. right. right.
        apply elem_of_app. right. by left.
    + rewrite formatNumber_run by done. fold h.
      match goal with
      | |- context [delegate (getNumberFormat _ ?hh _ (VRef ?l)) _ _] =>
          exists hh, l
      end.
      cbn [fst snd objects trace]. eexists. split; [reflexivity|].
      split; [prefix_solve|]. split; [done|].
      split; [rewrite !length_app; cbn; lia|].
      split; [apply elem_of_after|]. unfold delegate.
      destruct (getNumberFormat _ _ _ _) as [e|f]; [done|]. left.
      eexists. split; [|reflexivity].
      apply elem_of_app. right. right. by left.
  - intros production config state messageDescriptor values w mf v h id
      message locale formats hm vs run Ncfg Nmd Hvs Tid Hfast Tm.
    assert (values ≠ VNull) as Nvs by (by destruct values).
    subst run. rewrite formatMessage_run; try done;
      [|unfold comparable; fold h id message; intros; congruence].
    unfold message_fallback, message_candidates, message_log.
    fold h id message locale formats hm vs.
    rewrite Hfast, Tm. unfold attempt, attempt_log, delegate.
    cbn [fst snd trace]. eexists. split; [reflexivity|].
    intros Hmf Hv Tv. rewrite Hmf, Hv.
    cbn [formatter_result first_truthy]. rewrite Tv.
    split; [by left|done].
  - intros production config state messageDescriptor values w mf v h id
      defaultMessage message locale defaultLocale defaultFormats hm vs run
      Ncfg Nmd Hvs Tid Hfast Tm Td Hcmp.
    assert (values ≠ VNull) as Nvs by (by destruct values).
    subst run. rewrite formatMessage_run by done.
    unfold message_fallback, message_candidates, message_log.
    fold h id defaultMessage message locale defaultLocale defaultFormats hm
      vs.
    rewrite Hfast, Tm, Td. cbn [truthy negb andb fst snd trace].
    unfold attempt, attempt_log, delegate.
    eexists (missing_log production hm id locale defaultLocale
               defaultMessage), _.
    split; [reflexivity|]. split.
    { unfold missing_log, console_log. repeat case_match;
        by repeat constructor. }
    intros Hmf Hv Tv. rewrite Hmf, Hv.
    cbn [formatter_result first_truthy truthy]. rewrite Tv.
    split; [by left|done].
  - intros production config state messageDescriptor rawValues w Hraw.
    rewrite formatHTMLMessage_run by done.
    eexists _, _. split; [reflexivity|]. cbn [objects trace].
    split; [done|]. split; [rewrite length_app; lia|].
    split; [rewrite <- app_assoc; by rewrite take_app_length|].
    apply lookup_last.
Qed.

(** C7. No function of the module changes an object that exists when it is
    called: after the call the store begins with the store before it, so
    the config, the options, the values, the message descriptor and the raw
    values hold what they held. The object of options that
    [filterFormatOptions] returns and the object of escaped values that
    [formatHTMLMessage] passes on are new ones. *)
Theorem formatters_preserve_inputs :
  Forall (λ e, ∀ production config state a b w,
            take (List.length (objects w))
              (objects (snd (export_run e production config state a b w)))
            = objects w) exports
  ∧ (∀ whitelist obj defaults w,
       let run := filterFormatOptions whitelist obj defaults w in
       take (List.length (objects w)) (objects (snd run)) = objects w
       ∧ match fst run with
         | inr v => ∃ l, v = VRef l ∧ (List.length (objects w) ≤ l)%nat
         | inl _ => True
         end)
  ∧ ∀ production config state messageDescriptor rawValues w,
      object_or_omitted (objects w) rawValues →
      ∃ escaped w',
        (List.length (objects w) ≤ escaped)%nat
        ∧ take (List.length (objects w)) (objects w') = objects w
        ∧ formatHTMLMessage production config state messageDescriptor
            rawValues w
          = formatMessage production config state messageDescriptor
              (VRef escaped) w'.
Proof.
  split; [|split].
  - unfold exports. repeat constructor; cbn [export_run]; intros;
      apply frame_of_keeps.
    + apply keeps_formatDate; cbn; auto.
    + apply keeps_formatTime; cbn; auto.
    + apply keeps_formatRelative; cbn; auto.
    + apply keeps_formatNumber; cbn; auto.
    + apply keeps_formatPlural; cbn; auto.
    + apply keeps_formatMessage; cbn; auto.
    + apply keeps_formatHTMLMessage; cbn; auto.
  - intros whitelist obj defaults w run.
    destruct (keeps_filterFormatOptions
                (D := frame_discipline (List.length (objects w)))
                (λ _, True) I whitelist obj defaults w) as (_ & Hr & Hq);
      [cbn; lia|].
    fold run in Hr, Hq. split.
    + cbn in Hr. by rewrite Hr, firstn_all.
    + by destruct (fst run) as [|v].
  - intros production config state messageDescriptor rawValues w Hraw.
    rewrite formatHTMLMessage_run by done.
    eexists _, _. split; [|split; [|reflexivity]].
    + rewrite length_app. lia.
    + cbn [objects]. rewrite <- app_assoc. by rewrite take_app_length.
Qed.
End ModuleClaims.

Lemma exports_delegate_witness :
  obtains_formatter (getNumberFormat example_state) GetNumberFormat
    (now example_state) (VStr "en-US") example_world
    (formatNumber (H := example_host) false (VRef 0) example_state
       (VNum (S754_finite false 1 (-1))) (VRef 9) example_world).
Proof.
  destruct (exports_delegate (H := example_host)) as (_ & _ & _ & Hfive & _).
  apply (Hfive false (VRef 0) example_state
           (VNum (S754_finite false 1 (-1))) (VRef 9) example_world);
    [exact example_closed | vm_compute; lia | reflexivity | exact I
    | vm_compute; lia | discriminate ].
Defined.

Lemma formatters_preserve_inputs_witness :
  ∃ escaped w',
    (List.length example_objects ≤ escaped)%nat
    ∧ take (List.length example_objects) (objects w') = example_objects
    ∧ formatHTMLMessage (H := example_host) false (VRef 0) example_state
        (VRef 12) (VRef 13) example_world
      = formatMessage (H := example_host) false (VRef 0) example_state
          (VRef 12) (VRef escaped) w'.
Proof.
  destruct (formatters_preserve_inputs (H := example_host))
    as (_ & _ & Hescaped).
  apply (Hescaped false (VRef 0) example_state (VRef 12) (VRef 13)
           example_world).
  vm_compute. lia.
Defined.

(** C6, as it is stated, fails: the formatting functions that the module
    exports are seven, not six. *)
Lemma exports_not_six :
  List.length (exports (H := example_host)) ≠ 6
  ∧ export_name <$> exports (H := example_host)
    = ["formatDate"; "formatTime"; "formatRelative"; "formatNumber";
       "formatPlural"; "formatMessage"; "formatHTMLMessage"].
Proof. split; [discriminate|reflexivity]. Qed.


(** * Further properties of the module

    ** Named formats and the filter of options *)

Section NamedFormats.
Context `{Host}.

End NamedFormats.

Section FilterErrors.
Context `{Host}.

Lemma filtered_merge_alone whitelist (options : gmap string val) :
  filtered_merge whitelist options ∅
  = filter (λ kv, kv.1 ∈ whitelist) options.
Proof. unfold filtered_merge. by rewrite (right_id_L ∅ (∪)). Qed.

Lemma filtered_merge_idempotent whitelist (options defaults : gmap string val) :
  filtered_merge whitelist (filtered_merge whitelist options defaults) ∅
  = filtered_merge whitelist options defaults.
Proof.
  apply map_eq; intros k.
  rewrite !filtered_merge_lookup, (right_id_L ∅ (∪)), filtered_merge_lookup.
  by case_decide.
Qed.

(** The loop of [filterFormatOptions] where the defaults are [null]: it
    ends where every name of the whitelist is a key of the object. *)
Lemma filter_loop_null whitelist obj (h : heap) tr : ∀ acc,
  allocated h obj → nullish obj = false →
  Forall (λ name, is_Some (own h obj !! name)) whitelist →
  reduce (λ (opts : val) (name : string),
      own ← hasOwnProperty obj name;
      if (own : bool) then
        v ← get obj name; set opts name v;; ret opts
      else
        own' ← hasOwnProperty VNull name;
        if (own' : bool) then
          v ← get VNull name; set opts name v;; ret opts
        else ret opts)
    whitelist (VRef (List.length h))
    {| objects := h ++ [plain acc]; trace := tr |}
  = (inr (VRef (List.length h)),
     {| objects :=
          h ++ [plain (fold_left (merge_step (own h obj) ∅) whitelist acc)];
        trace := tr |}).
Proof.
  induction whitelist as [|name wl IH]; intros acc Ho No Hall; [done|].
  apply Forall_cons in Hall as [[v Hv] Hall].
  cbn [reduce fold_left].
  rewrite run_bind, run_bind, hasOwnProperty_run by done. cbn [objects].
  rewrite (own_app _ _ _ Ho), bool_decide_eq_true_2 by eauto.
  rewrite run_bind, get_run by done. cbn [objects].
  rewrite run_bind, set_fresh, read_app by done.
  unfold merge_step at 2, read. rewrite Hv. cbn [default]. by apply IH.
Qed.

Lemma filter_loop_throws whitelist obj (h : heap) tr : ∀ acc,
  allocated h obj → nullish obj = false →
  ¬ Forall (λ name, is_Some (own h obj !! name)) whitelist →
  fst (reduce (λ (opts : val) (name : string),
           own ← hasOwnProperty obj name;
           if (own : bool) then
             v ← get obj name; set opts name v;; ret opts
           else
             own' ← hasOwnProperty VNull name;
             if (own' : bool) then
               v ← get VNull name; set opts name v;; ret opts
             else ret opts)
         whitelist (VRef (List.length h))
         {| objects := h ++ [plain acc]; trace := tr |})
  = inl TypeError.
Proof.
  induction whitelist as [|name wl IH]; intros acc Ho No Hall.
  { by destruct Hall. }
  cbn [reduce].
  rewrite run_bind, run_bind, hasOwnProperty_run by done. cbn [objects].
  rewrite (own_app _ _ _ Ho).
  destruct (own h obj !! name) as [v|] eqn:Hv.
  - rewrite bool_decide_eq_true_2 by eauto.
    rewrite run_bind, get_run by done. cbn [objects].
    rewrite run_bind, set_fresh, read_app by done.
    apply IH; [done..|]. intros Hwl. apply Hall. constructor; [|done].
    rewrite Hv. eauto.
  - by rewrite bool_decide_eq_false_2 by (by intros [? ?]).
Qed.

(** X2. Where [filterFormatOptions] throws. An object that is [null] or
    [undefined] is an error as soon as the whitelist has a name, and no error
    with an empty whitelist. Defaults that are [null] are not replaced by [{}]
    as omitted ones are: they are an error exactly where the object lacks a
    name of the whitelist, since the defaults are asked only for the names
    that the object does not have. *)
Theorem filterFormatOptions_type_errors whitelist obj defaults w :
  let h := objects w in
  let run := filterFormatOptions whitelist obj defaults w in
  (whitelist = [] →
     ∃ l, fst run = inr (VRef l) ∧ objects (snd run) !! l = Some (plain ∅))
  ∧ (nullish obj = true → whitelist ≠ [] → fst run = inl TypeError)
  ∧ (is_object h obj → defaults = VNull →
     (Forall (λ name, is_Some (own h obj !! name)) whitelist →
        ∃ l, fst run = inr (VRef l)
             ∧ objects (snd run) !! l
               = Some (plain (filter (λ kv, kv.1 ∈ whitelist) (own h obj))))
     ∧ (¬ Forall (λ name, is_Some (own h obj !! name)) whitelist →
        fst run = inl TypeError)).
Proof.
  intros h run. subst run h. destruct w as [h tr]. cbn [objects].
  unfold filterFormatOptions.
  rewrite run_bind, default_param_run. cbn [objects trace].
  rewrite run_bind. cbn [alloc objects trace].
  split; [|split].
  - intros ->. cbn [reduce]. eexists. split; [reflexivity|].
    cbn [snd objects]. apply lookup_last.
  - intros No Hwl. destruct whitelist as [|name wl]; [done|].
    cbn [reduce]. by destruct obj.
  - intros Ho ->.
    assert (allocated h obj ∧ nullish obj = false) as [Ha No]
      by (by destruct obj).
    cbn [default_pad defaulted]. rewrite app_nil_r. split; intros Hall.
    + rewrite filter_loop_null by done. eexists. split; [reflexivity|].
      cbn [snd objects].
      rewrite (fold_merge whitelist (own h obj) ∅), filtered_merge_alone.
      apply lookup_last.
    + by apply filter_loop_throws.
Qed.

(** X3. Filtering what [filterFormatOptions] returned, with the same whitelist
    and no defaults, gives a new object with the same properties, and leaves
    the first one as it is. *)
Theorem filterFormatOptions_idempotent whitelist obj defaults w :
  let h := objects w in
  is_object h obj → object_or_omitted h defaults →
  ∃ filtered w1 again w2,
    filterFormatOptions whitelist obj defaults w = (inr (VRef filtered), w1)
    ∧ filterFormatOptions whitelist (VRef filtered) VUndefined w1
      = (inr (VRef again), w2)
    ∧ filtered ≠ again
    ∧ own (objects w2) (VRef again) = own (objects w1) (VRef filtered)
    ∧ own (objects w2) (VRef filtered) = own (objects w1) (VRef filtered).
Proof.
  intros h Ho Hd.
  assert (allocated h obj ∧ nullish obj = false) as [Ha No]
    by (by destruct obj).
  assert (allocated h defaults ∧ defaults ≠ VNull) as [Had Nd]
    by (by destruct defaults).
  rewrite filterFormatOptions_run by done. fold h.
  set (h1 := h ++ default_pad defaults).
  set (merged := filtered_merge whitelist (own h obj) (own h defaults)).
  assert (own (h1 ++ [plain merged]) (VRef (List.length h1)) = merged) as Hown
    by (cbn; by rewrite object_at_fresh).
  pose proof (filterFormatOptions_run whitelist (VRef (List.length h1))
                VUndefined
                {| objects := h1 ++ [plain merged]; trace := trace w |})
    as Hrun.
  cbn [objects trace default_pad] in Hrun. rewrite Hown in Hrun.
  change (own (h1 ++ [plain merged]) VUndefined)
    with (∅ : gmap string val) in Hrun.
  rewrite (filtered_merge_idempotent whitelist (own h obj) (own h defaults)
             : filtered_merge whitelist merged ∅ = merged) in Hrun.
  eexists _, _, _, _. split; [reflexivity|].
  split; [apply Hrun; try done; cbn; rewrite length_app; cbn; lia|].
  cbn [objects]. split; [rewrite !length_app; cbn; lia|].
  split.
  - cbn [own]. by rewrite !object_at_fresh.
  - apply own_ext; [prefix_solve|]. cbn. rewrite length_app. cbn. lia.
Qed.
End FilterErrors.

(** ** The functions that delegate to a formatter *)

Lemma null_or_not (v : val) : v = VNull ∨ v ≠ VNull.
Proof. destruct v; auto; by right. Qed.

Section DatesAndTimes.
Context `{Host}.
Variable production : bool.

(** X4. [formatTime] differs from [formatDate] in the table of named formats
    that it reads, and in nothing else: for options that name no format
    ([format] absent or falsy) the two calls are the same, whatever the
    arguments are. No option of a time is set by default. *)
Theorem formatTime_is_formatDate config state value options w :
  truthy (read (objects w) options "format") = false →
  formatTime production config state value options w
  = formatDate production config state value options w.
Proof.
  destruct w as [h tr]. cbn [objects]. intros Hformat.
  unfold formatTime, formatDate.
  rewrite !(run_bind (default_param _)), default_param_run.
  cbn [objects trace].
  destruct (nullish config) eqn:Ncfg; [by destruct config|].
  rewrite !(run_bind (get config _)), !get_run by done.
  rewrite !(run_bind (get config _)), !get_run by done.
  destruct (null_or_not options) as [->|No]; [done|].
  rewrite !(run_bind (get _ _)), !get_run by by apply nullish_defaulted.
  cbn [objects]. rewrite !read_pad, read_self_defaulted.
  by rewrite Hformat.
Qed.
End DatesAndTimes.

Section Plural.
Context `{Host}.

(** X5. [formatPlural] delegates to the plural formatter of the locale,
    constructed with a fresh object that holds the whitelisted keys of the
    options. It reads no named format: the outcome does not depend on
    [config.formats] or on [options.format], and nothing is logged in any
    build. The calls made into [state] are the constructor and, where it
    returned a formatter, that formatter. *)
Theorem formatPlural_delegates config state value options w :
  let h := objects w in
  let locale := read h config "locale" in
  let run := formatPlural config state value options w in
  allocated h config → nullish config = false →
  object_or_omitted h options →
  delegates (getPluralFormat state) h locale
    (plain (filter (λ kv, kv.1 ∈ PLURAL_FORMAT_OPTIONS) (own h options)))
    (λ _ arg, arg = value) (fst run)
  ∧ ∃ filtered,
      trace (snd run)
      = trace w
        ++ Call GetPluralFormat [locale; VRef filtered]
           :: match getPluralFormat state (objects (snd run)) locale
                      (VRef filtered) with
              | inr _ => [Call Format [value]]
              | inl _ => []
              end.
Proof.
  intros h locale run Hcfg Ncfg Hopt. subst run locale h.
  rewrite formatPlural_run by done. cbn [fst snd objects trace].
  rewrite filtered_merge_alone. split.
  - unfold delegates.
    match goal with
    | |- context [delegate (getPluralFormat _ ?hh _ (VRef ?l)) _ _ = _] =>
        exists hh, l, value
    end.
    split; [prefix_solve|]. split; [rewrite !length_app; lia|].
    split; [apply lookup_last|done].
  - by eexists.
Qed.
End Plural.

Section NullArguments.
Context `{Host}.
Variable production : bool.

(** X6. The default [= {}] of the last parameter stands in for an argument
    that is omitted or [undefined], not for [null]. With [null] options every
    function that formats a date, a time, a relative time or a number throws a
    [TypeError] before it calls [state], whatever the other arguments are; so
    does [formatPlural] where its whitelist has a name, and so does
    [formatHTMLMessage] with [null] values, before it looks at the descriptor.
    [formatMessage] throws for a [null] descriptor, and for [null] values it
    throws without logging or calling [state]. *)
Theorem null_arguments_throw config state value w :
  formatDate production config state value VNull w = (inl TypeError, w)
  ∧ formatTime production config state value VNull w = (inl TypeError, w)
  ∧ formatRelative production config state value VNull w
    = (inl TypeError, w)
  ∧ formatNumber production config state value VNull w = (inl TypeError, w)
  ∧ (PLURAL_FORMAT_OPTIONS ≠ [] →
     fst (formatPlural config state value VNull w) = inl TypeError
     ∧ trace (snd (formatPlural config state value VNull w)) = trace w)
  ∧ (∀ messageDescriptor,
       formatHTMLMessage production config state messageDescriptor VNull w
       = (inl TypeError, w))
  ∧ (∀ values,
       fst (formatMessage production config state VNull values w)
       = inl TypeError)
  ∧ (∀ messageDescriptor,
       let run :=
         formatMessage production config state messageDescriptor VNull w in
       (fst run = inl TypeError
        ∨ ∃ msg, fst run = inl (InvariantViolation msg))
       ∧ trace (snd run) = trace w).
Proof.
  assert (∀ (k : val → M val),
            (get config "locale" ≫= k) w = (inl TypeError, w)
            ∨ (nullish config = false
               ∧ (get config "locale" ≫= k) w
                 = k (read (objects w) config "locale") w)) as Hlocale.
  { intros k. destruct (nullish config) eqn:Ncfg.
    - left. by destruct config.
    - right. split; [done|]. by rewrite run_bind, get_run. }
  repeat split.
  - unfold formatDate. rewrite run_bind, default_param_run.
    destruct w as [h tr]. cbn [objects trace default_pad defaulted].
    rewrite app_nil_r. edestruct Hlocale as [->|[Ncfg ->]]; [done|].
    by rewrite run_bind, get_run.
  - unfold formatTime. rewrite run_bind, default_param_run.
    destruct w as [h tr]. cbn [objects trace default_pad defaulted].
    rewrite app_nil_r. edestruct Hlocale as [->|[Ncfg ->]]; [done|].
    by rewrite run_bind, get_run.
  - unfold formatRelative. rewrite run_bind, default_param_run.
    destruct w as [h tr]. cbn [objects trace default_pad defaulted].
    rewrite app_nil_r. edestruct Hlocale as [->|[Ncfg ->]]; [done|].
    by rewrite run_bind, get_run.
  - unfold formatNumber. rewrite run_bind, default_param_run.
    destruct w as [h tr]. cbn [objects trace default_pad defaulted].
    rewrite app_nil_r. edestruct Hlocale as [->|[Ncfg ->]]; [done|].
    by rewrite run_bind, get_run.
  - unfold formatPlural. rewrite run_bind, default_param_run.
    destruct w as [h tr]. cbn [objects trace default_pad defaulted].
    rewrite app_nil_r. edestruct Hlocale as [->|[Ncfg ->]]; [done|].
    destruct PLURAL_FORMAT_OPTIONS as [|name wl]; done.
  - unfold formatPlural. rewrite run_bind, default_param_run.
    destruct w as [h tr]. cbn [objects trace default_pad defaulted].
    rewrite app_nil_r. edestruct Hlocale as [->|[Ncfg ->]]; [done|].
    destruct PLURAL_FORMAT_OPTIONS as [|name wl]; done.
  - intros values. unfold formatMessage.
    rewrite run_bind, default_param_run, run_bind, default_param_run.
    cbn [objects trace default_pad defaulted]. rewrite app_nil_r.
    destruct (nullish config) eqn:Ncfg; [by destruct config|].
    do 5 rewrite run_bind, get_run by done. done.
  - unfold formatMessage.
    rewrite run_bind, default_param_run, run_bind, default_param_run.
    cbn [objects trace default_pad defaulted]. rewrite app_nil_r.
    destruct (nullish config) eqn:Ncfg; [left; by destruct config|].
    do 5 rewrite run_bind, get_run by done.
    destruct (null_or_not messageDescriptor) as [->|Nmd]; [by left|].
    do 2 rewrite run_bind, get_run by by apply nullish_defaulted.
    rewrite run_bind. unfold invariant.
    destruct (truthy (read _ _ "id")); [|right; eexists; reflexivity].
    cbn [ret mret M_ret]. rewrite run_bind, catalog_message_run.
    by left.
  - unfold formatMessage.
    rewrite run_bind, default_param_run, run_bind, default_param_run.
    cbn [objects trace default_pad defaulted]. rewrite app_nil_r.
    destruct (nullish config) eqn:Ncfg; [by destruct config|].
    do 5 rewrite run_bind, get_run by done.
    destruct (null_or_not messageDescriptor) as [->|Nmd]; [done|].
    do 2 rewrite run_bind, get_run by by apply nullish_defaulted.
    rewrite run_bind. unfold invariant.
    destruct (truthy (read _ _ "id")); [|done].
    cbn [ret mret M_ret]. by rewrite run_bind, catalog_message_run.
Qed.
End NullArguments.

Section Production.
Context `{Host}.

(** X7. A production build writes nothing to the console: no function that the
    module exports logs, for any arguments. *)
Theorem production_is_quiet :
  Forall (λ e, ∀ config state a b w,
            ∃ events,
              trace (snd (export_run e true config state a b w))
              = trace w ++ events
              ∧ Forall (λ ev, ¬ is_console_error ev) events) exports.
Proof.
  unfold exports. repeat constructor; cbn [export_run]; intros;
    apply events_of_keeps.
  - apply keeps_formatDate; cbn; auto; done.
  - apply keeps_formatTime; cbn; auto; done.
  - apply keeps_formatRelative; cbn; auto; done.
  - apply keeps_formatNumber; cbn; auto; done.
  - apply keeps_formatPlural; cbn; auto.
  - apply keeps_formatMessage; cbn; auto; done.
  - apply keeps_formatHTMLMessage; cbn; auto; done.
Qed.
End Production.

(** ** What [formatMessage] returns and logs *)

Section MessageProperties.
Context `{Host}.

Lemma render_pad (h : heap) v parts :
  render (h ++ default_pad v) parts = render h parts.
Proof.
  induction parts as [|[s|x] parts IH]; cbn [render]; [done|..];
    by rewrite IH, ?to_string_pad.
Qed.

Lemma render_message_heap (h : heap) descriptor values parts :
  render (message_heap h descriptor values) parts = render h parts.
Proof. unfold message_heap. by rewrite !render_pad. Qed.

(** X8. Outside the production fast path, so always in a build that is not a
    production build, a catalog message for which the formatter returns a
    truthy value is formatted once and that value is returned: the default
    message is not formatted, and nothing is logged in either build. *)
Theorem formatMessage_formats_once production config state messageDescriptor
    values w mf v :
  let h := objects w in
  let id := read h messageDescriptor "id" in
  let message := catalog_message h config id in
  let locale := read h config "locale" in
  let formats := read h config "formats" in
  let hm := message_heap h messageDescriptor values in
  let vs := message_values h messageDescriptor values in
  nullish config = false → messageDescriptor ≠ VNull →
  object_or_omitted h values → truthy id = true →
  fast_path production h values = false →
  truthy message = true →
  getMessageFormat state hm message locale formats = inr mf →
  mf hm [vs] = inr v → truthy v = true →
  formatMessage production config state messageDescriptor values w
  = (inr v,
     {| objects := hm;
        trace := trace w ++ [Call GetMessageFormat [message; locale; formats];
                             Call Format [vs]] |}).
Proof.
  intros h id message locale formats hm vs Ncfg Nmd Hvs Tid Hfast Tm Hmf Hv Tv.
  assert (values ≠ VNull) as Nvs by (by destruct values).
  rewrite formatMessage_run; try done;
    [|unfold comparable; fold h id message; intros; congruence].
  unfold message_fallback, message_candidates, message_log.
  fold h id message locale formats hm vs.
  rewrite Hfast, Tm. unfold attempt, attempt_log, delegate.
  rewrite Hmf, Hv. cbn [formatter_result first_truthy negb andb].
  rewrite Tv. cbn [negb andb]. rewrite Tv. reflexivity.
Qed.

(** X9. The warning for a message that the catalog does not have. In a build
    that is not a production build, a descriptor without catalog message but
    with a default message that formats to a truthy value gets that value; the
    line [Missing message] is logged before the default message is formatted
    where the locale differs from the default locale (compared in lower case),
    and nothing is logged where the two are the same. *)
Theorem formatMessage_default_locale config state messageDescriptor values w
    l d mf v :
  let h := objects w in
  let id := read h messageDescriptor "id" in
  let defaultMessage := read h messageDescriptor "defaultMessage" in
  let defaultFormats := read h config "defaultFormats" in
  let hm := message_heap h messageDescriptor values in
  let vs := message_values h messageDescriptor values in
  nullish config = false → messageDescriptor ≠ VNull →
  object_or_omitted h values → truthy id = true →
  truthy (catalog_message h config id) = false →
  truthy defaultMessage = true →
  read h config "locale" = VStr l → l ≠ "" →
  read h config "defaultLocale" = VStr d →
  getMessageFormat state hm defaultMessage (VStr d) defaultFormats = inr mf →
  mf hm [vs] = inr v → truthy v = true →
  formatMessage false config state messageDescriptor values w
  = (inr v,
     {| objects := hm;
        trace :=
          trace w
          ++ (if String.eqb (String_toLowerCase l) (String_toLowerCase d)
              then []
              else [ConsoleError
                      (render h (missing_parts id (VStr l) defaultMessage))])
          ++ [Call GetMessageFormat [defaultMessage; VStr d; defaultFormats];
              Call Format [vs]] |}).
Proof.
  intros h id defaultMessage defaultFormats hm vs Ncfg Nmd Hvs Tid Tm Td Hl Nl
    Hd Hmf Hv Tv.
  assert (values ≠ VNull) as Nvs by (by destruct values).
  rewrite formatMessage_run; try done;
    [|unfold comparable; fold h; by rewrite Hl, Hd].
  unfold message_fallback, message_candidates, message_log, fast_path.
  fold h id defaultMessage defaultFormats hm vs.
  rewrite Hl, Hd, Tm, Td. cbn [andb truthy negb].
  unfold attempt, attempt_log, delegate, missing_log, console_log.
  rewrite Hmf, Hv, Td. cbn [formatter_result first_truthy negb orb lower].
  rewrite Tv. subst hm. rewrite render_message_heap. cbn [truthy].
  assert ((l =? "") = false) as -> by (by apply String.eqb_neq).
  cbn [negb andb]. by destruct (String.eqb _ _).
Qed.

(** X10. Where there is nothing to format, neither a catalog message nor a
    default message, [formatMessage] returns the id without calling [state]; a
    build that is not a production build logs two lines, that the message is
    missing and that the id is used as fallback. *)
Theorem formatMessage_falls_back_to_id production config state
    messageDescriptor values w :
  let h := objects w in
  let id := read h messageDescriptor "id" in
  let defaultMessage := read h messageDescriptor "defaultMessage" in
  let message := catalog_message h config id in
  let locale := read h config "locale" in
  nullish config = false → messageDescriptor ≠ VNull →
  object_or_omitted h values → truthy id = true →
  truthy message = false → truthy defaultMessage = false →
  formatMessage production config state messageDescriptor values w
  = (inr id,
     {| objects := message_heap h messageDescriptor values;
        trace :=
          trace w
          ++ (if production then []
              else [ConsoleError
                      (render h (missing_parts id locale defaultMessage));
                    ConsoleError
                      (render h (cannot_parts id message defaultMessage))])
     |}).
Proof.
  intros h id defaultMessage message locale Ncfg Nmd Hvs Tid Tm Td.
  assert (values ≠ VNull) as Nvs by (by destruct values).
  rewrite formatMessage_run; try done;
    [|unfold comparable; fold h id defaultMessage; intros; congruence].
  unfold message_fallback, message_candidates, message_log.
  fold h id defaultMessage message locale.
  rewrite Tm, Td. cbn [truthy negb andb orb first_truthy].
  rewrite Tm, Td. unfold missing_log, console_log. rewrite Td.
  cbn [negb orb]. rewrite !render_message_heap.
  unfold fast_path. destruct production; cbn [andb].
  - by destruct (bool_decide _).
  - done.
Qed.

(** X11. A catalog message and a default message for which no formatter can be
    constructed: each constructor is called once, that of the default message
    only where there is a default message, and the source of the catalog
    message is returned. A build that is not a production build logs each
    error, with its text, and that the source of the message is used as
    fallback. *)
Theorem formatMessage_reports_errors production config state
    messageDescriptor values w e e' :
  let h := objects w in
  let id := read h messageDescriptor "id" in
  let defaultMessage := read h messageDescriptor "defaultMessage" in
  let message := catalog_message h config id in
  let locale := read h config "locale" in
  let formats := read h config "formats" in
  let defaultLocale := read h config "defaultLocale" in
  let defaultFormats := read h config "defaultFormats" in
  let hm := message_heap h messageDescriptor values in
  nullish config = false → messageDescriptor ≠ VNull →
  object_or_omitted h values → truthy id = true →
  fast_path production h values = false →
  truthy message = true →
  getMessageFormat state hm message locale formats = inl e →
  getMessageFormat state hm defaultMessage defaultLocale defaultFormats
  = inl e' →
  formatMessage production config state messageDescriptor values w
  = (inr message,
     {| objects := hm;
        trace :=
          trace w
          ++ Call GetMessageFormat [message; locale; formats]
             :: console_log production h
                  (error_parts id locale defaultMessage (HostError e))
          ++ (if truthy defaultMessage then
                Call GetMessageFormat
                  [defaultMessage; defaultLocale; defaultFormats]
                :: console_log production h
                     (default_error_parts id (HostError e'))
              else [])
          ++ console_log production h
               (cannot_parts id message defaultMessage) |}).
Proof.
  intros h id defaultMessage message locale formats defaultLocale
    defaultFormats hm Ncfg Nmd Hvs Tid Hfast Tm He He'.
  assert (values ≠ VNull) as Nvs by (by destruct values).
  rewrite formatMessage_run; try done;
    [|unfold comparable; fold h id message; intros; congruence].
  unfold message_fallback, message_candidates, message_log.
  fold h id defaultMessage message locale formats defaultLocale
    defaultFormats hm.
  rewrite Hfast, Tm. unfold attempt, attempt_log, delegate.
  rewrite He, He'. cbn [truthy negb andb first_truthy]. rewrite Tm.
  unfold console_log. subst hm. rewrite !render_message_heap.
  destruct (truthy defaultMessage); cbn [truthy]; by rewrite <- ?app_assoc.
Qed.

(** X12. What a formatter returns counts only where it is truthy. A catalog
    message that formats to a falsy value, the empty string for one, is
    handled as one that could not be formatted: for a descriptor without
    default message the call returns the source of the message, and a build
    that is not a production build logs that it does. *)
Theorem formatMessage_empty_result production config state messageDescriptor
    values w mf v :
  let h := objects w in
  let id := read h messageDescriptor "id" in
  let defaultMessage := read h messageDescriptor "defaultMessage" in
  let message := catalog_message h config id in
  let locale := read h config "locale" in
  let formats := read h config "formats" in
  let hm := message_heap h messageDescriptor values in
  let vs := message_values h messageDescriptor values in
  nullish config = false → messageDescriptor ≠ VNull →
  object_or_omitted h values → truthy id = true →
  fast_path production h values = false →
  truthy message = true → truthy defaultMessage = false →
  getMessageFormat state hm message locale formats = inr mf →
  mf hm [vs] = inr v → truthy v = false →
  formatMessage production config state messageDescriptor values w
  = (inr message,
     {| objects := hm;
        trace :=
          trace w
          ++ [Call GetMessageFormat [message; locale; formats];
              Call Format [vs]]
          ++ (if production then []
              else [ConsoleError
                      (render h (cannot_parts id message defaultMessage))])
     |}).
Proof.
  intros h id defaultMessage message locale formats hm vs Ncfg Nmd Hvs Tid
    Hfast Tm Td Hmf Hv Tv.
  assert (values ≠ VNull) as Nvs by (by destruct values).
  rewrite formatMessage_run; try done;
    [|unfold comparable; fold h id message; intros; congruence].
  unfold message_fallback, message_candidates, message_log.
  fold h id defaultMessage message locale formats hm vs.
  rewrite Hfast, Tm, Td. unfold attempt, attempt_log, delegate.
  rewrite Hmf, Hv. cbn [formatter_result first_truthy negb andb].
  rewrite Tv, Tm. cbn [negb andb]. rewrite Tv.
  unfold console_log. subst hm. rewrite !render_message_heap.
  by destruct production.
Qed.
End MessageProperties.

Section MessageErrors.
Context `{Host}.

Lemma missing_throws locale defaultLocale defaultMessage
    (k : bool → M unit) w :
  truthy defaultMessage = true → truthy locale = true →
  ¬ (is_string locale ∧ is_string defaultLocale) →
  ((if negb (truthy defaultMessage) then ret true
    else if truthy locale then
      l ← toLowerCase locale;
      d ← toLowerCase defaultLocale;
      ret (negb (String.eqb l d))
    else ret false) ≫= k) w
  = (inl TypeError, w).
Proof.
  intros Td Tl Hs. rewrite run_bind, Td, Tl. cbn [negb].
  destruct locale as [| | | |l|]; try done.
  destruct defaultLocale as [| | | |d|]; try done.
  destruct Hs. by split.
Qed.

(** X13. In a build that is not a production build, [formatMessage] compares
    the locale with the default locale where the catalog has no message for
    the id and there is a default message, and the comparison is outside the
    [try] blocks: with a config whose [defaultLocale] is absent or [null], the
    call throws a [TypeError] before any formatter is constructed. The
    production build does not compare, and returns a value for the same
    arguments. *)
Theorem formatMessage_compares_locales config state messageDescriptor values
    w :
  let h := objects w in
  let id := read h messageDescriptor "id" in
  let defaultMessage := read h messageDescriptor "defaultMessage" in
  let locale := read h config "locale" in
  let defaultLocale := read h config "defaultLocale" in
  nullish config = false → messageDescriptor ≠ VNull →
  object_or_omitted h values → truthy id = true →
  truthy (catalog_message h config id) = false →
  truthy defaultMessage = true →
  is_string locale → truthy locale = true →
  nullish defaultLocale = true →
  formatMessage false config state messageDescriptor values w
  = (inl TypeError,
     {| objects := message_heap h messageDescriptor values;
        trace := trace w |})
  ∧ ∃ v w',
      formatMessage true config state messageDescriptor values w
      = (inr v, w').
Proof.
  intros h id defaultMessage locale defaultLocale Ncfg Nmd Hvs Tid Tm Td Sl Tl
    Nd.
  assert (values ≠ VNull) as Nvs by (by destruct values).
  split; [|eexists _, _; by apply formatMessage_run].
  assert (¬ (is_string locale ∧ is_string defaultLocale)) as Hs
    by (intros [_ ?]; by destruct defaultLocale).
  clear Sl Nd. subst h id defaultMessage locale defaultLocale.
  destruct w as [h tr]. cbn [objects trace] in *.
  unfold formatMessage.
  rewrite run_bind, default_param_run. cbn [objects trace].
  rewrite run_bind, default_param_run. cbn [objects trace].
  do 5 rewrite run_bind, get_run by done.
  do 2 rewrite run_bind, get_run by by apply nullish_defaulted.
  cbn [objects].
  rewrite !read_pad, !read_self_defaulted.
  rewrite run_bind, invariant_run by done.
  rewrite run_bind, catalog_message_run. cbn [objects].
  rewrite !read_pad, !to_string_pad.
  fold (catalog_message h config (read h messageDescriptor "id")).
  rewrite run_bind, keys_run by by apply nullish_defaulted.
  rewrite andb_false_r, Tm. cbn [negb].
  rewrite run_bind, run_bind. by rewrite missing_throws.
Qed.
End MessageErrors.

(** ** [formatHTMLMessage] *)

Section HTMLMessage.
Context `{Host}.

Lemma catalog_message_ext (h h' : heap) config id :
  h `prefix_of` h' → closed h → allocated h config → allocated h id →
  catalog_message h' config id = catalog_message h config id.
Proof.
  intros Hp Hc Hcfg Hid. unfold catalog_message.
  rewrite (read_ext h h' config), (to_string_ext h h' id) by done.
  by rewrite (read_ext h h') by (done || by apply closed_read).
Qed.

(** X14. [formatHTMLMessage] escapes the values and nothing else. In a
    production build a call without values returns [message || defaultMessage
    || id] as it is, neither formatted nor escaped, and calls no method of
    [state]. *)
Theorem formatHTMLMessage_fast_path config state messageDescriptor rawValues
    w :
  let h := objects w in
  let id := read h messageDescriptor "id" in
  let run :=
    formatHTMLMessage true config state messageDescriptor rawValues w in
  closed h → allocated h config → nullish config = false →
  is_object h messageDescriptor →
  object_or_omitted h rawValues → own h rawValues = ∅ →
  truthy id = true →
  fst run
  = inr (js_or (js_or (catalog_message h config id)
                  (read h messageDescriptor "defaultMessage")) id)
  ∧ trace (snd run) = trace w.
Proof.
  intros h id run Hc Hcfg Ncfg Hmd Hraw Hempty Tid. subst run.
  assert (allocated h messageDescriptor ∧ messageDescriptor ≠ VNull)
    as [Hamd Nmd] by (by destruct messageDescriptor).
  rewrite formatHTMLMessage_run by done. fold h. rewrite Hempty, fmap_empty.
  set (h1 := (h ++ default_pad rawValues) ++ [plain ∅]).
  assert (h `prefix_of` h1) as Hp by (subst h1; prefix_solve).
  assert (read h1 messageDescriptor "id" = id) as Hid
    by (by apply read_ext).
  rewrite formatMessage_run; cbn [objects trace]; try done;
    try (by rewrite Hid); try (unfold comparable; intros; discriminate).
  unfold message_fallback, message_candidates, fast_path, message_log.
  unfold fast_path. cbn [andb own].
  assert (object_at h1 (List.length (h ++ default_pad rawValues)) = plain ∅)
    as -> by (subst h1; apply object_at_fresh).
  cbn [props plain]. rewrite bool_decide_eq_true_2 by done.
  cbn [fst snd trace first_truthy truthy]. rewrite app_nil_r.
  split; [|done]. rewrite Hid.
  rewrite (read_ext h h1 messageDescriptor) by done.
  rewrite (catalog_message_ext h h1) by (done || by apply closed_read).
  unfold js_or. by repeat case_match.
Qed.

(** X15. No error thrown by a message formatter or by its constructor leaves
    [formatHTMLMessage], for any arguments; and for a descriptor whose id is
    absent or falsy the call throws the invariant violation of
    [formatMessage]. *)
Theorem formatHTMLMessage_errors production config state messageDescriptor
    rawValues w :
  let h := objects w in
  let run :=
    formatHTMLMessage production config state messageDescriptor rawValues w in
  (∀ e, fst run ≠ inl (HostError e))
  ∧ (allocated h config → nullish config = false →
     is_object h messageDescriptor → object_or_omitted h rawValues →
     truthy (read h messageDescriptor "id") = false →
     ∃ msg, fst run = inl (InvariantViolation msg)).
Proof.
  intros h run. split.
  - intros e Heq.
    assert (keeps (trace_discipline (λ _, True))
              (λ e, ∀ s, e ≠ HostError s)
              (formatHTMLMessage production config state messageDescriptor
                 rawValues)
              (λ _, True)) as Hk
      by (apply keeps_formatHTMLMessage; done).
    destruct (Hk w I) as (_ & _ & Hr). fold run in Hr.
    rewrite Heq in Hr. by apply (Hr e).
  - intros Hcfg Ncfg Hmd Hraw Tid. subst run.
    assert (allocated h messageDescriptor ∧ messageDescriptor ≠ VNull)
      as [Hamd Nmd] by (by destruct messageDescriptor).
    rewrite formatHTMLMessage_run by done. fold h.
    unfold formatMessage.
    rewrite run_bind, default_param_run. cbn [objects trace].
    rewrite run_bind, default_param_run. cbn [objects trace].
    do 5 rewrite run_bind, get_run by done.
    do 2 rewrite run_bind, get_run by by apply nullish_defaulted.
    cbn [objects].
    rewrite !read_pad, !read_self_defaulted.
    rewrite (read_ext h (_ ++ _) messageDescriptor "id")
      by (prefix_solve || done).
    rewrite run_bind. unfold invariant. rewrite Tid. by eexists.
Qed.
End HTMLMessage.

(** ** Named formats in the functions that delegate *)

Section WithoutNamedFormat.
Context `{Host}.
Variable production : bool.

Lemma own_falsy (h : heap) v : truthy v = false → own h v = ∅.
Proof. by destruct v. Qed.

Lemma defaults_log_alone (h : heap) formats type format :
  truthy (defaults_of h formats type format) = false →
  defaults_log production h formats type format
  = no_format_log production h type format.
Proof.
  unfold defaults_of, defaults_log, named_format_log, no_format_log,
    console_log, no_format_parts.
  destruct (truthy format); [|done]. by intros ->.
Qed.

Lemma filterFormatOptions_quiet whitelist obj defaults w :
  trace (snd (filterFormatOptions whitelist obj defaults w)) = trace w.
Proof.
  destruct (keeps_filterFormatOptions (D := trace_discipline (λ _, False))
              (λ _, True) I whitelist obj defaults w I)
    as (_ & (events & -> & Hnone) & _).
  destruct events as [|e events]; [by rewrite app_nil_r|].
  by apply Forall_cons in Hnone as [[] _].
Qed.

Lemma filterFormatOptions_null_throws whitelist obj w :
  allocated (objects w) obj → nullish obj = false →
  ¬ Forall (λ name, is_Some (own (objects w) obj !! name)) whitelist →
  ∃ w', filterFormatOptions whitelist obj VNull w = (inl TypeError, w')
        ∧ trace w' = trace w.
Proof.
  intros Ho No Hall.
  pose proof (filterFormatOptions_quiet whitelist obj VNull w) as Hq.
  assert (fst (filterFormatOptions whitelist obj VNull w) = inl TypeError)
    as Hf.
  { destruct w as [h tr]. cbn [objects] in *. unfold filterFormatOptions.
    rewrite run_bind, default_param_run. cbn [objects trace].
    rewrite run_bind. cbn [alloc objects trace default_pad defaulted].
    rewrite app_nil_r. by apply filter_loop_throws. }
  destruct (filterFormatOptions whitelist obj VNull w) as [r w'].
  cbn in Hq, Hf. subst r. by exists w'.
Qed.

Lemma null_format_throws {A} whitelist options formats type
    (k : val → M A) w :
  allocated (objects w) options → nullish options = false →
  ¬ Forall (λ name, is_Some (own (objects w) options !! name)) whitelist →
  ∃ w',
    ((if truthy VNull then getNamedFormat production formats type VNull
      else ret VNull)
     ≫= λ defaults, filterFormatOptions whitelist options defaults ≫= k) w
    = (inl TypeError, w')
    ∧ trace w' = trace w.
Proof.
  intros Ho No Hall. cbn [truthy]. rewrite run_bind. cbn [ret mret M_ret].
  destruct (filterFormatOptions_null_throws whitelist options w Ho No Hall)
    as (w' & Hrun & Htr).
  exists w'. by rewrite run_bind, Hrun.
Qed.

(** X16. A named format is looked up only where [options.format] is truthy.
    Where the format of the options is absent or falsy, [null] apart, or
    is a name that [config.formats] does not have, [formatDate],
    [formatTime], [formatRelative] and [formatNumber] go on with the options
    alone: the constructor is given the whitelisted keys of the options. A
    name that is not found is reported on the console, in a build that is
    not a production build, before the constructor is called, and nothing
    else is logged. A format that is [null] is passed on as the defaults:
    where the options lack a name of the whitelist the call throws a
    [TypeError], and calls no method of [state]. *)
Theorem unknown_format_reported config state value options w :
  let h := objects w in
  let locale := read h config "locale" in
  let formats := read h config "formats" in
  let format := read h options "format" in
  let lacks whitelist :=
    ¬ Forall (λ name, is_Some (own h options !! name)) whitelist in
  let throws (run : (exn + val) * world) :=
    fst run = inl TypeError ∧ trace (snd run) = trace w in
  closed h → allocated h config → nullish config = false →
  allocated h value → object_or_omitted h options →
  (format ≠ VNull →
   (truthy (defaults_of h formats "date" format) = false →
    goes_on_alone GetDateTimeFormat DATE_TIME_FORMAT_OPTIONS locale
      (own h options) (no_format_log production h "date" format) w
      (formatDate production config state value options w))
   ∧ (truthy (defaults_of h formats "time" format) = false →
      goes_on_alone GetDateTimeFormat DATE_TIME_FORMAT_OPTIONS locale
        (own h options) (no_format_log production h "time" format) w
        (formatTime production config state value options w))
   ∧ (truthy (defaults_of h formats "relative" format) = false →
      goes_on_alone GetRelativeFormat RELATIVE_FORMAT_OPTIONS locale
        (own h options) (no_format_log production h "relative" format) w
        (formatRelative production config state value options w))
   ∧ (truthy (defaults_of h formats "number" format) = false →
      goes_on_alone GetNumberFormat NUMBER_FORMAT_OPTIONS locale
        (own h options) (no_format_log production h "number" format) w
        (formatNumber production config state value options w)))
  ∧ (format = VNull →
     (lacks DATE_TIME_FORMAT_OPTIONS →
      throws (formatDate production config state value options w)
      ∧ throws (formatTime production config state value options w))
     ∧ (lacks RELATIVE_FORMAT_OPTIONS →
        throws (formatRelative production config state value options w))
     ∧ (lacks NUMBER_FORMAT_OPTIONS →
        throws (formatNumber production config state value options w))).
Proof.
  intros h locale formats format lacks throws Hc Hcfg Ncfg Hv Hopt.
  subst locale formats format lacks throws. cbn beta.
  unfold goes_on_alone. split.
  { intros Hfmt. split; [|split; [|split]]; intros Hnone.
    - rewrite formatDate_run by done. fold h. cbn [snd objects trace].
      rewrite defaults_log_alone, (own_falsy h _ Hnone),
        filtered_merge_alone by done.
      eexists _, _. split; [reflexivity|]. split; [|apply lookup_last].
      case_match; repeat constructor; by intros [].
    - rewrite formatTime_run by done. fold h. cbn [snd objects trace].
      rewrite defaults_log_alone, (own_falsy h _ Hnone),
        filtered_merge_alone by done.
      eexists _, _. split; [reflexivity|]. split; [|apply lookup_last].
      case_match; repeat constructor; by intros [].
    - rewrite formatRelative_run by done. fold h.
      rewrite defaults_log_alone, (own_falsy h _ Hnone),
        filtered_merge_alone by done.
      destruct (getRelativeFormat _ _ _ _) as [e|rf];
        [|destruct (reference_time _ _ _ _) as [e|reference]];
        cbn [snd objects trace];
        (eexists _, _; split; [reflexivity|]; split);
        try apply lookup_last; try apply lookup_filtered;
        repeat case_match; repeat constructor; by intros [].
    - rewrite formatNumber_run by done. fold h. cbn [snd objects trace].
      rewrite defaults_log_alone, (own_falsy h _ Hnone),
        filtered_merge_alone by done.
      eexists _, _. split; [reflexivity|]. split; [|apply lookup_last].
      case_match; repeat constructor; by intros []. }
  intros Hnull.
  assert (allocated h options ∧ nullish options = false
          ∧ default_pad options = [] ∧ defaulted h options = options)
    as (Ho & No & Hpad & Hdef).
  { destruct options; try done. }
  destruct w as [h0 tr]. cbn [objects trace] in *. subst h.
  assert (∀ ext, allocated (h0 ++ ext) options ∧
                 ∀ whitelist,
                   ¬ Forall (λ name, is_Some (own h0 options !! name))
                       whitelist →
                   ¬ Forall (λ name,
                               is_Some (own (h0 ++ ext) options !! name))
                       whitelist) as Hext.
  { intros ext. split; [by apply allocated_app|].
    intros whitelist. by rewrite own_app. }
  split; [|split]; intros Hlacks.
  - split.
    + unfold formatDate.
      rewrite run_bind, default_param_run. cbn [objects trace].
      rewrite Hpad, Hdef, app_nil_r.
      do 3 rewrite run_bind, get_run by done. cbn [objects].
      rewrite Hnull. rewrite run_bind, Date_new_run. cbn [objects trace].
      edestruct (null_format_throws (A := val)) as (w' & -> & Htr);
        [apply Hext|done|by apply Hext|done].
    + unfold formatTime.
      rewrite run_bind, default_param_run. cbn [objects trace].
      rewrite Hpad, Hdef, app_nil_r.
      do 3 rewrite run_bind, get_run by done. cbn [objects].
      rewrite Hnull. rewrite run_bind, Date_new_run. cbn [objects trace].
      edestruct (null_format_throws (A := val)) as (w' & -> & Htr);
        [apply Hext|done|by apply Hext|done].
  - unfold formatRelative.
    rewrite run_bind, default_param_run. cbn [objects trace].
    rewrite Hpad, Hdef, app_nil_r.
    do 3 rewrite run_bind, get_run by done. cbn [objects].
    rewrite Hnull. rewrite run_bind, Date_new_run. cbn [objects trace].
    rewrite run_bind, get_run by done.
    rewrite run_bind, Date_new_run. cbn [objects trace].
    rewrite <- app_assoc.
    edestruct (null_format_throws (A := val)) as (w' & -> & Htr);
      [apply Hext|done|by apply Hext|done].
  - unfold formatNumber.
    rewrite run_bind, default_param_run. cbn [objects trace].
    rewrite Hpad, Hdef, app_nil_r.
    do 3 rewrite run_bind, get_run by done. cbn [objects].
    rewrite Hnull. rewrite <- (app_nil_r h0).
    edestruct (null_format_throws (A := val)) as (w' & -> & Htr);
      [apply Hext|done|by apply Hext|done].
Qed.
End WithoutNamedFormat.

Section CallsIntoState.
Context `{Host}.
Variable production : bool.

Lemma defaults_log_found (h : heap) formats type format :
  truthy (named_format h formats type format) = true →
  defaults_log production h formats type format = [].
Proof.
  intros Hfound. unfold defaults_log, named_format_log. rewrite Hfound.
  by case_match.
Qed.

Lemma calls_only (m : method) (args : list val) (rest : list event) :
  Forall (λ e, ¬ is_console_error e) rest →
  Forall (λ e, ¬ is_console_error e) (Call m args :: rest).
Proof. intros. constructor; [by intros []|done]. Qed.

(** X17. A format that [config.formats] has under the name that the options
    give is not reported: [formatDate], [formatTime], [formatRelative] and
    [formatNumber] then log nothing, in any build. *)
Theorem known_format_is_quiet config state value options w :
  let h := objects w in
  let formats := read h config "formats" in
  let format := read h options "format" in
  let quiet (type : string) (run : (exn + val) * world) :=
    truthy (named_format h formats type format) = true →
    ∃ events, trace (snd run) = trace w ++ events
              ∧ Forall (λ e, ¬ is_console_error e) events in
  closed h → allocated h config → nullish config = false →
  allocated h value →
  object_or_omitted h options → format ≠ VNull →
  quiet "date" (formatDate production config state value options w)
  ∧ quiet "time" (formatTime production config state value options w)
  ∧ quiet "relative" (formatRelative production config state value options w)
  ∧ quiet "number" (formatNumber production config state value options w).
Proof.
  intros h formats format quiet Hc Hcfg Ncfg Hv Hopt Hfmt.
  subst quiet formats format. cbn beta.
  split; [|split; [|split]]; intros Hfound.
  - rewrite formatDate_run by done. fold h. cbn [snd trace].
    rewrite defaults_log_found by done. eexists. split; [reflexivity|].
    apply calls_only. case_match; repeat constructor; by intros [].
  - rewrite formatTime_run by done. fold h. cbn [snd trace].
    rewrite defaults_log_found by done. eexists. split; [reflexivity|].
    apply calls_only. case_match; repeat constructor; by intros [].
  - rewrite formatRelative_run by done. fold h.
    rewrite defaults_log_found by done.
    destruct (getRelativeFormat _ _ _ _) as [e|rf];
      [|destruct (reference_time _ _ _ _) as [e|reference]];
      cbn [snd trace]; (eexists; split; [reflexivity|]);
      repeat case_match; repeat constructor; by intros [].
  - rewrite formatNumber_run by done. fold h. cbn [snd trace].
    rewrite defaults_log_found by done. eexists. split; [reflexivity|].
    apply calls_only. case_match; repeat constructor; by intros [].
Qed.


End CallsIntoState.

(** ** The properties at the examples *)

Lemma more_closed : closed more_objects.
Proof. apply (bool_decide_unpack _). vm_compute. exact I. Qed.

Lemma filterFormatOptions_type_errors_witness :
  (∃ l,
     fst (filterFormatOptions ["style"] (VRef 9) VNull example_world)
     = inr (VRef l)
     ∧ objects (snd (filterFormatOptions ["style"] (VRef 9) VNull
                       example_world)) !! l
       = Some (plain (filter (λ kv, kv.1 ∈ ["style"])
                        (own example_objects (VRef 9)))))
  ∧ fst (filterFormatOptions ["style"; "currency"] (VRef 9) VNull
           example_world)
    = inl TypeError.
Proof.
  split.
  - apply (filterFormatOptions_type_errors ["style"] (VRef 9) VNull
             example_world); [vm_compute; lia | reflexivity |].
    by apply (bool_decide_unpack _).
  - apply (filterFormatOptions_type_errors ["style"; "currency"] (VRef 9)
             VNull example_world); [vm_compute; lia | reflexivity |].
    by apply (bool_decide_unpack _).
Defined.

Lemma filterFormatOptions_idempotent_witness :
  ∃ filtered w1 again w2,
    filterFormatOptions ["style"; "useGrouping"] (VRef 9) (VRef 6)
      example_world
    = (inr (VRef filtered), w1)
    ∧ filterFormatOptions ["style"; "useGrouping"] (VRef filtered) VUndefined
        w1
      = (inr (VRef again), w2)
    ∧ filtered ≠ again
    ∧ own (objects w2) (VRef again) = own (objects w1) (VRef filtered)
    ∧ own (objects w2) (VRef filtered) = own (objects w1) (VRef filtered).
Proof.
  apply (filterFormatOptions_idempotent ["style"; "useGrouping"] (VRef 9)
           (VRef 6) example_world); vm_compute; lia.
Defined.

Lemma formatTime_is_formatDate_witness :
  formatTime (H := example_host) false (VRef 0) example_state
    (VNum (S754_zero false)) VUndefined example_world
  = formatDate (H := example_host) false (VRef 0) example_state
      (VNum (S754_zero false)) VUndefined example_world.
Proof.
  apply (formatTime_is_formatDate (H := example_host) false (VRef 0)
           example_state (VNum (S754_zero false)) VUndefined example_world).
  reflexivity.
Defined.

Lemma formatPlural_delegates_witness :
  delegates (getPluralFormat example_state) more_objects (VStr "en-US")
    (plain (filter (λ kv, kv.1 ∈ PLURAL_FORMAT_OPTIONS (Host := example_host))
              (own more_objects (VRef 22))))
    (λ _ arg, arg = VNum (S754_finite false 1 1))
    (fst (formatPlural (H := example_host) (VRef 0) example_state
            (VNum (S754_finite false 1 1)) (VRef 22) more_world)).
Proof.
  apply (formatPlural_delegates (H := example_host) (VRef 0) example_state
           (VNum (S754_finite false 1 1)) (VRef 22) more_world);
    [vm_compute; lia | reflexivity | vm_compute; lia].
Defined.

Lemma null_arguments_throw_witness :
  fst (formatPlural (H := example_host) (VRef 0) example_state
         (VNum (S754_finite false 1 1)) VNull example_world)
  = inl TypeError.
Proof.
  apply (null_arguments_throw (H := example_host) false (VRef 0)
           example_state (VNum (S754_finite false 1 1)) example_world).
  discriminate.
Defined.

Lemma formatMessage_formats_once_witness :
  formatMessage (H := example_host) false (VRef 0) example_state (VRef 12)
    VUndefined example_world
  = (inr (VStr "Hello, {name}!"),
     {| objects := example_objects ++ [plain ∅];
        trace := [Call GetMessageFormat
                    [VStr "Hello, {name}!"; VStr "en-US"; VRef 2];
                  Call Format [VRef 17]] |}).
Proof.
  apply (formatMessage_formats_once (H := example_host) false (VRef 0)
           example_state (VRef 12) VUndefined example_world
           (source_formatter (VStr "Hello, {name}!"))
           (VStr "Hello, {name}!"));
    first [reflexivity | discriminate | exact I].
Defined.

Lemma formatMessage_default_locale_witness :
  formatMessage (H := example_host) false (VRef 0) example_state (VRef 17)
    VUndefined more_world
  = (inr (VStr "Title"),
     {| objects := more_objects ++ [plain ∅];
        trace := [ConsoleError
                    (render (H := example_host) more_objects
                       (missing_parts (VStr "app.title") (VStr "en-US")
                          (VStr "Title")));
                  Call GetMessageFormat [VStr "Title"; VStr "en"; VRef 2];
                  Call Format [VRef 23]] |}).
Proof.
  apply (formatMessage_default_locale (H := example_host) (VRef 0)
           example_state (VRef 17) VUndefined more_world "en-US" "en"
           (source_formatter (VStr "Title")) (VStr "Title"));
    first [reflexivity | discriminate | exact I].
Defined.

Lemma formatMessage_falls_back_to_id_witness :
  formatMessage (H := example_host) false (VRef 0) example_state (VRef 18)
    VUndefined more_world
  = (inr (VStr "app.title"),
     {| objects := more_objects ++ [plain ∅];
        trace := [ConsoleError
                    (render (H := example_host) more_objects
                       (missing_parts (VStr "app.title") (VStr "en-US")
                          VUndefined));
                  ConsoleError
                    (render (H := example_host) more_objects
                       (cannot_parts (VStr "app.title") VUndefined
                          VUndefined))] |}).
Proof.
  apply (formatMessage_falls_back_to_id (H := example_host) false (VRef 0)
           example_state (VRef 18) VUndefined more_world);
    first [reflexivity | discriminate | exact I].
Defined.

Lemma formatMessage_reports_errors_witness :
  formatMessage (H := example_host) false (VRef 0) failing_state (VRef 12)
    VUndefined example_world
  = (inr (VStr "Hello, {name}!"),
     {| objects := example_objects ++ [plain ∅];
        trace := [Call GetMessageFormat
                    [VStr "Hello, {name}!"; VStr "en-US"; VRef 2];
                  ConsoleError
                    (render (H := example_host) example_objects
                       (error_parts (VStr "greeting") (VStr "en-US")
                          (VStr "Hello!") (HostError "SyntaxError")));
                  Call GetMessageFormat [VStr "Hello!"; VStr "en"; VRef 2];
                  ConsoleError
                    (render (H := example_host) example_objects
                       (default_error_parts (VStr "greeting")
                          (HostError "SyntaxError")));
                  ConsoleError
                    (render (H := example_host) example_objects
                       (cannot_parts (VStr "greeting")
                          (VStr "Hello, {name}!") (VStr "Hello!")))] |}).
Proof.
  apply (formatMessage_reports_errors (H := example_host) false (VRef 0)
           failing_state (VRef 12) VUndefined example_world "SyntaxError"
           "SyntaxError");
    first [reflexivity | discriminate | exact I].
Defined.

Lemma formatMessage_empty_result_witness :
  formatMessage (H := example_host) true (VRef 0) blank_state (VRef 21)
    (VRef 13) more_world
  = (inr (VStr "Hello, {name}!"),
     {| objects := more_objects;
        trace := [Call GetMessageFormat
                    [VStr "Hello, {name}!"; VStr "en-US"; VRef 2];
                  Call Format [VRef 13]] |}).
Proof.
  apply (formatMessage_empty_result (H := example_host) true (VRef 0)
           blank_state (VRef 21) (VRef 13) more_world
           (λ _ _, inr (VStr "")) (VStr ""));
    first [reflexivity | discriminate | vm_compute; lia].
Defined.

Lemma formatMessage_compares_locales_witness :
  formatMessage (H := example_host) false (VRef 19) example_state (VRef 17)
    VUndefined more_world
  = (inl TypeError, {| objects := more_objects ++ [plain ∅]; trace := [] |})
  ∧ ∃ v w',
      formatMessage (H := example_host) true (VRef 19) example_state
        (VRef 17) VUndefined more_world
      = (inr v, w').
Proof.
  apply (formatMessage_compares_locales (H := example_host) (VRef 19)
           example_state (VRef 17) VUndefined more_world);
    first [reflexivity | discriminate | exact I].
Defined.

Lemma formatHTMLMessage_fast_path_witness :
  fst (formatHTMLMessage (H := example_host) true (VRef 0) example_state
         (VRef 12) VUndefined example_world)
  = inr (VStr "Hello, {name}!")
  ∧ trace (snd (formatHTMLMessage (H := example_host) true (VRef 0)
                  example_state (VRef 12) VUndefined example_world))
    = [].
Proof.
  apply (formatHTMLMessage_fast_path (H := example_host) (VRef 0)
           example_state (VRef 12) VUndefined example_world);
    first [exact example_closed | reflexivity | exact I | vm_compute; lia].
Defined.

Lemma formatHTMLMessage_errors_witness :
  ∃ msg,
    fst (formatHTMLMessage (H := example_host) false (VRef 0) example_state
           (VRef 15) (VRef 13) example_world)
    = inl (InvariantViolation msg).
Proof.
  apply (formatHTMLMessage_errors (H := example_host) false (VRef 0)
           example_state (VRef 15) (VRef 13) example_world);
    first [reflexivity | vm_compute; lia].
Defined.

Lemma unknown_format_reported_witness :
  goes_on_alone GetNumberFormat (NUMBER_FORMAT_OPTIONS (Host := example_host))
    (VStr "en-US") (own more_objects (VRef 20))
    [ConsoleError (render (H := example_host) more_objects
                     (no_format_parts "number" (VStr "long")))]
    more_world
    (formatNumber (H := example_host) false (VRef 0) example_state
       (VNum (S754_finite false 1 (-1))) (VRef 20) more_world)
  ∧ fst (formatNumber (H := example_host) false (VRef 0) example_state
           (VNum (S754_finite false 1 (-1))) (VRef 16) more_world)
    = inl TypeError
  ∧ trace (snd (formatNumber (H := example_host) false (VRef 0)
                  example_state (VNum (S754_finite false 1 (-1))) (VRef 16)
                  more_world))
    = [].
Proof.
  split.
  - apply (unknown_format_reported (H := example_host) false (VRef 0)
             example_state (VNum (S754_finite false 1 (-1))) (VRef 20)
             more_world);
      first [exact more_closed | reflexivity | discriminate | exact I
            | vm_compute; lia].
  - apply (unknown_format_reported (H := example_host) false (VRef 0)
             example_state (VNum (S754_finite false 1 (-1))) (VRef 16)
             more_world);
      first [exact more_closed | reflexivity | exact I | vm_compute; lia
            | by apply (bool_decide_unpack _)].
Defined.

Lemma known_format_is_quiet_witness :
  ∃ events,
    trace (snd (formatNumber (H := example_host) false (VRef 0) example_state
                  (VNum (S754_finite false 1 (-1))) (VRef 9) example_world))
    = trace example_world ++ events
    ∧ Forall (λ e, ¬ is_console_error e) events.
Proof.
  apply (known_format_is_quiet (H := example_host) false (VRef 0)
           example_state (VNum (S754_finite false 1 (-1))) (VRef 9)
           example_world);
    first [exact example_closed | reflexivity | discriminate | exact I
          | vm_compute; lia].
Defined.

